(** * auv_tracker: the state store and the latest-wins broker

    A shallow embedding of [auv_tracker/core.py], of the write handler
    [api_auv] and the stream loop of [auv_tracker/server.py], and of the
    facade method [AuvTracker.set_auv] of [auv_tracker/__init__.py].

    Python objects live in a heap of mutable objects addressed by
    references, so that sharing between the caller's arguments, the stored
    state and the snapshots handed out is visible.  Operations are
    sequential: each method body runs as one step, which is what the
    locks of the source give to the bodies they guard. *)

From Stdlib Require Import ZArith Floats.
From stdpp Require Import base list strings.


(** ** Exceptions and outcomes *)

Inductive exn : Type :=
  | Empty                      (* queue.Empty *)
  | Full                       (* queue.Full *)
  | ValueError (msg : string)
  | TypeError
  | KeyError
  | AttributeError
  | OverflowError
  | OutOfFuel.                 (* not a Python exception: a loop of the
                                  model used up the steps it was given *)

(** [except Exception] catches every exception of Python. *)
Definition is_exception (e : exn) : bool :=
  match e with OutOfFuel => false | _ => true end.

Definition is_Empty (e : exn) : bool :=
  match e with Empty => true | _ => false end.

Definition is_ValueError (e : exn) : bool :=
  match e with ValueError _ => true | _ => false end.

(** A call ends with a value or with an exception; the state it leaves is
    there in both cases, since what was mutated before a raise stays. *)
Inductive outcome (S A : Type) : Type :=
  | Ok (a : A) (s : S)
  | Raise (e : exn) (s : S).
Arguments Ok {S A} a s.
Arguments Raise {S A} e s.

(** The state a call leaves. *)
Definition final {S A} (r : outcome S A) : S :=
  match r with
  | Ok _ s => s
  | Raise _ s => s
  end.

Definition M (S A : Type) : Type := S → outcome S A.

Definition ret {S A} (a : A) : M S A := λ s, Ok a s.

Definition bind {S A B} (m : M S A) (k : A → M S B) : M S B :=
  λ s, match m s with
       | Ok a s' => k a s'
       | Raise e s' => Raise e s'
       end.

Definition raise {S A} (e : exn) : M S A := λ s, Raise e s.

(** [try: m  except <catches> as e: handler e] *)
Definition try_except {S A} (m : M S A) (catches : exn → bool)
    (handler : exn → M S A) : M S A :=
  λ s, match m s with
       | Ok a s' => Ok a s'
       | Raise e s' => if catches e then handler e s' else Raise e s'
       end.

Definition gets {S A} (f : S → A) : M S A := λ s, Ok (f s) s.
Definition modify {S} (f : S → S) : M S unit := λ s, Ok tt (f s).

Notation "x <- m ;; k" := (bind m (λ x, k))
  (at level 100, m at next level, right associativity,
   format "'[v' x  <-  m  ;;  '/' k ']'").
Notation "m ;;; k" := (bind m (λ _, k))
  (at level 100, right associativity).

(** [for x in xs: ...], collecting what the body gives. *)
Fixpoint for_each {S A B} (f : A → M S B) (xs : list A) : M S (list B) :=
  match xs with
  | [] => ret []
  | x :: xs' => y <- f x ;; ys <- for_each f xs' ;; ret (y :: ys)
  end.

(** [while True: body], left only by an exception. *)
Fixpoint while_true {S} (fuel : nat) (body : M S unit) : M S unit :=
  match fuel with
  | O => raise OutOfFuel
  | S fuel' => body ;;; while_true fuel' body
  end.

(** ** Values, objects and the heap *)

(** The values a field of [Auv], [Target] or [LatLon] holds: all of them
    immutable. *)
Inductive pyval : Type :=
  | VNone
  | VFloat (f : float)
  | VStr (s : string).

(** A dict keeps its insertion order. *)
Abbreviation pydict := (list (string * pyval)).

Abbreviation loc := nat (only parsing).

Inductive obj : Type :=
  | ODict (d : pydict)
  | OList (items : list loc).

(** Objects are never freed; a new object takes the next address. *)
Abbreviation heap := (list obj).

(** ** StateStore *)

Module StateStore.

(** The dataclass [State]: three attributes holding references. *)
Record State : Type := mkState {
  auv : option loc;
  target : option loc;
  path : loc;
}.

(** The dict that [get] builds: keys auv, target, path in this order. *)
Record StateDict : Type := mkStateDict {
  sd_auv : option loc;
  sd_target : option loc;
  sd_path : loc;
}.

(** The store and the objects of the process. *)
Record Store : Type := mkStore {
  objs : heap;
  _state : State;
}.

Definition alloc (o : obj) : M Store loc :=
  λ w, Ok (length (objs w)) (mkStore (objs w ++ [o]) (_state w)).

Definition load_dict (l : loc) : M Store pydict :=
  λ w, match objs w !! l with
       | Some (ODict d) => Ok d w
       | _ => Raise TypeError w
       end.

Definition load_list (l : loc) : M Store (list loc) :=
  λ w, match objs w !! l with
       | Some (OList xs) => Ok xs w
       | _ => Raise TypeError w
       end.

Definition store_obj (l : loc) (o : obj) : M Store unit :=
  modify (λ w, mkStore (<[l := o]> (objs w)) (_state w)).

(** [dict(d)]: a new dict with the items of [d]. *)
Definition dict_copy (l : loc) : M Store loc :=
  d <- load_dict l ;; alloc (ODict d).

(** [list(xs)]: a new list with the same elements (shared, not copied). *)
Definition list_copy (l : loc) : M Store loc :=
  xs <- load_list l ;; alloc (OList xs).

(** [xs.extend(ys)]: in place. *)
Definition list_extend (l ys : loc) : M Store unit :=
  old <- load_list l ;;
  new <- load_list ys ;;
  store_obj l (OList (old ++ new)).

Definition set_state (s : State) : M Store unit :=
  modify (λ w, mkStore (objs w) s).

(** [__init__]: [State(auv=None, target=None, path=[])], in a process
    that has the objects [h] already. *)
Definition init (h : heap) : Store :=
  mkStore (h ++ [OList []]) (mkState None None (length h)).

(** [None if x is None else dict(x)] *)
Definition copy_opt (o : option loc) : M Store (option loc) :=
  match o with
  | None => ret None
  | Some l => l' <- dict_copy l ;; ret (Some l')
  end.

Definition get : M Store StateDict :=
  s <- gets _state ;;
  a <- copy_opt (auv s) ;;
  t <- copy_opt (target s) ;;
  ps <- load_list (path s) ;;
  ps' <- for_each dict_copy ps ;;
  p <- alloc (OList ps') ;;
  ret (mkStateDict a t p).

Definition set_auv (a : loc) : M Store StateDict :=
  s <- gets _state ;;
  set_state (mkState (Some a) (target s) (path s)) ;;;
  get.

Definition set_target (t : option loc) : M Store StateDict :=
  s <- gets _state ;;
  set_state (mkState (auv s) t (path s)) ;;;
  get.

Definition set_path (points : loc) (mode : string) : M Store StateDict :=
  s <- gets _state ;;
  (if String.eqb mode "append"
   then list_extend (path s) points
   else p <- list_copy points ;;
        set_state (mkState (auv s) (target s) p)) ;;;
  get.

(** A call on the store, and a run of calls one after the other; a call
    that raises leaves the state it had reached. *)
Inductive call : Type :=
  | CGet
  | CSetAuv (a : loc)
  | CSetTarget (t : option loc)
  | CSetPath (points : loc) (mode : string).

Definition exec (c : call) : M Store StateDict :=
  match c with
  | CGet => get
  | CSetAuv a => set_auv a
  | CSetTarget t => set_target t
  | CSetPath points mode => set_path points mode
  end.

Definition run_calls (cs : list call) (w : Store) : Store :=
  fold_left (λ w c, final (exec c w)) cs w.

(** *** What a reader sees: the values behind the references *)

Record StateV : Type := mkStateV {
  v_auv : option pydict;
  v_target : option pydict;
  v_path : list pydict;
}.

Definition deref_dict (h : heap) (l : loc) : option pydict :=
  match h !! l with
  | Some (ODict d) => Some d
  | _ => None
  end.

Definition deref_list (h : heap) (l : loc) : option (list loc) :=
  match h !! l with
  | Some (OList xs) => Some xs
  | _ => None
  end.

Fixpoint deref_dicts (h : heap) (ls : list loc) : option (list pydict) :=
  match ls with
  | [] => Some []
  | l :: ls' =>
      match deref_dict h l, deref_dicts h ls' with
      | Some d, Some ds => Some (d :: ds)
      | _, _ => None
      end
  end.

Definition deref_points (h : heap) (l : loc) : option (list pydict) :=
  match deref_list h l with
  | Some ls => deref_dicts h ls
  | None => None
  end.

Definition deref_opt (h : heap) (o : option loc) : option (option pydict) :=
  match o with
  | None => Some None
  | Some l => match deref_dict h l with
              | Some d => Some (Some d)
              | None => None
              end
  end.

Definition view3 (h : heap) (a t : option loc) (p : loc) : option StateV :=
  match deref_opt h a, deref_opt h t, deref_points h p with
  | Some va, Some vt, Some vp => Some (mkStateV va vt vp)
  | _, _, _ => None
  end.

(** The stored state, as values. *)
Definition view (w : Store) : option StateV :=
  view3 (objs w) (auv (_state w)) (target (_state w)) (path (_state w)).

(** A snapshot, as values. *)
Definition view_dict (h : heap) (d : StateDict) : option StateV :=
  view3 h (sd_auv d) (sd_target d) (sd_path d).

(** The objects a triple of references stands on. *)
Definition footprint3 (h : heap) (a t : option loc) (p : loc) : list loc :=
  option_list a ++ option_list t ++ p :: default [] (deref_list h p).

(** The objects a snapshot is made of, and those the stored state is
    made of. *)
Definition footprint (h : heap) (d : StateDict) : list loc :=
  footprint3 h (sd_auv d) (sd_target d) (sd_path d).

Definition state_footprint (w : Store) : list loc :=
  footprint3 (objs w) (auv (_state w)) (target (_state w)) (path (_state w)).

(** *** The store as the specification words it

    A triple of values; each setter replaces its own field by what its
    argument reads in the caller's objects [h0]. *)

Definition apply_call (h0 : heap) (c : call) (v : StateV) : option StateV :=
  match c with
  | CGet => Some v
  | CSetAuv a =>
      match deref_dict h0 a with
      | Some d => Some (mkStateV (Some d) (v_target v) (v_path v))
      | None => None
      end
  | CSetTarget t =>
      match deref_opt h0 t with
      | Some vt => Some (mkStateV (v_auv v) vt (v_path v))
      | None => None
      end
  | CSetPath points mode =>
      match deref_points h0 points with
      | Some pv =>
          Some (mkStateV (v_auv v) (v_target v)
                  (if String.eqb mode "append" then v_path v ++ pv else pv))
      | None => None
      end
  end.

Fixpoint apply_calls (h0 : heap) (cs : list call) (v : StateV)
  : option StateV :=
  match cs with
  | [] => Some v
  | c :: cs' =>
      match apply_call h0 c v with
      | Some v' => apply_calls h0 cs' v'
      | None => None
      end
  end.

End StateStore.

(** ** queue.Queue *)

Module Queue.

Record t : Type := mk {
  maxsize : Z;
  queue : list string;      (* oldest first *)
}.

Definition qsize (q : t) : nat := length (queue q).

(** [get_nowait]: the oldest item, or [Empty]. *)
Definition get_nowait (q : t) : option (string * t) :=
  match queue q with
  | [] => None
  | x :: xs => Some (x, mk (maxsize q) xs)
  end.

(** [put_nowait]: [Full] when a positive [maxsize] is reached. *)
Definition put_nowait (item : string) (q : t) : option t :=
  if ((0 <? maxsize q)%Z && (maxsize q <=? Z.of_nat (qsize q))%Z)%bool
  then None
  else Some (mk (maxsize q) (queue q ++ [item])).

End Queue.

(** ** Broker *)

Module Broker.

(** A subscription handle is the [Queue] object itself; here its address
    among the queues made so far. *)
Abbreviation handle := nat (only parsing).

Record Broker : Type := mkBroker {
  queues : list Queue.t;
  _subs : list handle;
}.

(** [__init__], in a process that has the queues [qs] already. *)
Definition init (qs : list Queue.t) : Broker := mkBroker qs [].

Definition new_queue (maxsize : Z) : M Broker handle :=
  λ b, Ok (length (queues b))
          (mkBroker (queues b ++ [Queue.mk maxsize []]) (_subs b)).

Definition get_nowait (q : handle) : M Broker string :=
  λ b, match queues b !! q with
       | None => Raise TypeError b
       | Some qu =>
           match Queue.get_nowait qu with
           | None => Raise Empty b
           | Some (x, qu') => Ok x (mkBroker (<[q := qu']> (queues b)) (_subs b))
           end
       end.

Definition put_nowait (q : handle) (item : string) : M Broker unit :=
  λ b, match queues b !! q with
       | None => Raise TypeError b
       | Some qu =>
           match Queue.put_nowait item qu with
           | None => Raise Full b
           | Some qu' => Ok tt (mkBroker (<[q := qu']> (queues b)) (_subs b))
           end
       end.

(** [q.get(timeout=15.0)] when nothing is put during the wait: the
    pending item if there is one, [Empty] once the time is over. *)
Definition get_timeout (q : handle) : M Broker string := get_nowait q.

Definition pending (b : Broker) (q : handle) : list string :=
  match queues b !! q with
  | Some qu => Queue.queue qu
  | None => []
  end.

(** The loop of [_put_latest] runs once for each queued item and once
    more to meet [Empty]. *)
Definition drain_fuel (b : Broker) (q : handle) : nat := S (length (pending b q)).

Definition _put_latest (q : handle) (item : string) : M Broker unit :=
  n <- gets (λ b, drain_fuel b q) ;;
  try_except (while_true n (get_nowait q ;;; ret tt))
             is_Empty (λ _, ret tt) ;;;
  put_nowait q item.

Definition subscribe (snapshot : string) : M Broker handle :=
  q <- new_queue 1 ;;
  modify (λ b, mkBroker (queues b) (_subs b ++ [q])) ;;;
  _put_latest q snapshot ;;;
  ret q.

(** [list.remove]: the first occurrence, [ValueError] when there is none. *)
Fixpoint list_remove (q : handle) (l : list handle) : option (list handle) :=
  match l with
  | [] => None
  | x :: l' =>
      if Nat.eqb x q then Some l'
      else match list_remove q l' with
           | Some r => Some (x :: r)
           | None => None
           end
  end.

Definition subs_remove (q : handle) : M Broker unit :=
  λ b, match list_remove q (_subs b) with
       | Some l => Ok tt (mkBroker (queues b) l)
       | None => Raise (ValueError "list.remove(x): x not in list") b
       end.

Definition unsubscribe (q : handle) : M Broker unit :=
  try_except (subs_remove q) is_ValueError (λ _, ret tt).

Definition publish_str (payload : string) : M Broker unit :=
  subs <- gets _subs ;;
  for_each (λ q, _put_latest q payload) subs ;;;
  ret tt.

(** What happens to a broker: the operations above and a subscriber's
    read.  A step that raises leaves the state it had reached. *)
Inductive op : Type :=
  | Subscribe (snapshot : string)
  | Unsubscribe (q : handle)
  | Publish (payload : string)
  | Read (q : handle).

Inductive reply : Type :=
  | Handle (q : handle)
  | Done
  | Item (s : string).

Definition step (o : op) : M Broker reply :=
  match o with
  | Subscribe s => q <- subscribe s ;; ret (Handle q)
  | Unsubscribe q => unsubscribe q ;;; ret Done
  | Publish p => publish_str p ;;; ret Done
  | Read q => x <- get_timeout q ;; ret (Item x)
  end.

Definition run (os : list op) (b : Broker) : Broker :=
  fold_left (λ b o, final (step o b)) os b.

(** Every subscribed handle is a queue that exists, and is there once. *)
Definition valid (b : Broker) : Prop :=
  Forall (λ q, q < length (queues b)) (_subs b) ∧ NoDup (_subs b).

(** What [_put_latest] leaves of a queue. *)
Definition latest (item : string) (qu : Queue.t) : Queue.t :=
  Queue.mk (Queue.maxsize qu) [item].

Definition put_all (item : string) (subs : list handle)
    (qs : list Queue.t) : list Queue.t :=
  fold_left (λ qs q, alter (latest item) q qs) subs qs.

End Broker.

(** ** The mailboxes as the specification words them

    One slot for each subscriber ever made, holding nothing or the most
    recent snapshot not yet delivered; a set of active subscribers. *)

Module Mailbox.

Import Broker.

Record t : Type := mk {
  slots : list (option string);
  active : list handle;
}.

Definition empty : t := mk [] [].

Definition step (o : op) (m : t) : t :=
  match o with
  | Subscribe s => mk (slots m ++ [Some s]) (active m ++ [length (slots m)])
  | Unsubscribe q => mk (slots m) (filter (λ x, x ≠ q) (active m))
  | Publish p =>
      mk (imap (λ i s, if bool_decide (i ∈ active m) then Some p else s)
            (slots m))
         (active m)
  | Read q => mk (<[q := None]> (slots m)) (active m)
  end.

Definition run (os : list op) (m : t) : t := fold_left (λ m o, step o m) os m.

End Mailbox.

(** ** JSON values and [json.dumps] *)

#[local] Unset Elimination Schemes.
Inductive json : Type :=
  | JNull
  | JBool (b : bool)
  | JInt (z : Z)
  | JFloat (f : float)
  | JStr (s : string)
  | JList (xs : list json)
  | JDict (kvs : list (string * json)).
#[local] Set Elimination Schemes.

(** What Python's own library does to a float or a string is taken as
    given. *)
Class PyBuiltins : Type := {
  (* the text [json.dumps] writes for a float *)
  float_repr : float → string;
  (* the text [json.dumps] writes for a string: quoted and escaped *)
  json_str : string → string;
  (* the text [json.dumps] writes for an int *)
  int_repr : Z → string;
  (* [float(s)] of a string: the float, or the message of the
     [ValueError] *)
  float_of_str : string → string + float;
  (* [float(n)] of an int: the float, or nothing for [OverflowError] *)
  float_of_int : Z → option float;
  (* [str(x)] of a value that is not a string *)
  str_other : json → string;
}.

Definition LF : string := String (Ascii.ascii_of_nat 10) EmptyString.

Fixpoint json_dumps `{PyBuiltins} (item_sep key_sep : string) (j : json)
  : string :=
  match j with
  | JNull => "null"
  | JBool true => "true"
  | JBool false => "false"
  | JInt z => int_repr z
  | JFloat f => float_repr f
  | JStr s => json_str s
  | JList xs =>
      "[" +:+ String.concat item_sep (map (json_dumps item_sep key_sep) xs)
          +:+ "]"
  | JDict kvs =>
      "{" +:+ String.concat item_sep
                (map (λ kv, match kv with
                            | (k, v) => json_str k +:+ key_sep
                                        +:+ json_dumps item_sep key_sep v
                            end) kvs)
          +:+ "}"
  end.

(** [sse_wrap]: [json.dumps(obj, separators=(',', ':'))] between
    ["data: "] and two line feeds. *)
Definition sse_wrap `{PyBuiltins} (obj : json) : string :=
  "data: " +:+ json_dumps "," ":" obj +:+ LF +:+ LF.

(** The tree [json.dumps] walks when it is handed a state dict. *)
Definition json_of_val (v : pyval) : json :=
  match v with
  | VNone => JNull
  | VFloat f => JFloat f
  | VStr s => JStr s
  end.

Definition json_of_dict (d : pydict) : json :=
  JDict (map (λ kv, (kv.1, json_of_val kv.2)) d).

Definition json_of_opt (o : option pydict) : json :=
  match o with
  | None => JNull
  | Some d => json_of_dict d
  end.

Definition json_of_state (v : StateStore.StateV) : json :=
  JDict [("auv", json_of_opt (StateStore.v_auv v));
         ("target", json_of_opt (StateStore.v_target v));
         ("path", JList (map json_of_dict (StateStore.v_path v)))].

Definition read_json (d : StateStore.StateDict) : M StateStore.Store json :=
  λ w, match StateStore.view_dict (StateStore.objs w) d with
       | Some v => Ok (json_of_state v) w
       | None => Raise TypeError w
       end.

(** ** The event frame as the specification words it

    ["data: "], the state as compact JSON with the fields auv, target and
    path, and a blank line. *)

Module Wire.

Definition val `{PyBuiltins} (v : pyval) : string :=
  match v with
  | VNone => "null"
  | VFloat f => float_repr f
  | VStr s => json_str s
  end.

Definition object `{PyBuiltins} (d : pydict) : string :=
  "{" +:+ String.concat ","
            (map (λ kv, json_str kv.1 +:+ ":" +:+ val kv.2) d)
      +:+ "}".

Definition object_or_null `{PyBuiltins} (o : option pydict) : string :=
  match o with
  | None => "null"
  | Some d => object d
  end.

Definition state `{PyBuiltins} (v : StateStore.StateV) : string :=
  "{" +:+ json_str "auv" +:+ ":" +:+ object_or_null (StateStore.v_auv v)
      +:+ ","
      +:+ json_str "target" +:+ ":" +:+ object_or_null (StateStore.v_target v)
      +:+ ","
      +:+ json_str "path" +:+ ":"
      +:+ "[" +:+ String.concat "," (map object (StateStore.v_path v)) +:+ "]"
      +:+ "}".

Definition event `{PyBuiltins} (v : StateStore.StateV) : string :=
  "data: " +:+ state v +:+ LF +:+ LF.

End Wire.

(** ** The HTTP boundary and the facade *)

Definition of_result {S A} (r : exn + A) : M S A :=
  match r with
  | inl e => raise e
  | inr a => ret a
  end.

(** [bool(x)] *)
Definition truthy (j : json) : bool :=
  match j with
  | JNull => false
  | JBool b => b
  | JInt z => negb (z =? 0)%Z
  | JFloat f => negb (PrimFloat.eqb f 0%float)
  | JStr s => negb (String.eqb s "")
  | JList xs => negb (Nat.eqb (length xs) 0)
  | JDict kvs => negb (Nat.eqb (length kvs) 0)
  end.

Fixpoint assoc {A} (k : string) (kvs : list (string * A)) : option A :=
  match kvs with
  | [] => None
  | (k', v) :: kvs' => if String.eqb k' k then Some v else assoc k kvs'
  end.

(** [d[k]] for a key that is a string *)
Definition subscript (d : json) (k : string) : exn + json :=
  match d with
  | JDict kvs => match assoc k kvs with
                 | Some v => inr v
                 | None => inl KeyError
                 end
  | _ => inl TypeError
  end.

(** [d.get(k)] *)
Definition dict_get (d : json) (k : string) : exn + json :=
  match d with
  | JDict kvs => inr (default JNull (assoc k kvs))
  | _ => inl AttributeError
  end.

(** [float(x)] *)
Definition py_float `{PyBuiltins} (x : json) : exn + float :=
  match x with
  | JBool b => inr (if b then 1%float else 0%float)
  | JInt z => match float_of_int z with
              | Some f => inr f
              | None => inl OverflowError
              end
  | JFloat f => inr f
  | JStr s => match float_of_str s with
              | inr f => inr f
              | inl msg => inl (ValueError msg)
              end
  | JNull | JList _ | JDict _ => inl TypeError
  end.

(** [float(d[k])] *)
Definition float_at `{PyBuiltins} (d : json) (k : string) : exn + float :=
  match subscript d k with
  | inl e => inl e
  | inr x => py_float x
  end.

(** [str(x)] *)
Definition py_str `{PyBuiltins} (x : json) : string :=
  match x with
  | JStr s => s
  | _ => str_other x
  end.

(** [d[k] = v] on a dict: an existing key keeps its place. *)
Fixpoint dict_set (k : string) (v : pyval) (d : pydict) : pydict :=
  match d with
  | [] => [(k, v)]
  | (k', v') :: d' =>
      if String.eqb k' k then (k', v) :: d' else (k', v') :: dict_set k v d'
  end.

(** [d.get(k, default)] *)
Definition dict_get_default (d : json) (k : string) (dflt : json)
  : exn + json :=
  match d with
  | JDict kvs => inr (default dflt (assoc k kvs))
  | _ => inl AttributeError
  end.

(** What Python's [str.strip] and [str.lower] do is taken as given. *)
Class PyStrMethods : Type := {
  str_strip : string → string;
  str_lower : string → string;
}.

Module Server.

Import StateStore Broker.

Record App : Type := mkApp {
  store : Store;
  broker : Broker;
}.

Definition in_store {A} (m : M Store A) : M App A :=
  λ a, match m (store a) with
       | Ok x s => Ok x (mkApp s (broker a))
       | Raise e s => Raise e (mkApp s (broker a))
       end.

Definition in_broker {A} (m : M Broker A) : M App A :=
  λ a, match m (broker a) with
       | Ok x b => Ok x (mkApp (store a) b)
       | Raise e b => Raise e (mkApp (store a) b)
       end.

Inductive Response : Type :=
  | Text (body : string) (status : Z)       (* [return body, status] *)
  | Jsonify (j : json) (status : Z).        (* [return jsonify(j), status] *)

Definition in_range (lat lon : float) : bool :=
  (PrimFloat.leb (-90)%float lat && PrimFloat.leb lat 90%float)
  && (PrimFloat.leb (-180)%float lon && PrimFloat.leb lon 180%float).

Definition validate_latlon `{PyBuiltins} (d : json) : M Store loc :=
  ll <- try_except
          (lat <- of_result (float_at d "lat") ;;
           lon <- of_result (float_at d "lon") ;;
           ret (lat, lon))
          is_exception
          (λ _, raise (ValueError "lat/lon required and numeric")) ;;
  if negb (in_range ll.1 ll.2)
  then raise (ValueError "lat/lon out of range")
  else alloc (ODict [("lat", VFloat ll.1); ("lon", VFloat ll.2)]).

(** [float(data[k]) if data.get(k) is not None else None] *)
Definition float_or_none `{PyBuiltins} (data : json) (k : string)
  : exn + pyval :=
  match dict_get data k with
  | inl e => inl e
  | inr JNull => inr VNone
  | inr _ => match float_at data k with
             | inl e => inl e
             | inr f => inr (VFloat f)
             end
  end.

(** [str(data.get("timestamp") or "")] *)
Definition timestamp_of `{PyBuiltins} (data : json) : exn + pyval :=
  match dict_get data "timestamp" with
  | inl e => inl e
  | inr g => inr (VStr (py_str (if truthy g then g else JStr "")))
  end.

(** [request.get_json(silent=True) or {}]; [None] is a body that is not
    JSON. *)
Definition request_data (body : option json) : json :=
  match body with
  | Some j => if truthy j then j else JDict []
  | None => JDict []
  end.

Definition publish_state `{PyBuiltins} (state : StateDict) : M App unit :=
  j <- in_store (read_json state) ;;
  in_broker (publish_str (sse_wrap j)).

(** [GET /api/state] *)
Definition api_state : M App Response :=
  d <- in_store get ;;
  j <- in_store (read_json d) ;;
  ret (Jsonify j 200).

(** [POST /api/auv] *)
Definition api_auv `{PyBuiltins} (body : option json) : M App Response :=
  let data := request_data body in
  r <- in_store
         (try_except
            (latlon <- validate_latlon data ;;
             ll <- load_dict latlon ;;
             alt <- of_result (float_or_none data "alt") ;;
             heading <- of_result (float_or_none data "heading") ;;
             timestamp <- of_result (timestamp_of data) ;;
             a <- alloc (ODict (dict_set "timestamp" timestamp
                                 (dict_set "heading" heading
                                   (dict_set "alt" alt ll)))) ;;
             ret (inl a))
            is_ValueError
            (λ e, ret (inr (Jsonify
                              (JDict [("error",
                                       JStr match e with
                                            | ValueError msg => msg
                                            | _ => ""
                                            end)])
                              400)))) ;;
  match r with
  | inr resp => ret resp
  | inl a =>
      state <- in_store (set_auv a) ;;
      publish_state state ;;;
      ret (Text "" 204)
  end.

Definition keep_alive : string := ": keep-alive" +:+ LF +:+ LF.

(** [GET /stream], up to the response: the handle it streams from. *)
Definition stream `{PyBuiltins} : M App handle :=
  d <- in_store get ;;
  j <- in_store (read_json d) ;;
  in_broker (subscribe (sse_wrap j)).

(** One turn of the loop of [event_stream]: what it yields. *)
Definition event_stream_next (q : handle) : M Broker string :=
  try_except (get_timeout q) is_Empty (λ _, ret keep_alive).

(** The [finally] of [event_stream]. *)
Definition event_stream_close (q : handle) : M Broker unit :=
  unsubscribe q.

(** *** The other write handlers *)

(** [jsonify({"error": msg}), 400] *)
Definition error_reply (msg : string) : Response :=
  Jsonify (JDict [("error", JStr msg)]) 400.

(** [str(e)] of a [ValueError] *)
Definition exn_str (e : exn) : string :=
  match e with
  | ValueError msg => msg
  | _ => ""
  end.

(** [data in ({}, None)] *)
Definition is_empty_or_none (data : json) : bool :=
  match data with
  | JDict [] => true
  | JNull => true
  | _ => false
  end.

(** [xs.append(x)]: in place. *)
Definition list_append (l x : loc) : M Store unit :=
  xs <- load_list l ;;
  store_obj l (OList (xs ++ [x])).

(** [d[k] = v]: in place. *)
Definition dict_setitem (l : loc) (k : string) (v : pyval) : M Store unit :=
  d <- load_dict l ;;
  store_obj l (ODict (dict_set k v d)).

(** The radius of [api_target]: absent, a float that is not below zero,
    or a reply that turns the request down. *)
Definition radius_of `{PyBuiltins} (r : json) : M App (option float + Response) :=
  match r with
  | JNull => ret (inl None)
  | _ =>
      try_except
        (f <- of_result (py_float r) ;;
         if PrimFloat.ltb f 0%float
         then ret (inr (error_reply "radius_m must be >= 0"))
         else ret (inl (Some f)))
        is_exception
        (λ _, ret (inr (error_reply "radius_m must be numeric")))
  end.

(** [POST /api/target] *)
Definition api_target `{PyBuiltins} (body : option json) : M App Response :=
  let data := request_data body in
  clear <- (if is_empty_or_none data then ret true
            else c <- of_result (dict_get data "clear") ;; ret (truthy c)) ;;
  if (clear : bool) then
    state <- in_store (set_target None) ;;
    publish_state state ;;;
    ret (Text "" 204)
  else
    r1 <- in_store
            (try_except
               (latlon <- validate_latlon data ;; ret (inl latlon))
               is_ValueError
               (λ e, ret (inr (error_reply (exn_str e))))) ;;
    match r1 with
    | inr resp => ret resp
    | inl latlon =>
        r <- of_result (dict_get data "radius_m") ;;
        r2 <- radius_of r ;;
        match r2 with
        | inr resp => ret resp
        | inl ro =>
            target <- in_store (dict_copy latlon) ;;
            match ro with
            | Some f => in_store (dict_setitem target "radius_m" (VFloat f))
            | None => ret tt
            end ;;;
            state <- in_store (set_target (Some target)) ;;
            publish_state state ;;;
            ret (Text "" 204)
        end
    end.

(** [mode not in {"replace", "append"}] *)
Definition bad_mode (mode : string) : bool :=
  negb (String.eqb mode "replace" || String.eqb mode "append").

(** The loop of [api_path]: each item checked and appended to [points]. *)
Definition validate_points `{PyBuiltins} (points : loc) (items : list json)
  : M Store (list unit) :=
  for_each (λ item, l <- validate_latlon item ;; list_append points l) items.

(** [POST /api/path] *)
Definition api_path `{PyBuiltins} `{PyStrMethods} (body : option json)
  : M App Response :=
  let data := request_data body in
  m <- of_result (dict_get_default data "mode" (JStr "replace")) ;;
  let mode := str_lower (str_strip (py_str m)) in
  if bad_mode mode
  then ret (error_reply "mode must be 'replace' or 'append'")
  else
    points_raw <- of_result (dict_get data "points") ;;
    match points_raw with
    | JList items =>
        points <- in_store (alloc (OList [])) ;;
        r <- in_store
               (try_except
                  (validate_points points items ;;; ret None)
                  is_ValueError
                  (λ e, ret (Some (error_reply (exn_str e))))) ;;
        match r with
        | Some resp => ret resp
        | None =>
            state <- in_store (set_path points mode) ;;
            publish_state state ;;;
            ret (Text "" 204)
        end
    | _ => ret (error_reply "points must be a list of {lat,lon}")
    end.

End Server.

Module AuvTracker.

Import StateStore Broker Server.

Definition opt_val (o : option float) : pyval :=
  match o with
  | None => VNone
  | Some f => VFloat f
  end.

(** [AuvTracker.set_auv], declared [-> None]; the arguments are floats
    already, so [float(lat)] is [lat]. *)
Definition set_auv `{PyBuiltins} (lat lon : float) (alt heading : option float)
    (timestamp : string) : M App unit :=
  a <- in_store (alloc (ODict [("lat", VFloat lat); ("lon", VFloat lon);
                              ("alt", opt_val alt);
                              ("heading", opt_val heading);
                              ("timestamp", VStr timestamp)])) ;;
  state <- in_store (StateStore.set_auv a) ;;
  publish_state state.

(** [AuvTracker.get_state] *)
Definition get_state : M App StateDict := in_store get.

(** [AuvTracker.set_target]; [radius_m] is a float or [None]. *)
Definition set_target `{PyBuiltins} (lat lon : float) (radius_m : option float)
  : M App unit :=
  target <- in_store (alloc (ODict [("lat", VFloat lat); ("lon", VFloat lon)])) ;;
  match radius_m with
  | Some r =>
      if PrimFloat.ltb r 0%float
      then raise (ValueError "radius_m must be >= 0")
      else in_store (dict_setitem target "radius_m" (VFloat r))
  | None => ret tt
  end ;;;
  state <- in_store (StateStore.set_target (Some target)) ;;
  publish_state state.

(** [AuvTracker.clear_target] *)
Definition clear_target `{PyBuiltins} : M App unit :=
  state <- in_store (StateStore.set_target None) ;;
  publish_state state.

(** A point handed to [AuvTracker.set_path]: a dict of floats, or a pair
    of floats. *)
Inductive point_arg : Type :=
  | PDict (d : list (string * float))
  | PTuple (lat lon : float).

(** [p[k]] on a dict of floats *)
Definition point_item (d : list (string * float)) (k : string) : exn + float :=
  match assoc k d with
  | Some f => inr f
  | None => inl KeyError
  end.

(** The body of the loop of [AuvTracker.set_path]. *)
Definition add_point (latlons : loc) (p : point_arg) : M Store unit :=
  match p with
  | PDict d =>
      lat <- of_result (point_item d "lat") ;;
      lon <- of_result (point_item d "lon") ;;
      l <- alloc (ODict [("lat", VFloat lat); ("lon", VFloat lon)]) ;;
      list_append latlons l
  | PTuple lat lon =>
      l <- alloc (ODict [("lat", VFloat lat); ("lon", VFloat lon)]) ;;
      list_append latlons l
  end.

(** [AuvTracker.set_path] *)
Definition set_path `{PyBuiltins} (points : list point_arg) (mode : string)
  : M App unit :=
  if bad_mode mode
  then raise (ValueError "mode must be 'replace' or 'append'")
  else
    latlons <- in_store (alloc (OList [])) ;;
    in_store (for_each (add_point latlons) points) ;;;
    state <- in_store (StateStore.set_path latlons mode) ;;
    publish_state state.

End AuvTracker.

(** ** Inputs for the examples *)

Definition DQ : string := String (Ascii.ascii_of_nat 34) EmptyString.

(** Builtins to run the examples with.  They write a plain string as
    Python does, between quotes; what they write for a number is a mark
    and not its digits, and they read no number from a string: no example
    rests on either. *)
Definition plain_builtins : PyBuiltins := {|
  float_repr := λ _, "<float>";
  json_str := λ s, DQ +:+ s +:+ DQ;
  int_repr := λ _, "<int>";
  float_of_str := λ _, inl "could not convert string to float";
  float_of_int := λ _, None;
  str_other := λ _, "";
|}.

(** [str.strip] and [str.lower], for the examples.  A string is read one
    character per code, the codes 0 to 255 being the first 256 code
    points: the blanks that [strip] takes off are then the codes 9 to 13,
    28 to 32, 133 and 160, and the letters that [lower] changes are 65 to
    90 and 192 to 222 without 215, each moved up by 32.  Characters
    beyond code 255 have no string here. *)
Definition is_py_space (c : Ascii.ascii) : bool :=
  let n := Ascii.nat_of_ascii c in
  (Nat.leb 9 n && Nat.leb n 13) || (Nat.leb 28 n && Nat.leb n 32)
  || Nat.eqb n 133 || Nat.eqb n 160.

Definition lower_latin1 (c : Ascii.ascii) : Ascii.ascii :=
  let n := Ascii.nat_of_ascii c in
  if (Nat.leb 65 n && Nat.leb n 90)
     || (Nat.leb 192 n && Nat.leb n 222 && negb (Nat.eqb n 215))
  then Ascii.ascii_of_nat (n + 32) else c.

Fixpoint lstrip (s : string) : string :=
  match s with
  | String c s' => if is_py_space c then lstrip s' else s
  | EmptyString => EmptyString
  end.

Fixpoint map_string (f : Ascii.ascii → Ascii.ascii) (s : string) : string :=
  match s with
  | String c s' => String (f c) (map_string f s')
  | EmptyString => EmptyString
  end.

Definition latin1_str_methods : PyStrMethods := {|
  str_strip := λ s, String.rev (lstrip (String.rev (lstrip s)));
  str_lower := map_string lower_latin1;
|}.

Section example_inputs.

Import StateStore Broker Server.

(** A store with one waypoint, among objects a caller has made: a
    position dict at 1, a list of two points at 4, an empty list at 6. *)
Definition demo_objs : heap :=
  [ODict [("lat", VFloat 32.5); ("lon", VFloat 34.75)];
   ODict [("lat", VFloat 32.125); ("lon", VFloat 34.5); ("alt", VNone);
          ("heading", VFloat 90); ("timestamp", VStr "t0")];
   ODict [("lat", VFloat 1); ("lon", VFloat 2)];
   ODict [("lat", VFloat 3); ("lon", VFloat 4)];
   OList [2; 3];
   OList [0];
   OList []].

Definition demo_store : Store := mkStore demo_objs (mkState None None 5).

Definition demo_view : StateV :=
  mkStateV None None [[("lat", VFloat 32.5); ("lon", VFloat 34.75)]].

Definition demo_points : list pydict :=
  [[("lat", VFloat 1); ("lon", VFloat 2)];
   [("lat", VFloat 3); ("lon", VFloat 4)]].

(** Two subscribers; the first has not read what it was sent. *)
Definition demo_broker : Broker :=
  mkBroker [Queue.mk 1 ["old"]; Queue.mk 1 []] [0; 1].

Definition demo_app : Server.App := Server.mkApp demo_store demo_broker.

Definition demo_body : option json :=
  Some (JDict [("lat", JFloat 32.5); ("lon", JFloat 34.75)]).

(** Bodies for [POST /api/target] and [POST /api/path]. *)
Definition demo_target_body (radius : float) : option json :=
  Some (JDict [("lat", JFloat 32.5); ("lon", JFloat 34.75);
               ("radius_m", JFloat radius)]).

Definition demo_points_body (mode : string) (lat2 : float) : option json :=
  Some (JDict [("mode", JStr mode);
               ("points",
                JList [JDict [("lat", JFloat 1); ("lon", JFloat 2)];
                       JDict [("lat", JFloat lat2); ("lon", JFloat 4)]])]).

End example_inputs.

(** ** Predicates of the statements *)

Section predicates.

Import StateStore Broker Server.

(** The dict [api_auv] and the facade hand to the store. *)
Definition auv_dict (lat lon : float) (alt heading timestamp : pyval) : pydict :=
  [("lat", VFloat lat); ("lon", VFloat lon); ("alt", alt);
   ("heading", heading); ("timestamp", timestamp)].

(** What the claim asks of a reply: that it carries the new state. *)
Definition returns_snapshot (r : outcome App Response) : Prop :=
  ∃ status a' v',
    r = Ok (Jsonify (json_of_state v') status) a' ∧
    view (store a') = Some v'.

(** The value a writing method of the facade hands to its caller: it is
    declared [-> None] and ends without a [return]. *)
Definition handed (u : unit) : option StateDict := None.

(** What the claim asks of the facade: that the value handed back is a
    snapshot of the new state. *)
Definition hands_snapshot (r : outcome App (option StateDict)) : Prop :=
  ∃ d a' v',
    r = Ok (Some d) a' ∧
    view_dict (objs (store a')) d = Some v' ∧
    view (store a') = Some v'.

(** A computation that only makes new objects. *)
Definition grows {A} (m : M Store A) : Prop :=
  ∀ w, ∃ ext, final (m w) = mkStore (objs w ++ ext) (_state w).

(** What a call may do to the objects that were there: nothing, except to
    the stored path list; and the path attribute is kept or set to a list
    made by the call. *)
Definition evolves (w w2 : Store) : Prop :=
  length (objs w) ≤ length (objs w2) ∧
  (∀ l, l < length (objs w) → l ≠ path (_state w) →
        objs w2 !! l = objs w !! l) ∧
  (path (_state w2) = path (_state w) ∨ length (objs w) ≤ path (_state w2)).

(** The objects [F], as they are in [h0], are out of a store's reach. *)
Definition apart (F : list loc) (h0 : heap) (w : Store) : Prop :=
  Forall (λ l, l < length (objs w) ∧ objs w !! l = h0 !! l ∧
               l ≠ path (_state w)) F.

(** The caller's objects [h0] are still there, as they were, and the
    stored path list is not one of them. *)
Definition tracks (h0 : heap) (w : Store) : Prop :=
  length h0 ≤ path (_state w) ∧
  ∀ l, l < length h0 → objs w !! l = h0 !! l.

(** The queues hold what the slots hold, and the same handles are
    subscribed. *)
Definition refines (b : Broker) (m : Mailbox.t) : Prop :=
  Queue.queue <$> queues b = option_list <$> Mailbox.slots m ∧
  _subs b = Mailbox.active m.

Definition at_most_one (b : Broker) : Prop :=
  Forall (λ qu, length (Queue.queue qu) ≤ 1) (queues b).

(** A broker after a publish of [item]. *)
Definition published (item : string) (b : Broker) : Broker :=
  mkBroker (put_all item (_subs b) (queues b)) (_subs b).

(** Every subscribed handle is a queue that exists. *)
Definition handles_exist (b : Broker) : Prop :=
  Forall (λ q, q < length (queues b)) (_subs b).

(** The dict [validate_latlon] makes. *)
Definition latlon_dict (lat lon : float) : pydict :=
  [("lat", VFloat lat); ("lon", VFloat lon)].

(** The dict [api_target] and the facade hand to the store. *)
Definition target_dict (lat lon : float) (radius_m : option float) : pydict :=
  latlon_dict lat lon ++
  match radius_m with
  | Some r => [("radius_m", VFloat r)]
  | None => []
  end.

(** What [validate_latlon] makes of an item when it lets it through. *)
Definition parse_point `{PyBuiltins} (item : json) : option (float * float) :=
  match float_at item "lat", float_at item "lon" with
  | inr lat, inr lon => if in_range lat lon then Some (lat, lon) else None
  | _, _ => None
  end.

Fixpoint parse_points `{PyBuiltins} (items : list json)
  : option (list (float * float)) :=
  match items with
  | [] => Some []
  | item :: items' =>
      match parse_point item, parse_points items' with
      | Some ll, Some lls => Some (ll :: lls)
      | _, _ => None
      end
  end.

Definition latlon_dicts (lls : list (float * float)) : list pydict :=
  map (λ ll, latlon_dict ll.1 ll.2) lls.

(** The objects of the loop of [api_path] after some items: the dicts made
    so far, and the list [points] holding them. *)
Definition loop_heap (h : heap) (points : loc) (xs : list loc)
    (lls : list (float * float)) : heap :=
  <[points := OList (xs ++ seq (length h) (length lls))]>
    (h ++ map ODict (latlon_dicts lls)).

(** What [AuvTracker.set_path] reads of a point: the two numbers, when a
    dict has both keys. *)
Definition point_latlon (p : AuvTracker.point_arg) : option (float * float) :=
  match p with
  | AuvTracker.PDict d =>
      match assoc "lat" d, assoc "lon" d with
      | Some lat, Some lon => Some (lat, lon)
      | _, _ => None
      end
  | AuvTracker.PTuple lat lon => Some (lat, lon)
  end.

Fixpoint points_latlons (ps : list AuvTracker.point_arg)
  : option (list (float * float)) :=
  match ps with
  | [] => Some []
  | p :: ps' =>
      match point_latlon p, points_latlons ps' with
      | Some ll, Some lls => Some (ll :: lls)
      | _, _ => None
      end
  end.

End predicates.

(** * Properties *)

(** ** The monad *)

Lemma bind_Ok {S A B} (m : M S A) (k : A → M S B) s a s' :
  m s = Ok a s' → bind m k s = k a s'.
Proof. intros E. unfold bind. by rewrite E. Qed.

(** ** The heap: what a reference stands for *)

Section heap_facts.

Import StateStore.

Implicit Types (h ext : heap) (l : loc) (ls : list loc).

Lemma deref_dict_lt h l d : deref_dict h l = Some d → l < length h.
Proof.
  unfold deref_dict. destruct (h !! l) eqn:E; [|done].
  intros _. by eapply lookup_lt_Some.
Qed.

Lemma deref_list_lt h l xs : deref_list h l = Some xs → l < length h.
Proof.
  unfold deref_list. destruct (h !! l) eqn:E; [|done].
  intros _. by eapply lookup_lt_Some.
Qed.

Lemma deref_dict_agree h h' l :
  h' !! l = h !! l → deref_dict h' l = deref_dict h l.
Proof. unfold deref_dict. by intros ->. Qed.

Lemma deref_list_agree h h' l :
  h' !! l = h !! l → deref_list h' l = deref_list h l.
Proof. unfold deref_list. by intros ->. Qed.

Lemma deref_dicts_agree h h' ls :
  Forall (λ l, h' !! l = h !! l) ls → deref_dicts h' ls = deref_dicts h ls.
Proof.
  induction 1 as [|l ls Hl _ IH]; simpl; [done|].
  by rewrite (deref_dict_agree _ _ _ Hl), IH.
Qed.

Lemma deref_dicts_lt h ls ds :
  deref_dicts h ls = Some ds → Forall (λ l, l < length h) ls.
Proof.
  revert ds. induction ls as [|l ls IH]; intros ds; simpl; [by constructor|].
  destruct (deref_dict h l) eqn:E; [|done].
  destruct (deref_dicts h ls) eqn:E'; [|done].
  intros _. constructor; [by eapply deref_dict_lt | by eapply IH].
Qed.

Lemma deref_dicts_app h ls1 ls2 ds1 ds2 :
  deref_dicts h ls1 = Some ds1 → deref_dicts h ls2 = Some ds2 →
  deref_dicts h (ls1 ++ ls2) = Some (ds1 ++ ds2).
Proof.
  revert ds1. induction ls1 as [|l ls1 IH]; intros ds1; simpl.
  - by intros [= <-].
  - destruct (deref_dict h l); [|done].
    destruct (deref_dicts h ls1); [|done].
    intros [= <-] H2. by rewrite (IH _ eq_refl H2).
Qed.

(** A dict is never changed by writing a list where a list was. *)
Lemma deref_dict_insert_list h l l' xs xs' :
  h !! l = Some (OList xs) →
  deref_dict (<[l := OList xs']> h) l' = deref_dict h l'.
Proof.
  intros Hl. unfold deref_dict.
  destruct (decide (l = l')) as [<-|Hne].
  - rewrite list_lookup_insert_eq by (by eapply lookup_lt_Some).
    by rewrite Hl.
  - by rewrite list_lookup_insert_ne.
Qed.

Lemma deref_dicts_insert_list h l ls xs xs' :
  h !! l = Some (OList xs) →
  deref_dicts (<[l := OList xs']> h) ls = deref_dicts h ls.
Proof.
  intros Hl. induction ls as [|l' ls IH]; simpl; [done|].
  by rewrite (deref_dict_insert_list _ _ _ _ _ Hl), IH.
Qed.

Lemma deref_opt_insert_list h l o xs xs' :
  h !! l = Some (OList xs) →
  deref_opt (<[l := OList xs']> h) o = deref_opt h o.
Proof.
  intros Hl. destruct o as [l'|]; simpl; [|done].
  by rewrite (deref_dict_insert_list _ _ _ _ _ Hl).
Qed.

Lemma deref_opt_agree h h' o :
  Forall (λ l, h' !! l = h !! l) (option_list o) →
  deref_opt h' o = deref_opt h o.
Proof.
  destruct o as [l|]; simpl; [|done].
  intros Hl%Forall_cons_1. by rewrite (deref_dict_agree _ _ _ (proj1 Hl)).
Qed.

Lemma deref_points_agree h h' p :
  Forall (λ l, h' !! l = h !! l) (p :: default [] (deref_list h p)) →
  deref_points h' p = deref_points h p.
Proof.
  intros [Hp Hls]%Forall_cons_1. unfold deref_points.
  rewrite (deref_list_agree _ _ _ Hp).
  destruct (deref_list h p); [|done]. by apply deref_dicts_agree.
Qed.

Lemma view3_agree h h' a t p :
  Forall (λ l, h' !! l = h !! l) (footprint3 h a t p) →
  view3 h' a t p = view3 h a t p.
Proof.
  unfold footprint3. intros [Ha [Ht Hp]%Forall_app]%Forall_app.
  unfold view3.
  by rewrite (deref_opt_agree _ _ _ Ha), (deref_opt_agree _ _ _ Ht),
    (deref_points_agree _ _ _ Hp).
Qed.

Lemma deref_opt_lt h o vo :
  deref_opt h o = Some vo → Forall (λ l, l < length h) (option_list o).
Proof.
  destruct o as [l|]; simpl; [|by constructor].
  destruct (deref_dict h l) eqn:E; [|done].
  intros _. repeat constructor. by eapply deref_dict_lt.
Qed.

Lemma view3_lt h a t p v :
  view3 h a t p = Some v → Forall (λ l, l < length h) (footprint3 h a t p).
Proof.
  unfold view3, footprint3.
  destruct (deref_opt h a) eqn:Ea; [|done].
  destruct (deref_opt h t) eqn:Et; [|done].
  unfold deref_points. destruct (deref_list h p) eqn:Ep; [|done]. simpl.
  destruct (deref_dicts h l) eqn:Eds; [|done]. intros _.
  rewrite !Forall_app. split_and!; [by eapply deref_opt_lt..|].
  constructor; [by eapply deref_list_lt | by eapply deref_dicts_lt].
Qed.

Lemma view3_app h ext a t p v :
  view3 h a t p = Some v → view3 (h ++ ext) a t p = Some v.
Proof.
  intros Hv. rewrite <- Hv. apply view3_agree.
  eapply Forall_impl; [by eapply view3_lt|].
  intros l Hl. simpl in Hl. by apply lookup_app_l.
Qed.

End heap_facts.

(** ** StateStore: what each operation does *)

Section store_facts.

Import StateStore.

Implicit Types (h ext : heap) (l : loc) (ls : list loc) (w : Store).

Lemma deref_list_app h ext l xs :
  deref_list h l = Some xs → deref_list (h ++ ext) l = Some xs.
Proof.
  intros H. rewrite <- H. apply deref_list_agree, lookup_app_l.
  by eapply deref_list_lt.
Qed.

Lemma deref_dicts_app_heap h ext ls ds :
  deref_dicts h ls = Some ds → deref_dicts (h ++ ext) ls = Some ds.
Proof.
  intros H. rewrite <- H. apply deref_dicts_agree.
  eapply Forall_impl; [by eapply deref_dicts_lt|].
  intros l Hl. by apply lookup_app_l.
Qed.

Lemma deref_opt_app h ext o vo :
  deref_opt h o = Some vo → deref_opt (h ++ ext) o = Some vo.
Proof.
  intros H. rewrite <- H. apply deref_opt_agree.
  eapply Forall_impl; [by eapply deref_opt_lt|].
  intros l Hl. by apply lookup_app_l.
Qed.

Lemma load_dict_ok w l d :
  deref_dict (objs w) l = Some d → load_dict l w = Ok d w.
Proof.
  unfold deref_dict, load_dict.
  destruct (objs w !! l) as [[]|]; by intros [= ->].
Qed.

Lemma load_list_ok w l xs :
  deref_list (objs w) l = Some xs → load_list l w = Ok xs w.
Proof.
  unfold deref_list, load_list.
  destruct (objs w !! l) as [[]|]; by intros [= ->].
Qed.

Lemma dict_copy_ok w l d :
  deref_dict (objs w) l = Some d →
  dict_copy l w = Ok (length (objs w)) (mkStore (objs w ++ [ODict d]) (_state w)).
Proof.
  intros H. unfold dict_copy. by rewrite (bind_Ok _ _ _ _ _ (load_dict_ok _ _ _ H)).
Qed.

Lemma deref_dict_new h d : deref_dict (h ++ [ODict d]) (length h) = Some d.
Proof. unfold deref_dict. by rewrite list_lookup_middle. Qed.

Lemma copy_opt_ok w o vo :
  deref_opt (objs w) o = Some vo →
  ∃ o' ext,
    copy_opt o w = Ok o' (mkStore (objs w ++ ext) (_state w)) ∧
    deref_opt (objs w ++ ext) o' = Some vo ∧
    Forall (λ l, length (objs w) ≤ l) (option_list o').
Proof.
  destruct o as [l|]; simpl.
  - destruct (deref_dict (objs w) l) as [d|] eqn:E; [|done]. intros [= <-].
    exists (Some (length (objs w))), [ODict d]. split_and!.
    + by rewrite (bind_Ok _ _ _ _ _ (dict_copy_ok _ _ _ E)).
    + simpl. by rewrite deref_dict_new.
    + by repeat constructor.
  - intros [= <-]. exists None, []. rewrite app_nil_r.
    split_and!; [by destruct w | done | constructor].
Qed.

Lemma for_each_copy_ok ls : ∀ w ds,
  deref_dicts (objs w) ls = Some ds →
  ∃ ls',
    for_each dict_copy ls w
      = Ok ls' (mkStore (objs w ++ map ODict ds) (_state w)) ∧
    deref_dicts (objs w ++ map ODict ds) ls' = Some ds ∧
    Forall (λ l, length (objs w) ≤ l) ls'.
Proof.
  induction ls as [|l ls IH]; intros w ds; simpl.
  - intros [= <-]. exists []. simpl. rewrite app_nil_r.
    split_and!; [by destruct w | done | constructor].
  - destruct (deref_dict (objs w) l) as [d|] eqn:E; [|done].
    destruct (deref_dicts (objs w) ls) as [ds'|] eqn:E'; [|done].
    intros [= <-].
    rewrite (bind_Ok _ _ _ _ _ (dict_copy_ok _ _ _ E)).
    destruct (IH (mkStore (objs w ++ [ODict d]) (_state w)) ds')
      as (ls' & Hrun & Hds & Hfresh);
      [by apply deref_dicts_app_heap|].
    simpl in *. rewrite <- app_assoc in Hrun, Hds. simpl in Hrun, Hds.
    exists (length (objs w) :: ls'). split_and!.
    + by rewrite (bind_Ok _ _ _ _ _ Hrun).
    + simpl. rewrite Hds. unfold deref_dict.
      by rewrite list_lookup_middle.
    + constructor; [done|].
      eapply Forall_impl; [exact Hfresh|].
      intros x Hx. simpl in Hx. rewrite length_app in Hx. simpl in Hx. lia.
Qed.

Lemma get_ok w v :
  view w = Some v →
  ∃ d ext,
    get w = Ok d (mkStore (objs w ++ ext) (_state w)) ∧
    view_dict (objs w ++ ext) d = Some v ∧
    Forall (λ l, length (objs w) ≤ l) (footprint (objs w ++ ext) d).
Proof.
  destruct w as [h [a t p]]. unfold view, view3. simpl.
  destruct (deref_opt h a) as [va|] eqn:Ea; [|done].
  destruct (deref_opt h t) as [vt|] eqn:Et; [|done].
  unfold deref_points.
  destruct (deref_list h p) as [ps|] eqn:Ep; [|done]. simpl.
  destruct (deref_dicts h ps) as [ds|] eqn:Eds; [|done]. intros [= <-].
  destruct (copy_opt_ok (mkStore h (mkState a t p)) a va Ea)
    as (a' & e1 & Ha & Hva & Hfa). simpl in *.
  destruct (copy_opt_ok (mkStore (h ++ e1) (mkState a t p)) t vt)
    as (t' & e2 & Ht & Hvt & Hft); [by apply deref_opt_app|]. simpl in *.
  destruct (for_each_copy_ok ps (mkStore ((h ++ e1) ++ e2) (mkState a t p)) ds)
    as (ps' & Hps & Hds & Hfp).
  { simpl. rewrite <- app_assoc. by apply deref_dicts_app_heap. }
  simpl in *.
  set (h3 := ((h ++ e1) ++ e2) ++ map ODict ds) in *.
  exists (mkStateDict a' t' (length h3)),
    (e1 ++ e2 ++ map ODict ds ++ [OList ps']).
  assert (h ++ e1 ++ e2 ++ map ODict ds ++ [OList ps'] = h3 ++ [OList ps'])
    as Hh by (unfold h3; by rewrite <- !app_assoc).
  rewrite Hh. split_and!.
  - unfold get.
    rewrite (bind_Ok (gets _state) _ _ _ _ eq_refl). cbn [auv target path].
    rewrite (bind_Ok _ _ _ _ _ Ha), (bind_Ok _ _ _ _ _ Ht).
    rewrite (bind_Ok (load_list p) _ _ ps _
               (load_list_ok (mkStore ((h ++ e1) ++ e2) (mkState a t p)) p ps
                  ltac:(simpl; rewrite <- app_assoc; by apply deref_list_app))).
    by rewrite (bind_Ok _ _ _ _ _ Hps).
  - unfold view_dict, view3. simpl.
    replace (h3 ++ [OList ps']) with ((h ++ e1) ++ (e2 ++ map ODict ds ++ [OList ps']))
      by (unfold h3; by rewrite <- !app_assoc).
    rewrite (deref_opt_app _ _ _ _ Hva).
    replace ((h ++ e1) ++ (e2 ++ map ODict ds ++ [OList ps']))
      with (((h ++ e1) ++ e2) ++ (map ODict ds ++ [OList ps']))
      by (by rewrite <- !app_assoc).
    rewrite (deref_opt_app _ _ _ _ Hvt).
    replace (((h ++ e1) ++ e2) ++ (map ODict ds ++ [OList ps']))
      with (h3 ++ [OList ps']) by (unfold h3; by rewrite <- !app_assoc).
    unfold deref_points, deref_list. rewrite list_lookup_middle by done.
    by rewrite (deref_dicts_app_heap _ _ _ _ Hds).
  - unfold footprint, footprint3. simpl.
    unfold deref_list. rewrite list_lookup_middle by done. simpl.
    rewrite !Forall_app. split_and!.
    + done.
    + eapply Forall_impl; [exact Hft|]. intros x Hx. simpl in Hx.
      rewrite length_app in Hx. lia.
    + constructor.
      * unfold h3. rewrite !length_app. lia.
      * eapply Forall_impl; [exact Hfp|]. intros x Hx. simpl in Hx.
        rewrite !length_app in Hx. lia.
Qed.

End store_facts.

Section setter_facts.

Import StateStore.

Implicit Types (h ext : heap) (l : loc) (ls : list loc) (w : Store) (v : StateV).

(** After a setter has changed the state, [get] copies it out. *)
Lemma then_get_ok {A} (m : M Store A) w x w1 v1 :
  m w = Ok x w1 → view w1 = Some v1 →
  ∃ d ext,
    (m ;;; get) w = Ok d (mkStore (objs w1 ++ ext) (_state w1)) ∧
    view (mkStore (objs w1 ++ ext) (_state w1)) = Some v1 ∧
    view_dict (objs w1 ++ ext) d = Some v1 ∧
    Forall (λ l, length (objs w1) ≤ l) (footprint (objs w1 ++ ext) d).
Proof.
  intros Hm Hv. destruct (get_ok w1 v1 Hv) as (d & ext & Hg & Hd & Hf).
  exists d, ext. split_and!; [|by apply view3_app|done..].
  by rewrite (bind_Ok _ _ _ _ _ Hm).
Qed.

Lemma view_inv w v :
  view w = Some v →
  deref_opt (objs w) (auv (_state w)) = Some (v_auv v) ∧
  deref_opt (objs w) (target (_state w)) = Some (v_target v) ∧
  deref_points (objs w) (path (_state w)) = Some (v_path v).
Proof.
  unfold view, view3.
  destruct (deref_opt _ (auv _)); [|done].
  destruct (deref_opt _ (target _)); [|done].
  destruct (deref_points _ _); [|done].
  by intros [= <-].
Qed.

Lemma view_intro h a t p va vt vp :
  deref_opt h a = Some va → deref_opt h t = Some vt →
  deref_points h p = Some vp →
  view (mkStore h (mkState a t p)) = Some (mkStateV va vt vp).
Proof. intros Ha Ht Hp. unfold view, view3. simpl. by rewrite Ha, Ht, Hp. Qed.

Lemma set_auv_ok w v a da :
  view w = Some v → deref_dict (objs w) a = Some da →
  ∃ d ext,
    let w' := mkStore (objs w ++ ext)
                (mkState (Some a) (target (_state w)) (path (_state w))) in
    set_auv a w = Ok d w' ∧
    view w' = Some (mkStateV (Some da) (v_target v) (v_path v)) ∧
    view_dict (objs w') d = view w' ∧
    Forall (λ l, length (objs w) ≤ l) (footprint (objs w') d).
Proof.
  intros (Ha & Ht & Hp)%view_inv Hda. unfold set_auv.
  rewrite (bind_Ok (gets _state) _ _ _ _ eq_refl).
  edestruct (then_get_ok
    (set_state (mkState (Some a) (target (_state w)) (path (_state w)))) w)
    as (d & ext & Hrun & Hv & Hd & Hf); [reflexivity| |].
  { apply view_intro; [|done..]. simpl. by rewrite Hda. }
  exists d, ext. simpl in *. by rewrite Hrun, Hv, Hd.
Qed.

Lemma set_target_ok w v t vt :
  view w = Some v → deref_opt (objs w) t = Some vt →
  ∃ d ext,
    let w' := mkStore (objs w ++ ext)
                (mkState (auv (_state w)) t (path (_state w))) in
    set_target t w = Ok d w' ∧
    view w' = Some (mkStateV (v_auv v) vt (v_path v)) ∧
    view_dict (objs w') d = view w' ∧
    Forall (λ l, length (objs w) ≤ l) (footprint (objs w') d).
Proof.
  intros (Ha & Ht & Hp)%view_inv Hvt. unfold set_target.
  rewrite (bind_Ok (gets _state) _ _ _ _ eq_refl).
  edestruct (then_get_ok
    (set_state (mkState (auv (_state w)) t (path (_state w)))) w)
    as (d & ext & Hrun & Hv & Hd & Hf); [reflexivity| |].
  { by apply view_intro. }
  exists d, ext. simpl in *. by rewrite Hrun, Hv, Hd.
Qed.

Lemma deref_points_inv h p pv :
  deref_points h p = Some pv →
  ∃ ls, deref_list h p = Some ls ∧ deref_dicts h ls = Some pv.
Proof.
  unfold deref_points. destruct (deref_list h p) as [ls|]; [|done]. eauto.
Qed.

Lemma deref_list_lookup h l xs :
  deref_list h l = Some xs → h !! l = Some (OList xs).
Proof. unfold deref_list. destruct (h !! l) as [[]|]; by intros [= ->]. Qed.

(** [append]: the stored list itself grows, by the references of [points]. *)
Lemma set_path_append_ok w v pts pv :
  view w = Some v → deref_points (objs w) pts = Some pv →
  ∃ d ext P ptl,
    let w' := mkStore (<[path (_state w) := OList (P ++ ptl)]> (objs w) ++ ext)
                (_state w) in
    deref_list (objs w) (path (_state w)) = Some P ∧
    deref_list (objs w) pts = Some ptl ∧
    set_path pts "append" w = Ok d w' ∧
    view w' = Some (mkStateV (v_auv v) (v_target v) (v_path v ++ pv)) ∧
    view_dict (objs w') d = view w' ∧
    Forall (λ l, length (objs w) ≤ l) (footprint (objs w') d).
Proof.
  intros (Ha & Ht & (P & HP & HPv)%deref_points_inv)%view_inv
         (ptl & Hptl & Hpv)%deref_points_inv.
  pose proof (deref_list_lookup _ _ _ HP) as HP'.
  unfold set_path. rewrite (bind_Ok (gets _state) _ _ _ _ eq_refl).
  change (String.eqb "append" "append") with true. cbv iota.
  set (h1 := <[path (_state w) := OList (P ++ ptl)]> (objs w)).
  assert (list_extend (path (_state w)) pts w = Ok tt (mkStore h1 (_state w)))
    as Hext.
  { unfold list_extend.
    rewrite (bind_Ok _ _ _ _ _ (load_list_ok _ _ _ HP)).
    by rewrite (bind_Ok _ _ _ _ _ (load_list_ok _ _ _ Hptl)). }
  edestruct (then_get_ok (list_extend (path (_state w)) pts) w)
    as (d & ext & Hrun & Hv & Hd & Hf); [exact Hext| |].
  { destruct w as [h [a t p]]; simpl in *. apply view_intro.
    - unfold h1. by rewrite (deref_opt_insert_list _ _ _ _ _ HP').
    - unfold h1. by rewrite (deref_opt_insert_list _ _ _ _ _ HP').
    - unfold deref_points, deref_list, h1.
      rewrite list_lookup_insert_eq by (by eapply lookup_lt_Some).
      rewrite (deref_dicts_insert_list _ _ _ _ _ HP').
      by apply deref_dicts_app. }
  subst h1. exists d, ext, P, ptl. simpl in *. rewrite Hrun, Hv, Hd.
  split_and!; try done.
  by rewrite length_insert in Hf.
Qed.

(** Any other mode: a new list with the references of [points]. *)
Lemma set_path_other_ok w v pts pv mode :
  mode ≠ "append" →
  view w = Some v → deref_points (objs w) pts = Some pv →
  ∃ d ext ptl,
    let w' := mkStore ((objs w ++ [OList ptl]) ++ ext)
                (mkState (auv (_state w)) (target (_state w))
                   (length (objs w))) in
    deref_list (objs w) pts = Some ptl ∧
    set_path pts mode w = Ok d w' ∧
    view w' = Some (mkStateV (v_auv v) (v_target v) pv) ∧
    view_dict (objs w') d = view w' ∧
    Forall (λ l, length (objs w) ≤ l) (footprint (objs w') d).
Proof.
  intros Hmode (Ha & Ht & _)%view_inv (ptl & Hptl & Hpv)%deref_points_inv.
  unfold set_path. rewrite (bind_Ok (gets _state) _ _ _ _ eq_refl).
  apply String.eqb_neq in Hmode. rewrite Hmode.
  set (s1 := mkState (auv (_state w)) (target (_state w)) (length (objs w))).
  edestruct (then_get_ok
    (p <- list_copy pts ;; set_state (mkState (auv (_state w)) (target (_state w)) p))
    w tt (mkStore (objs w ++ [OList ptl]) s1))
    as (d & ext & Hrun & Hv & Hd & Hf).
  { unfold list_copy, bind. by rewrite (load_list_ok _ _ _ Hptl). }
  { apply view_intro; [by apply deref_opt_app..|].
    unfold deref_points, deref_list. rewrite list_lookup_middle by done.
    by apply deref_dicts_app_heap. }
  exists d, ext, ptl. simpl in *. rewrite Hrun, Hv, Hd.
  split_and!; try done.
  eapply Forall_impl; [exact Hf|]. intros x Hx. simpl in Hx.
  rewrite length_app in Hx. lia.
Qed.

End setter_facts.

(** ** A run of calls, against the triple of the specification *)

Section store_runs.

Import StateStore.

Implicit Types (w : Store) (v : StateV).

Lemma tracks_dict h0 w l d :
  tracks h0 w → deref_dict h0 l = Some d → deref_dict (objs w) l = Some d.
Proof.
  intros [_ Hsame] Hd. rewrite <- Hd.
  apply deref_dict_agree, Hsame. by eapply deref_dict_lt.
Qed.

Lemma tracks_opt h0 w o vo :
  tracks h0 w → deref_opt h0 o = Some vo → deref_opt (objs w) o = Some vo.
Proof.
  intros [_ Hsame] Ho. rewrite <- Ho. apply deref_opt_agree.
  eapply Forall_impl; [by eapply deref_opt_lt|]. intros l Hl. by apply Hsame.
Qed.

Lemma tracks_points h0 w p pv :
  tracks h0 w → deref_points h0 p = Some pv →
  deref_points (objs w) p = Some pv.
Proof.
  intros [_ Hsame] Hp. rewrite <- Hp. apply deref_points_agree.
  apply deref_points_inv in Hp as (ls & Hls & Hds). rewrite Hls. simpl.
  constructor.
  - apply Hsame. by eapply deref_list_lt.
  - eapply Forall_impl; [by eapply deref_dicts_lt|]. intros l Hl.
    by apply Hsame.
Qed.

Lemma tracks_grown h0 h ext a t a' t' p :
  p < length h →
  tracks h0 (mkStore h (mkState a t p)) →
  tracks h0 (mkStore (h ++ ext) (mkState a' t' p)).
Proof.
  intros Hp [Hpath Hsame]. simpl in *. split; simpl; [done|].
  intros l Hl. rewrite lookup_app_l by lia. by apply Hsame.
Qed.

Lemma view_path_lt w v : view w = Some v → path (_state w) < length (objs w).
Proof.
  intros (_ & _ & (ls & Hls & _)%deref_points_inv)%view_inv.
  by eapply deref_list_lt.
Qed.

Lemma exec_tracks h0 w v c v1 :
  tracks h0 w → view w = Some v → apply_call h0 c v = Some v1 →
  ∃ d w1, exec c w = Ok d w1 ∧ tracks h0 w1 ∧ view w1 = Some v1 ∧
          view_dict (objs w1) d = Some v1.
Proof.
  intros Ht Hv Hc. pose proof (view_path_lt _ _ Hv) as Hp.
  destruct w as [h [a t p]]. simpl in Hp.
  destruct c as [|a'|t'|pts mode]; simpl in Hc |- *.
  - injection Hc as <-.
    destruct (get_ok _ _ Hv) as (d & ext & Hrun & Hd & _). simpl in *.
    eexists _, _. split; [exact Hrun|].
    split_and!; [by eapply tracks_grown | by apply view3_app | done].
  - destruct (deref_dict h0 a') as [da|] eqn:Ea; [|done]. injection Hc as <-.
    destruct (set_auv_ok _ _ _ _ Hv (tracks_dict _ _ _ _ Ht Ea))
      as (d & ext & Hrun & Hview & Hd & _).
    cbv zeta in *; cbn [objs _state auv target path] in *.
    eexists _, _. split; [exact Hrun|].
    split_and!; [by eapply tracks_grown | done | cbn [objs]; congruence].
  - destruct (deref_opt h0 t') as [vt|] eqn:Et; [|done]. injection Hc as <-.
    destruct (set_target_ok _ _ _ _ Hv (tracks_opt _ _ _ _ Ht Et))
      as (d & ext & Hrun & Hview & Hd & _).
    cbv zeta in *; cbn [objs _state auv target path] in *.
    eexists _, _. split; [exact Hrun|].
    split_and!; [by eapply tracks_grown | done | cbn [objs]; congruence].
  - destruct (deref_points h0 pts) as [pv|] eqn:Ep; [|done].
    injection Hc as <-.
    pose proof (tracks_points _ _ _ _ Ht Ep) as Hpv.
    destruct (String.eqb mode "append") eqn:Em.
    + apply String.eqb_eq in Em as ->.
      destruct (set_path_append_ok _ _ _ _ Hv Hpv)
        as (d & ext & P & ptl & _ & _ & Hrun & Hview & Hd & _).
      cbv zeta in *; cbn [objs _state auv target path] in *.
      eexists _, _. split; [exact Hrun|].
      split_and!; [|done|cbn [objs]; congruence].
      destruct Ht as [Hpath Hsame]. simpl in *. split; simpl; [done|].
      intros l Hl. rewrite lookup_app_l by (rewrite length_insert; lia).
      rewrite list_lookup_insert_ne by lia. by apply Hsame.
    + apply String.eqb_neq in Em.
      destruct (set_path_other_ok _ _ _ _ _ Em Hv Hpv)
        as (d & ext & ptl & _ & Hrun & Hview & Hd & _).
      cbv zeta in *; cbn [objs _state auv target path] in *.
      eexists _, _. split; [exact Hrun|].
      split_and!; [|done|cbn [objs]; congruence].
      destruct Ht as [Hpath Hsame]. simpl in *. split; simpl; [lia|].
      intros l Hl. rewrite !lookup_app_l by (rewrite ?length_app; lia).
      by apply Hsame.
Qed.

Lemma run_calls_tracks h0 cs : ∀ w v v',
  tracks h0 w → view w = Some v → apply_calls h0 cs v = Some v' →
  view (run_calls cs w) = Some v'.
Proof.
  induction cs as [|c cs IH]; intros w v v' Ht Hv Hcs; simpl in *.
  - by injection Hcs as <-.
  - destruct (apply_call h0 c v) as [v1|] eqn:Ec; [|done].
    destruct (exec_tracks _ _ _ _ _ Ht Hv Ec) as (d & w1 & Hrun & Ht1 & Hv1 & _).
    rewrite Hrun. simpl. by eapply IH.
Qed.

Lemma init_tracks h0 :
  tracks h0 (init h0) ∧ view (init h0) = Some (mkStateV None None []).
Proof.
  split.
  - split; simpl; [done|]. intros l Hl. by apply lookup_app_l.
  - unfold view, view3, init, deref_points, deref_list. simpl.
    by rewrite list_lookup_middle.
Qed.

End store_runs.

(** ** StateStore: the claims *)

Section store_claims.

Import StateStore.

Implicit Types (w : Store) (v : StateV).

(** C1: for a store whose path reads [v_path v] and a list [points] that
    reads [pv], [set_path points "append"] returns and leaves the path
    [v_path v ++ pv]; [set_path points "replace"] returns and leaves the
    path [pv]; in both the snapshot returned reads as the new stored
    state. *)
Theorem set_path_append_replace w v points pv :
  view w = Some v →
  deref_points (objs w) points = Some pv →
  (∃ d w',
     set_path points "append" w = Ok d w' ∧
     view w' = Some (mkStateV (v_auv v) (v_target v) (v_path v ++ pv)) ∧
     view_dict (objs w') d = view w')
  ∧
  (∃ d w',
     set_path points "replace" w = Ok d w' ∧
     view w' = Some (mkStateV (v_auv v) (v_target v) pv) ∧
     view_dict (objs w') d = view w').
Proof.
  intros Hv Hpv. split.
  - destruct (set_path_append_ok w v points pv Hv Hpv)
      as (d & ext & P & ptl & _ & _ & Hrun & Hview & Hd & _).
    eauto.
  - destruct (set_path_other_ok w v points pv "replace" ltac:(done) Hv Hpv)
      as (d & ext & ptl & _ & Hrun & Hview & Hd & _).
    eauto.
Qed.

Lemma set_path_append_replace_witness :
  (∃ d w',
     set_path 4 "append" demo_store = Ok d w' ∧
     view w' = Some (mkStateV None None (v_path demo_view ++ demo_points)) ∧
     view_dict (objs w') d = view w')
  ∧
  (∃ d w',
     set_path 4 "replace" demo_store = Ok d w' ∧
     view w' = Some (mkStateV None None demo_points) ∧
     view_dict (objs w') d = view w').
Proof.
  apply (set_path_append_replace demo_store demo_view 4 demo_points);
    reflexivity.
Defined.

(** C4: [set_auv] leaves target and path as they were, [set_target]
    leaves auv and path, [set_path] leaves auv and target: the references
    kept and what they read; the field that is set reads as the argument,
    and the snapshot returned reads as the stored state.  So after any run
    of calls on a new store, [get] returns the triple in which each field
    is what the calls to its own setter made of it. *)
Theorem setters_frame :
  (∀ w v, view w = Some v →
     (∀ a da, deref_dict (objs w) a = Some da →
        ∃ d w',
          set_auv a w = Ok d w' ∧
          target (_state w') = target (_state w) ∧
          path (_state w') = path (_state w) ∧
          view w' = Some (mkStateV (Some da) (v_target v) (v_path v)) ∧
          view_dict (objs w') d = view w')
     ∧
     (∀ t vt, deref_opt (objs w) t = Some vt →
        ∃ d w',
          set_target t w = Ok d w' ∧
          auv (_state w') = auv (_state w) ∧
          path (_state w') = path (_state w) ∧
          view w' = Some (mkStateV (v_auv v) vt (v_path v)) ∧
          view_dict (objs w') d = view w')
     ∧
     (∀ points pv mode, deref_points (objs w) points = Some pv →
        ∃ d w' vp,
          set_path points mode w = Ok d w' ∧
          auv (_state w') = auv (_state w) ∧
          target (_state w') = target (_state w) ∧
          view w' = Some (mkStateV (v_auv v) (v_target v) vp) ∧
          view_dict (objs w') d = view w'))
  ∧
  (∀ h0 cs v,
     apply_calls h0 cs (mkStateV None None []) = Some v →
     ∃ d w',
       get (run_calls cs (init h0)) = Ok d w' ∧
       view_dict (objs w') d = Some v).
Proof.
  split.
  - intros w v Hv. split_and!.
    + intros a da Hda.
      destruct (set_auv_ok w v a da Hv Hda)
        as (d & ext & Hrun & Hview & Hd & _).
      eauto 10.
    + intros t vt Hvt.
      destruct (set_target_ok w v t vt Hv Hvt)
        as (d & ext & Hrun & Hview & Hd & _).
      eauto 10.
    + intros points pv mode Hpv.
      destruct (decide (mode = "append")) as [->|Hmode].
      * destruct (set_path_append_ok w v points pv Hv Hpv)
          as (d & ext & P & ptl & _ & _ & Hrun & Hview & Hd & _).
        eauto 10.
      * destruct (set_path_other_ok w v points pv mode Hmode Hv Hpv)
          as (d & ext & ptl & _ & Hrun & Hview & Hd & _).
        eauto 10.
  - intros h0 cs v Hcs. destruct (init_tracks h0) as [Ht Hv0].
    pose proof (run_calls_tracks h0 cs _ _ _ Ht Hv0 Hcs) as Hv.
    destruct (get_ok _ _ Hv) as (d & ext & Hrun & Hd & _). eauto.
Qed.

Lemma setters_frame_witness :
  (∃ d w',
     set_auv 1 demo_store = Ok d w' ∧
     target (_state w') = None ∧
     path (_state w') = 5 ∧
     view w' = Some (mkStateV
                       (Some [("lat", VFloat 32.125); ("lon", VFloat 34.5);
                              ("alt", VNone); ("heading", VFloat 90);
                              ("timestamp", VStr "t0")])
                       None (v_path demo_view)) ∧
     view_dict (objs w') d = view w')
  ∧
  (∃ d w',
     get (run_calls [CSetPath 5 "replace"; CSetAuv 1; CSetPath 4 "append";
                     CSetTarget (Some 0)]
            (init demo_objs)) = Ok d w' ∧
     view_dict (objs w') d
     = Some (mkStateV
               (Some [("lat", VFloat 32.125); ("lon", VFloat 34.5);
                      ("alt", VNone); ("heading", VFloat 90);
                      ("timestamp", VStr "t0")])
               (Some [("lat", VFloat 32.5); ("lon", VFloat 34.75)])
               (v_path demo_view ++ demo_points))).
Proof.
  split.
  - apply (proj1 (proj1 setters_frame demo_store demo_view eq_refl) 1).
    reflexivity.
  - apply (proj2 setters_frame demo_objs). reflexivity.
Defined.

(** C9: on a store whose state reads, no operation raises, whatever the
    dicts hold and whatever the mode; a mode other than "append" does
    what "replace" does. *)
Theorem store_never_fails w v :
  view w = Some v →
  (∃ d w', get w = Ok d w') ∧
  (∀ a da, deref_dict (objs w) a = Some da → ∃ d w', set_auv a w = Ok d w') ∧
  (∀ t vt, deref_opt (objs w) t = Some vt →
     ∃ d w', set_target t w = Ok d w') ∧
  (∀ points pv mode, deref_points (objs w) points = Some pv →
     (∃ d w', set_path points mode w = Ok d w') ∧
     (mode ≠ "append" →
      set_path points mode w = set_path points "replace" w)).
Proof.
  intros Hv. split_and!.
  - destruct (get_ok w v Hv) as (d & ext & Hrun & _). eauto.
  - intros a da Hda.
    destruct (set_auv_ok w v a da Hv Hda) as (d & ext & Hrun & _). eauto.
  - intros t vt Hvt.
    destruct (set_target_ok w v t vt Hv Hvt) as (d & ext & Hrun & _). eauto.
  - intros points pv mode Hpv. split.
    + destruct (decide (mode = "append")) as [->|Hmode].
      * destruct (set_path_append_ok w v points pv Hv Hpv)
          as (d & ext & P & ptl & _ & _ & Hrun & _).
        eauto.
      * destruct (set_path_other_ok w v points pv mode Hmode Hv Hpv)
          as (d & ext & ptl & _ & Hrun & _).
        eauto.
    + intros Hmode%String.eqb_neq. unfold set_path. by rewrite Hmode.
Qed.

Lemma store_never_fails_witness :
  (∃ d w', set_path 4 "sideways" demo_store = Ok d w') ∧
  ("sideways" ≠ "append" →
   set_path 4 "sideways" demo_store = set_path 4 "replace" demo_store).
Proof.
  apply (proj2 (proj2 (proj2 (store_never_fails demo_store demo_view eq_refl)))
           4 demo_points "sideways").
  reflexivity.
Defined.

End store_claims.

(** ** Snapshots are apart from the state *)

Section independence.

Import StateStore.

Implicit Types (h ext : heap) (l : loc) (w : Store) (v : StateV).

Lemma grows_ret {A} (a : A) : grows (ret a).
Proof. intros [h s]. exists []. simpl. by rewrite app_nil_r. Qed.

Lemma grows_bind {A B} (m : M Store A) (k : A → M Store B) :
  grows m → (∀ a, grows (k a)) → grows (bind m k).
Proof.
  intros Hm Hk w. destruct (Hm w) as [e1 H1]. unfold bind.
  destruct (m w) as [a w1|e w1]; simpl in H1; subst w1.
  - destruct (Hk a (mkStore (objs w ++ e1) (_state w))) as [e2 H2].
    exists (e1 ++ e2). rewrite H2. simpl. by rewrite app_assoc.
  - by exists e1.
Qed.

Lemma grows_alloc o : grows (alloc o).
Proof. intros w. by exists [o]. Qed.

Lemma grows_load_dict l : grows (load_dict l).
Proof.
  intros [h s]. exists []. unfold load_dict. simpl. rewrite app_nil_r.
  by destruct (h !! l) as [[]|].
Qed.

Lemma grows_load_list l : grows (load_list l).
Proof.
  intros [h s]. exists []. unfold load_list. simpl. rewrite app_nil_r.
  by destruct (h !! l) as [[]|].
Qed.

Lemma grows_dict_copy l : grows (dict_copy l).
Proof.
  apply grows_bind; [apply grows_load_dict | intros; apply grows_alloc].
Qed.

Lemma grows_copy_opt o : grows (copy_opt o).
Proof.
  destruct o; simpl; [|apply grows_ret].
  apply grows_bind; [apply grows_dict_copy | intros; apply grows_ret].
Qed.

Lemma grows_for_each_copy ls : grows (for_each dict_copy ls).
Proof.
  induction ls as [|l ls IH]; simpl; [apply grows_ret|].
  apply grows_bind; [apply grows_dict_copy|]. intros.
  apply grows_bind; [apply IH | intros; apply grows_ret].
Qed.

Lemma grows_get : grows get.
Proof.
  unfold get. apply grows_bind.
  { intros [h s]. exists []. simpl. by rewrite app_nil_r. }
  intros s. repeat (apply grows_bind; [|intros]);
    auto using grows_copy_opt, grows_load_list, grows_for_each_copy,
      grows_alloc, grows_ret.
Qed.

Lemma evolves_grown h ext s p' :
  p' = path s ∨ length h ≤ p' →
  ∀ a t, evolves (mkStore h s) (mkStore (h ++ ext) (mkState a t p')).
Proof.
  intros Hp a t. split_and!; simpl.
  - rewrite length_app. lia.
  - intros l Hl _. by apply lookup_app_l.
  - done.
Qed.

Lemma get_from h s :
  ∃ ext, final (get (mkStore h s)) = mkStore (h ++ ext) s.
Proof. apply (grows_get (mkStore h s)). Qed.

Lemma exec_evolves c w : evolves w (final (exec c w)).
Proof.
  destruct w as [h [a t p]].
  assert (evolves (mkStore h (mkState a t p)) (mkStore h (mkState a t p)))
    as Hrefl.
  { rewrite <- (app_nil_r h) at 2. apply evolves_grown. by left. }
  destruct c as [|a'|t'|pts mode]; simpl.
  - destruct (get_from h (mkState a t p)) as [ext ->].
    apply evolves_grown. by left.
  - unfold set_auv, set_state, modify, gets, bind. simpl.
    destruct (get_from h (mkState (Some a') t p)) as [ext ->].
    apply evolves_grown. by left.
  - unfold set_target, set_state, modify, gets, bind. simpl.
    destruct (get_from h (mkState a t' p)) as [ext ->].
    apply evolves_grown. by left.
  - unfold set_path, gets, bind at 1 2. simpl.
    destruct (String.eqb mode "append").
    + unfold list_extend, load_list, store_obj, modify, bind. simpl.
      destruct (h !! p) as [[|P]|] eqn:Ep; simpl; [done| |done].
      destruct (h !! pts) as [[|ptl]|] eqn:Epts; simpl; [done| |done].
      destruct (get_from (<[p := OList (P ++ ptl)]> h) (mkState a t p))
        as [ext ->].
      split_and!; simpl.
      * rewrite length_app, length_insert. lia.
      * intros l Hl Hne. rewrite lookup_app_l by (by rewrite length_insert).
        by rewrite list_lookup_insert_ne.
      * by left.
    + unfold list_copy, load_list, alloc, set_state, modify, bind. simpl.
      destruct (h !! pts) as [[|ptl]|] eqn:Epts; simpl; [done| |done].
      destruct (get_from (h ++ [OList ptl]) (mkState a t (length h)))
        as [ext ->].
      rewrite <- app_assoc. apply evolves_grown. by right.
Qed.

End independence.

Section deep_copy.

Import StateStore.

Implicit Types (h : heap) (l : loc) (w : Store) (v : StateV).

Lemma apart_exec F h0 w c : apart F h0 w → apart F h0 (final (exec c w)).
Proof.
  intros HF. destruct (exec_evolves c w) as (Hlen & Hsame & Hpath).
  eapply Forall_impl; [exact HF|]. intros l (Hl & Hl0 & Hne). simpl.
  split_and!; [lia | by rewrite Hsame | lia].
Qed.

Lemma apart_run_calls F h0 cs : ∀ w, apart F h0 w → apart F h0 (run_calls cs w).
Proof.
  induction cs as [|c cs IH]; intros w HF; simpl; [done|].
  by apply IH, apart_exec.
Qed.

(** C6: [get] returns a snapshot that reads as the stored state and is
    made of new objects only, none of them an object of the stored state.
    Whatever is done to those objects, the stored state reads the same;
    whatever calls the store serves afterwards, the snapshot reads the
    same. *)
Theorem get_deep_copy w v :
  view w = Some v →
  ∃ d w',
    get w = Ok d w' ∧
    _state w' = _state w ∧
    view_dict (objs w') d = Some v ∧
    Forall (λ l, length (objs w) ≤ l) (footprint (objs w') d) ∧
    (∀ l, l ∈ footprint (objs w') d → l ∉ state_footprint w') ∧
    (∀ h2, (∀ l, l ∉ footprint (objs w') d → h2 !! l = objs w' !! l) →
           view (mkStore h2 (_state w')) = Some v) ∧
    (∀ cs, view_dict (objs (run_calls cs w')) d = Some v).
Proof.
  intros Hv. destruct (get_ok w v Hv) as (d & ext & Hrun & Hd & Hfresh).
  exists d, (mkStore (objs w ++ ext) (_state w)). simpl.
  split_and!; [done..| | |].
  - intros l Hin Hst. rewrite Forall_forall in Hfresh. apply Hfresh in Hin.
    pose proof (view3_lt _ _ _ _ _ Hv) as Hlt.
    assert (footprint3 (objs w ++ ext) (auv (_state w)) (target (_state w))
              (path (_state w))
            = footprint3 (objs w) (auv (_state w)) (target (_state w))
                (path (_state w))) as Hfp.
    { unfold footprint3. do 3 f_equal.
      apply view_inv in Hv as (_ & _ & (ls & Hls & _)%deref_points_inv).
      by rewrite Hls, (deref_list_app _ ext _ _ Hls). }
    unfold state_footprint in Hst. simpl in Hst. rewrite Hfp in Hst.
    rewrite Forall_forall in Hlt. apply Hlt in Hst. lia.
  - intros h2 Hh2. unfold view. simpl. rewrite <- Hv. apply view3_agree.
    eapply Forall_impl; [by eapply view3_lt|]. intros l Hl. simpl in Hl.
    rewrite Hh2, lookup_app_l; [done..|].
    intros Hin. rewrite Forall_forall in Hfresh. apply Hfresh in Hin. lia.
  - intros cs. rewrite <- Hd. apply view3_agree.
    assert (apart (footprint (objs w ++ ext) d) (objs w ++ ext)
              (mkStore (objs w ++ ext) (_state w))) as HF.
    { pose proof (view3_lt _ _ _ _ _ Hd) as Hlt.
      pose proof (view3_lt _ _ _ _ _ Hv) as Hst.
      unfold footprint3 in Hst. rewrite !Forall_app in Hst.
      destruct Hst as (_ & _ & [Hp _]%Forall_cons_1).
      unfold apart. rewrite Forall_forall in Hfresh, Hlt.
      apply Forall_forall. intros l Hin. simpl.
      split_and!; [by apply Hlt | done |]. apply Hfresh in Hin. lia. }
    eapply Forall_impl; [exact (apart_run_calls _ _ cs _ HF)|].
    by intros l (_ & ? & _).
Qed.

Lemma get_deep_copy_witness :
  ∃ d w',
    get demo_store = Ok d w' ∧
    _state w' = _state demo_store ∧
    view_dict (objs w') d = Some demo_view ∧
    Forall (λ l, length (objs demo_store) ≤ l) (footprint (objs w') d) ∧
    (∀ l, l ∈ footprint (objs w') d → l ∉ state_footprint w') ∧
    (∀ h2, (∀ l, l ∉ footprint (objs w') d → h2 !! l = objs w' !! l) →
           view (mkStore h2 (_state w')) = Some demo_view) ∧
    (∀ cs, view_dict (objs (run_calls cs w')) d = Some demo_view).
Proof. apply (get_deep_copy demo_store demo_view). reflexivity. Defined.

End deep_copy.

(** ** Broker: what each operation does *)

Section broker_facts.

Import Broker.

Implicit Types (b : Broker) (q : handle) (qs : list Queue.t) (qu : Queue.t).

Lemma alter_latest_insert qs q qu item :
  qs !! q = Some qu → alter (latest item) q qs = <[q := latest item qu]> qs.
Proof.
  intros Hq. apply list_eq. intros i.
  destruct (decide (q = i)) as [<-|Hne].
  - rewrite list_lookup_alter_eq, Hq.
    by rewrite list_lookup_insert_eq by (by eapply lookup_lt_Some).
  - by rewrite list_lookup_alter_ne, list_lookup_insert_ne.
Qed.

(** The loop of [_put_latest] empties the queue and ends on [Empty]. *)
Lemma drain_raises_Empty q ms items : ∀ fuel b,
  queues b !! q = Some (Queue.mk ms items) →
  length items < fuel →
  while_true fuel (get_nowait q ;;; ret tt) b
  = Raise Empty (mkBroker (<[q := Queue.mk ms []]> (queues b)) (_subs b)).
Proof.
  induction items as [|x xs IH]; intros fuel b Hq Hfuel;
    (destruct fuel as [|fuel]; [simpl in Hfuel; lia|]);
    simpl; unfold bind at 1 2, get_nowait; rewrite Hq; simpl.
  - rewrite list_insert_id by done. by destruct b.
  - rewrite (IH fuel (mkBroker (<[q := Queue.mk ms xs]> (queues b)) (_subs b))).
    + simpl. by rewrite list_insert_insert_eq.
    + simpl. apply list_lookup_insert_eq. by eapply lookup_lt_Some.
    + simpl in Hfuel. lia.
Qed.

Lemma put_latest_ok b q item :
  q < length (queues b) →
  _put_latest q item b
  = Ok tt (mkBroker (alter (latest item) q (queues b)) (_subs b)).
Proof.
  intros Hq. destruct (lookup_lt_is_Some_2 _ _ Hq) as [[ms items] Hqu].
  unfold _put_latest.
  rewrite (bind_Ok (gets _) _ _ _ _ eq_refl).
  unfold bind, try_except.
  rewrite (drain_raises_Empty q ms items _ b Hqu)
    by (unfold drain_fuel, pending; rewrite Hqu; simpl; lia).
  simpl. unfold put_nowait. simpl.
  rewrite list_lookup_insert_eq by done.
  unfold Queue.put_nowait, Queue.qsize. simpl.
  destruct ((0 <? ms)%Z && (ms <=? Z.of_nat 0)%Z) eqn:E;
    [apply andb_true_iff in E as [?%Z.ltb_lt ?%Z.leb_le]; lia|].
  rewrite list_insert_insert_eq.
  by rewrite (alter_latest_insert _ _ _ _ Hqu).
Qed.

Lemma put_all_cons item q subs qs :
  put_all item (q :: subs) qs = put_all item subs (alter (latest item) q qs).
Proof. done. Qed.

Lemma length_put_all item subs : ∀ qs, length (put_all item subs qs) = length qs.
Proof.
  induction subs as [|q subs IH]; intros qs; [done|].
  by rewrite put_all_cons, IH, length_alter.
Qed.

Lemma put_all_lookup_notin item subs q : ∀ qs,
  q ∉ subs → put_all item subs qs !! q = qs !! q.
Proof.
  induction subs as [|x subs IH]; intros qs Hq; [done|].
  apply not_elem_of_cons in Hq as [Hne Hq].
  by rewrite put_all_cons, IH, list_lookup_alter_ne.
Qed.

Lemma put_all_lookup_in item subs q : ∀ qs,
  q ∈ subs → put_all item subs qs !! q = latest item <$> qs !! q.
Proof.
  induction subs as [|x subs IH]; intros qs Hq;
    [by apply elem_of_nil in Hq|].
  rewrite put_all_cons.
  destruct (decide (q ∈ subs)) as [Hin|Hnin].
  - rewrite IH by done. destruct (decide (x = q)) as [->|Hne].
    + rewrite list_lookup_alter_eq. by destruct (qs !! q).
    + by rewrite list_lookup_alter_ne.
  - apply elem_of_cons in Hq as [->|?]; [|done].
    by rewrite put_all_lookup_notin, list_lookup_alter_eq.
Qed.

Lemma for_each_put_latest item subs : ∀ qs S,
  Forall (λ q, q < length qs) subs →
  ∃ us,
    for_each (λ q, _put_latest q item) subs (mkBroker qs S)
    = Ok us (mkBroker (put_all item subs qs) S).
Proof.
  induction subs as [|q subs IH]; intros qs S Hsubs; cbn [for_each].
  - by exists [].
  - apply Forall_cons_1 in Hsubs as [Hq Hsubs].
    rewrite (bind_Ok _ _ _ _ _ (put_latest_ok (mkBroker qs S) q item Hq)).
    cbn [queues _subs]. rewrite put_all_cons.
    destruct (IH (alter (latest item) q qs) S) as [us Hus].
    { eapply Forall_impl; [exact Hsubs|]. intros x Hx. simpl.
      by rewrite length_alter. }
    exists (tt :: us). by rewrite (bind_Ok _ _ _ _ _ Hus).
Qed.

Lemma publish_ok b payload :
  Forall (λ q, q < length (queues b)) (_subs b) →
  publish_str payload b
  = Ok tt (mkBroker (put_all payload (_subs b) (queues b)) (_subs b)).
Proof.
  intros Hsubs. unfold publish_str.
  rewrite (bind_Ok (gets _) _ _ _ _ eq_refl).
  destruct b as [qs S]. simpl in *.
  destruct (for_each_put_latest payload S qs S Hsubs) as [us Hus].
  by rewrite (bind_Ok _ _ _ _ _ Hus).
Qed.

Lemma subscribe_ok b snapshot :
  subscribe snapshot b
  = Ok (length (queues b))
       (mkBroker (queues b ++ [Queue.mk 1 [snapshot]])
                 (_subs b ++ [length (queues b)])).
Proof.
  unfold subscribe.
  rewrite (bind_Ok (new_queue 1) _ _ _ _ eq_refl).
  rewrite (bind_Ok (modify _) _ _ _ _ eq_refl). cbn [queues _subs].
  erewrite bind_Ok;
    [|apply put_latest_ok; cbn [queues]; rewrite length_app; simpl; lia].
  cbn [queues _subs]. unfold ret. do 2 f_equal.
  apply list_eq. intros i. rewrite list_lookup_alter.
  case_decide as Hi; [subst i; by rewrite !list_lookup_middle by done|].
  destruct (decide (i < length (queues b))).
  - by rewrite !lookup_app_l by done.
  - by rewrite !lookup_ge_None_2 by (rewrite length_app; simpl; lia).
Qed.

Lemma list_remove_notin q l : q ∉ l → list_remove q l = None.
Proof.
  induction l as [|x l IH]; simpl; [done|].
  intros [Hne Hq]%not_elem_of_cons.
  destruct (Nat.eqb_spec x q) as [->|_]; [done|]. by rewrite IH.
Qed.

Lemma list_remove_in q l :
  q ∈ l → NoDup l →
  ∃ l', list_remove q l = Some l' ∧ l' = filter (λ x, x ≠ q) l ∧ q ∉ l'.
Proof.
  induction l as [|x l IH]; simpl; [by intros ?%elem_of_nil|].
  intros Hq [Hx Hnd]%NoDup_cons. destruct (Nat.eqb_spec x q) as [->|Hne].
  - exists l. split_and!; [done| |done].
    rewrite filter_cons_False by naive_solver.
    symmetry. clear IH Hq Hnd. induction l as [|y l IHl]; [done|].
    apply not_elem_of_cons in Hx as [Hne Hx].
    rewrite filter_cons_True by done. f_equal. by apply IHl.
  - apply elem_of_cons in Hq as [->|Hq]; [done|].
    destruct (IH Hq Hnd) as (l' & -> & -> & Hnin).
    exists (x :: filter (λ x, x ≠ q) l). split_and!; [done| |].
    + by rewrite filter_cons_True.
    + apply not_elem_of_cons. split; [done|exact Hnin].
Qed.

End broker_facts.

Section broker_steps.

Import Broker.

Implicit Types (b : Broker) (q : handle) (qs : list Queue.t) (o : op).

Lemma filter_ne_notin q (l : list handle) :
  q ∉ l → filter (λ x, x ≠ q) l = l.
Proof.
  induction l as [|x l IH]; [done|]. intros [Hne Hq]%not_elem_of_cons.
  rewrite filter_cons_True by done. f_equal. by apply IH.
Qed.

Lemma unsubscribe_ok b q :
  NoDup (_subs b) →
  unsubscribe q b
  = Ok tt (mkBroker (queues b) (filter (λ x, x ≠ q) (_subs b))).
Proof.
  intros Hnd. unfold unsubscribe, try_except, subs_remove.
  destruct (decide (q ∈ _subs b)) as [Hin|Hnin].
  - destruct (list_remove_in q _ Hin Hnd) as (l' & -> & -> & _). done.
  - rewrite (list_remove_notin _ _ Hnin). simpl.
    rewrite (filter_ne_notin _ _ Hnin). by destruct b.
Qed.

Lemma read_cases b q :
  (∃ x xs ms,
     queues b !! q = Some (Queue.mk ms (x :: xs)) ∧
     get_timeout q b
     = Ok x (mkBroker (<[q := Queue.mk ms xs]> (queues b)) (_subs b))) ∨
  (pending b q = [] ∧ ∃ e, get_timeout q b = Raise e b).
Proof.
  unfold get_timeout, get_nowait, pending.
  destruct (queues b !! q) as [[ms [|x xs]]|] eqn:E; simpl; eauto 10.
Qed.

(** Each step keeps the handles sound, makes no queue disappear and
    subscribes no queue that exists already. *)
Lemma step_valid b o :
  valid b →
  valid (final (step o b)) ∧
  length (queues b) ≤ length (queues (final (step o b))) ∧
  (∀ q, q < length (queues b) → q ∉ _subs b → q ∉ _subs (final (step o b))).
Proof.
  intros [Hlt Hnd]. destruct o as [s|q'|p|q']; simpl.
  - unfold bind. rewrite subscribe_ok. simpl. split_and!.
    + split; simpl.
      * apply Forall_app. split.
        -- eapply Forall_impl; [exact Hlt|]. intros x Hx. simpl in Hx.
           rewrite length_app. simpl. lia.
        -- constructor; [|constructor]. rewrite length_app. simpl. lia.
      * apply NoDup_app. split_and!; [done| |apply NoDup_singleton].
        intros x Hx ->%list_elem_of_singleton.
        rewrite Forall_forall in Hlt. apply Hlt in Hx. lia.
    + rewrite length_app. lia.
    + intros q Hq Hnin [?| ->%list_elem_of_singleton]%elem_of_app; [done|lia].
  - unfold bind. rewrite unsubscribe_ok by done. simpl. split_and!.
    + split; simpl.
      * apply Forall_forall. intros x [_ Hx]%list_elem_of_filter.
        rewrite Forall_forall in Hlt. by apply Hlt.
      * by apply NoDup_filter.
    + done.
    + intros q _ Hnin [_ Hin]%list_elem_of_filter. done.
  - unfold bind. rewrite publish_ok by done. simpl. split_and!.
    + split; simpl; [|done].
      eapply Forall_impl; [exact Hlt|]. intros x Hx. simpl in Hx.
      by rewrite length_put_all.
    + by rewrite length_put_all.
    + done.
  - unfold bind.
    destruct (read_cases b q') as [(x & xs & ms & _ & ->)|(_ & e & ->)]; simpl.
    + split_and!; [|by rewrite length_insert|done].
      split; simpl; [|done].
      eapply Forall_impl; [exact Hlt|]. intros y Hy. simpl in Hy.
      by rewrite length_insert.
    + done.
Qed.

Lemma run_valid os : ∀ b q,
  valid b → q < length (queues b) → q ∉ _subs b →
  valid (run os b) ∧ q < length (queues (run os b)) ∧ q ∉ _subs (run os b).
Proof.
  induction os as [|o os IH]; intros b q Hv Hq Hnin; simpl; [done|].
  destruct (step_valid b o Hv) as (Hv' & Hlen & Hkeep).
  apply IH; [done|lia|by apply Hkeep].
Qed.

Lemma valid_init qs : valid (init qs).
Proof. split; simpl; [constructor | apply NoDup_nil_2]. Qed.

End broker_steps.

(** ** Broker: the claims *)

Section broker_claims.

Import Broker.

Implicit Types (b : Broker) (q : handle) (qs : list Queue.t) (o : op).

Lemma demo_broker_valid : valid demo_broker.
Proof.
  split; simpl.
  - repeat constructor; simpl; lia.
  - compute_done.
Defined.

Lemma publish_many_ok ps : ∀ b,
  Forall (λ q, q < length (queues b)) (_subs b) →
  ∃ us,
    for_each publish_str ps b
    = Ok us (mkBroker (fold_left (λ qs p, put_all p (_subs b) qs) ps (queues b))
                      (_subs b)).
Proof.
  induction ps as [|p ps IH]; intros b Hb; cbn [for_each fold_left].
  - exists []. by destruct b.
  - rewrite (bind_Ok _ _ _ _ _ (publish_ok b p Hb)).
    destruct (IH (mkBroker (put_all p (_subs b) (queues b)) (_subs b)))
      as [us Hus].
    { simpl. eapply Forall_impl; [exact Hb|]. intros x Hx. simpl in Hx.
      by rewrite length_put_all. }
    exists (tt :: us). by rewrite (bind_Ok _ _ _ _ _ Hus).
Qed.

Lemma length_publish_fold ps subs : ∀ qs,
  length (fold_left (λ qs p, put_all p subs qs) ps qs) = length qs.
Proof.
  induction ps as [|p ps IH]; intros qs; simpl; [done|].
  by rewrite IH, length_put_all.
Qed.

(** C2: after N ≥ 1 publishes with no read in between, a subscriber's
    mailbox holds the last payload and nothing else, and the next read
    gives that payload. *)
Theorem publish_latest_wins b q ps p :
  valid b → q ∈ _subs b → last ps = Some p →
  ∃ us b1,
    for_each publish_str ps b = Ok us b1 ∧
    pending b1 q = [p] ∧
    ∃ b2, get_timeout q b1 = Ok p b2 ∧ pending b2 q = [].
Proof.
  intros [Hlt _] Hq [ps' ->]%last_Some.
  destruct (publish_many_ok (ps' ++ [p]) b Hlt) as [us Hus].
  eexists us, _. split; [exact Hus|].
  rewrite fold_left_app. cbn [fold_left].
  set (qs := fold_left _ ps' (queues b)).
  assert (q < length qs) as Hqs.
  { unfold qs. rewrite length_publish_fold.
    rewrite Forall_forall in Hlt. by apply Hlt. }
  destruct (lookup_lt_is_Some_2 _ _ Hqs) as [[ms items] Hqu].
  assert (put_all p (_subs b) qs !! q = Some (Queue.mk ms [p])) as Hnew.
  { by rewrite put_all_lookup_in, Hqu. }
  split.
  - unfold pending. simpl. by rewrite Hnew.
  - unfold get_timeout, get_nowait, pending. simpl. rewrite Hnew. simpl.
    eexists. split; [done|]. simpl.
    rewrite list_lookup_insert_eq; [done|]. by eapply lookup_lt_Some.
Qed.

Lemma publish_latest_wins_witness :
  ∃ us b1,
    for_each publish_str ["A"; "B"; "C"] demo_broker = Ok us b1 ∧
    pending b1 0 = ["C"] ∧
    ∃ b2, get_timeout 0 b1 = Ok "C" b2 ∧ pending b2 0 = [].
Proof.
  apply (publish_latest_wins demo_broker 0 ["A"; "B"; "C"] "C").
  - exact demo_broker_valid.
  - compute_done.
  - reflexivity.
Defined.

Lemma subscribe_read b s :
  ∃ q b1,
    subscribe s b = Ok q b1 ∧
    q ∈ _subs b1 ∧
    pending b1 q = [s] ∧
    ∃ b2, get_timeout q b1 = Ok s b2.
Proof.
  eexists _, _. split; [apply subscribe_ok|]. split_and!.
  - simpl. apply elem_of_app. right. by apply list_elem_of_singleton.
  - unfold pending. simpl. by rewrite list_lookup_middle.
  - unfold get_timeout, get_nowait. simpl.
    rewrite list_lookup_middle by done. simpl. eauto.
Qed.

End broker_claims.

Section broker_invariant.

Import Broker.

Implicit Types (b : Broker) (q : handle) (qs : list Queue.t) (o : op).

(** C8: [unsubscribe q] returns and takes [q] out; from then on, whatever
    else happens to the broker, a publish returns and leaves the queue [q]
    as it was; a second [unsubscribe q], or one of a handle that is not
    subscribed, returns and changes nothing. *)
Theorem unsubscribe_then_publish b q :
  valid b → q < length (queues b) →
  ∃ b1,
    unsubscribe q b = Ok tt b1 ∧
    queues b1 = queues b ∧
    (q ∉ _subs b1) ∧
    unsubscribe q b1 = Ok tt b1 ∧
    (∀ os p, ∃ b3,
       publish_str p (run os b1) = Ok tt b3 ∧
       queues b3 !! q = queues (run os b1) !! q) ∧
    (∀ q', q' ∉ _subs b → unsubscribe q' b = Ok tt b).
Proof.
  intros [Hlt Hnd] Hq.
  set (b1 := mkBroker (queues b) (filter (λ x, x ≠ q) (_subs b))).
  assert (q ∉ _subs b1) as Hnin.
  { simpl. by intros [? _]%list_elem_of_filter. }
  assert (valid b1) as Hv1.
  { split; simpl; [|by apply NoDup_filter].
    apply Forall_forall. intros x [_ Hx]%list_elem_of_filter.
    rewrite Forall_forall in Hlt. by apply Hlt. }
  exists b1. split_and!; [by apply unsubscribe_ok|done|done| | |].
  - rewrite unsubscribe_ok by apply Hv1.
    by rewrite (filter_ne_notin _ _ Hnin).
  - intros os p.
    destruct (run_valid os b1 q Hv1 Hq Hnin) as ([Hlt2 _] & _ & Hnin2).
    eexists. split; [by apply publish_ok|].
    simpl. by apply put_all_lookup_notin.
  - intros q' Hq'. rewrite unsubscribe_ok by done.
    rewrite (filter_ne_notin _ _ Hq'). by destruct b.
Qed.

Lemma unsubscribe_then_publish_witness :
  ∃ b1,
    unsubscribe 0 demo_broker = Ok tt b1 ∧
    queues b1 = queues demo_broker ∧
    (0 ∉ _subs b1) ∧
    unsubscribe 0 b1 = Ok tt b1 ∧
    (∀ os p, ∃ b3,
       publish_str p (run os b1) = Ok tt b3 ∧
       queues b3 !! 0 = queues (run os b1) !! 0) ∧
    (∀ q', q' ∉ _subs demo_broker →
           unsubscribe q' demo_broker = Ok tt demo_broker).
Proof.
  apply (unsubscribe_then_publish demo_broker 0).
  - exact demo_broker_valid.
  - simpl. lia.
Defined.

Lemma refines_length b m :
  refines b m → length (queues b) = length (Mailbox.slots m).
Proof.
  intros [H _]. apply (f_equal length) in H. by rewrite !length_fmap in H.
Qed.

Lemma refines_lookup b m q :
  refines b m →
  Queue.queue <$> queues b !! q = option_list <$> Mailbox.slots m !! q.
Proof. intros [H _]. by rewrite <- !list_lookup_fmap, H. Qed.

Lemma refines_step b m o :
  valid b → refines b m → refines (final (step o b)) (Mailbox.step o m).
Proof.
  intros [Hlt Hnd] HR. pose proof HR as [Hq Hs].
  destruct o as [s|q'|p|q']; simpl; unfold bind.
  - rewrite subscribe_ok. split; simpl.
    + by rewrite !fmap_app, Hq.
    + by rewrite Hs, (refines_length _ _ HR).
  - rewrite unsubscribe_ok by done. split; simpl; [done|by rewrite Hs].
  - rewrite publish_ok by done. split; simpl; [|done].
    apply list_eq. intros i.
    rewrite !list_lookup_fmap, list_lookup_imap, <- Hs.
    pose proof (refines_lookup _ _ i HR) as Hi.
    destruct (decide (i ∈ _subs b)) as [Hin|Hnin].
    + rewrite put_all_lookup_in by done.
      rewrite bool_decide_eq_true_2 by done.
      destruct (queues b !! i), (Mailbox.slots m !! i); try done.
    + rewrite put_all_lookup_notin by done.
      rewrite bool_decide_eq_false_2 by done.
      destruct (queues b !! i), (Mailbox.slots m !! i) as [[]|];
        simpl in *; congruence.
  - pose proof (refines_lookup _ _ q' HR) as Hi.
    destruct (read_cases b q') as [(x & xs & ms & E & ->)|(E & e & ->)];
      simpl.
    + rewrite E in Hi. split; simpl; [|done].
      rewrite !list_fmap_insert. simpl. rewrite Hq.
      destruct (Mailbox.slots m !! q') as [[y|]|]; simpl in Hi; try done.
      by injection Hi as -> <-.
    + split; [|done]. rewrite Hq. f_equal. symmetry.
      apply list_insert_id'. intros Hlen.
      unfold pending in E.
      destruct (lookup_lt_is_Some_2 _ _ Hlen) as [sl Hsl].
      rewrite Hsl in Hi |- *.
      destruct (queues b !! q') as [qu|]; [|done].
      simpl in Hi. injection Hi as Hi. rewrite E in Hi.
      by destruct sl.
Qed.

Lemma refines_run os : ∀ b m,
  valid b → refines b m →
  valid (run os b) ∧ refines (run os b) (Mailbox.run os m).
Proof.
  induction os as [|o os IH]; intros b m Hv HR; simpl; [done|].
  apply IH; [by apply step_valid | by apply refines_step].
Qed.

Lemma at_most_one_step b o :
  valid b → at_most_one b → at_most_one (final (step o b)).
Proof.
  intros [Hlt Hnd] H1. unfold at_most_one in *.
  destruct o as [s|q'|p|q']; simpl; unfold bind.
  - rewrite subscribe_ok. simpl. apply Forall_app. split; [done|].
    repeat constructor.
  - by rewrite unsubscribe_ok.
  - rewrite publish_ok by done. simpl.
    apply Forall_lookup. intros i qu Hi.
    destruct (decide (i ∈ _subs b)) as [Hin|Hnin].
    + rewrite put_all_lookup_in in Hi by done.
      destruct (queues b !! i); [|done]. injection Hi as <-. simpl. lia.
    + rewrite put_all_lookup_notin in Hi by done.
      by eapply (proj1 (Forall_lookup _ _) H1).
  - destruct (read_cases b q') as [(x & xs & ms & E & ->)|(E & e & ->)];
      simpl; [|done].
    apply Forall_insert; [done|]. simpl.
    pose proof (proj1 (Forall_lookup _ _) H1 _ _ E) as Hx. simpl in Hx. lia.
Qed.

Lemma queue_primitives_bound qu item :
  Queue.maxsize qu = 1%Z → length (Queue.queue qu) ≤ 1 →
  (∀ qu', Queue.put_nowait item qu = Some qu' →
          Queue.maxsize qu' = 1%Z ∧ length (Queue.queue qu') ≤ 1) ∧
  (∀ x qu', Queue.get_nowait qu = Some (x, qu') →
            Queue.maxsize qu' = 1%Z ∧ length (Queue.queue qu') ≤ 1).
Proof.
  destruct qu as [ms items]. simpl. intros -> Hlen. split.
  - intros qu'. unfold Queue.put_nowait, Queue.qsize. simpl.
    destruct (1 <=? Z.of_nat (length items))%Z eqn:E; [done|].
    apply Z.leb_gt in E. intros [= <-]. simpl.
    rewrite length_app. simpl. lia.
  - intros x qu'. unfold Queue.get_nowait. simpl.
    destruct items as [|y ys]; [done|]. intros [= _ <-]. simpl in *. lia.
Qed.

(** C3: every operation of the broker and every read keeps each mailbox
    at one item at most; from the start on, each mailbox holds what the
    slot of the one-slot reading holds: nothing, or the latest snapshot
    sent to it and not read yet; and each single [put_nowait] and
    [get_nowait] on a queue of [maxsize] 1 keeps it at one item at most,
    so the bound holds between the steps of [_put_latest] too. *)
Theorem mailbox_at_most_one :
  (∀ b o, valid b → at_most_one b →
          valid (final (step o b)) ∧ at_most_one (final (step o b))) ∧
  (∀ os,
     let b := run os (init []) in
     let m := Mailbox.run os Mailbox.empty in
     _subs b = Mailbox.active m ∧
     length (queues b) = length (Mailbox.slots m) ∧
     ∀ q, pending b q = default [] (option_list <$> Mailbox.slots m !! q)) ∧
  (∀ qu item,
     Queue.maxsize qu = 1%Z → length (Queue.queue qu) ≤ 1 →
     (∀ qu', Queue.put_nowait item qu = Some qu' →
             Queue.maxsize qu' = 1%Z ∧ length (Queue.queue qu') ≤ 1) ∧
     (∀ x qu', Queue.get_nowait qu = Some (x, qu') →
               Queue.maxsize qu' = 1%Z ∧ length (Queue.queue qu') ≤ 1)).
Proof.
  split_and!.
  - intros b o Hv H1. split; [by apply step_valid | by apply at_most_one_step].
  - intros os.
    destruct (refines_run os (init []) Mailbox.empty (valid_init [])) as [_ HR];
      [done|].
    split_and!; [apply HR | by apply refines_length |].
    intros q. pose proof (refines_lookup _ _ q HR) as Hq.
    unfold pending. rewrite <- Hq. by destruct (queues _ !! q).
  - apply queue_primitives_bound.
Qed.

Lemma mailbox_at_most_one_witness :
  valid (final (step (Publish "A") demo_broker)) ∧
  at_most_one (final (step (Publish "A") demo_broker)).
Proof.
  apply (proj1 mailbox_at_most_one demo_broker (Publish "A")).
  - exact demo_broker_valid.
  - repeat constructor.
Defined.

End broker_invariant.

(** ** The event frames *)

Section frames.

Context `{PyBuiltins}.

Import StateStore Broker Server.

Lemma string_app_assoc (s1 s2 s3 : string) :
  (s1 +:+ s2) +:+ s3 = s1 +:+ (s2 +:+ s3).
Proof.
  induction s1 as [|c s1 IH]; [done|]. exact (f_equal (String c) IH).
Qed.

Lemma json_dumps_val (x : pyval) :
  json_dumps "," ":" (json_of_val x) = Wire.val x.
Proof. by destruct x. Qed.

Lemma json_dumps_dict (d : pydict) :
  json_dumps "," ":" (json_of_dict d) = Wire.object d.
Proof.
  unfold json_of_dict, Wire.object. cbn [json_dumps]. do 3 f_equal.
  rewrite map_map. apply map_ext. intros [k x]. simpl.
  by rewrite json_dumps_val.
Qed.

Lemma json_dumps_opt (o : option pydict) :
  json_dumps "," ":" (json_of_opt o) = Wire.object_or_null o.
Proof. destruct o; [apply json_dumps_dict | done]. Qed.

Lemma sse_wrap_state (v : StateV) : sse_wrap (json_of_state v) = Wire.event v.
Proof.
  unfold sse_wrap, Wire.event, Wire.state, json_of_state.
  cbn [json_dumps map String.concat].
  rewrite !json_dumps_opt, map_map.
  rewrite (map_ext _ _ json_dumps_dict).
  by rewrite !string_app_assoc.
Qed.

Lemma read_json_ok w d v :
  view_dict (objs w) d = Some v → read_json d w = Ok (json_of_state v) w.
Proof. intros Hd. unfold read_json. by rewrite Hd. Qed.

(** C10: the frame of a state is ["data: "], the compact JSON of the
    state with its three fields in the order auv, target, path and the
    separators [","] and [":"], then two line feeds; and the stream loop
    yields [": keep-alive"] and two line feeds when the read of the
    mailbox times out. *)
Theorem sse_frames :
  (∀ w d v, view_dict (objs w) d = Some v →
     (j <- read_json d ;; ret (sse_wrap j)) w
     = Ok ("data: " +:+ Wire.state v +:+ LF +:+ LF) w) ∧
  (∀ b q, q < length (queues b) → pending b q = [] →
     event_stream_next q b = Ok (": keep-alive" +:+ LF +:+ LF) b).
Proof.
  split.
  - intros w d v Hd. rewrite (bind_Ok _ _ _ _ _ (read_json_ok _ _ _ Hd)).
    unfold ret. by rewrite sse_wrap_state.
  - intros b q Hq Hempty.
    unfold event_stream_next, try_except, get_timeout, get_nowait.
    unfold pending in Hempty.
    destruct (lookup_lt_is_Some_2 _ _ Hq) as [[ms items] Hqu].
    rewrite Hqu in Hempty |- *. simpl in *. by subst items.
Qed.

End frames.

Lemma sse_frames_witness :
  (j <- read_json (StateStore.mkStateDict None None 6) ;;
   ret (@sse_wrap plain_builtins j)) demo_store
  = Ok ("data: "
        +:+ @Wire.state plain_builtins (StateStore.mkStateV None None [])
        +:+ LF +:+ LF)
       demo_store
  ∧
  Server.event_stream_next 1 demo_broker
  = Ok (": keep-alive" +:+ LF +:+ LF) demo_broker.
Proof.
  split.
  - apply (proj1 (@sse_frames plain_builtins)). reflexivity.
  - apply (proj2 (@sse_frames plain_builtins) demo_broker 1).
    + simpl. lia.
    + reflexivity.
Defined.

(** The frame of the empty state, with strings written as Python writes
    plain ones. *)
Example sse_wrap_empty_state :
  @sse_wrap plain_builtins
    (json_of_state (StateStore.mkStateV None None []))
  = "data: {" +:+ DQ +:+ "auv" +:+ DQ +:+ ":null,"
      +:+ DQ +:+ "target" +:+ DQ +:+ ":null,"
      +:+ DQ +:+ "path" +:+ DQ +:+ ":[]}" +:+ LF +:+ LF.
Proof. reflexivity. Qed.

(** ** The write path: store, then publish *)

Section boundary.

Context `{PyBuiltins}.

Import StateStore Broker Server.

Implicit Types (a : App) (v : StateV).

Lemma in_store_Ok {A} (m : M Store A) a x s :
  m (store a) = Ok x s → in_store m a = Ok x (mkApp s (broker a)).
Proof. intros E. unfold in_store. by rewrite E. Qed.

Lemma in_broker_Ok {A} (m : M Broker A) a x b :
  m (broker a) = Ok x b → in_broker m a = Ok x (mkApp (store a) b).
Proof. intros E. unfold in_broker. by rewrite E. Qed.

(** What [api_auv] and the facade do once the dict is made. *)
Lemma set_auv_publish a v l da :
  view (store a) = Some v →
  deref_dict (objs (store a)) l = Some da →
  Forall (λ q, q < length (queues (broker a))) (_subs (broker a)) →
  ∃ s',
    (state <- in_store (StateStore.set_auv l) ;; publish_state state) a
    = Ok tt (mkApp s'
               (mkBroker
                  (put_all
                     (Wire.event (mkStateV (Some da) (v_target v) (v_path v)))
                     (_subs (broker a)) (queues (broker a)))
                  (_subs (broker a)))) ∧
    view s' = Some (mkStateV (Some da) (v_target v) (v_path v)).
Proof.
  intros Hv Hda Hsubs.
  destruct (set_auv_ok _ _ _ _ Hv Hda) as (d & ext & Hrun & Hview & Hd & _).
  cbv zeta in *. rewrite Hview in Hd.
  eexists. split; [|exact Hview].
  rewrite (bind_Ok _ _ _ _ _ (in_store_Ok _ _ _ _ Hrun)).
  unfold publish_state.
  rewrite (bind_Ok _ _ _ _ _
             (in_store_Ok _ (mkApp _ _) _ _ (read_json_ok _ _ _ Hd))).
  rewrite sse_wrap_state. cbn [store broker].
  by rewrite (in_broker_Ok _ (mkApp _ _) _ _ (publish_ok _ _ Hsubs)).
Qed.

(** C7: right after [subscribe s] the handle is subscribed, its mailbox
    holds [s] and its first read gives [s], with no publish in between;
    so a stream that is opened yields the frame of the state of that
    moment first. *)
Theorem subscribe_first_read :
  (∀ b s,
     ∃ q b1,
       subscribe s b = Ok q b1 ∧
       q ∈ _subs b1 ∧
       pending b1 q = [s] ∧
       ∃ b2, get_timeout q b1 = Ok s b2)
  ∧
  (∀ a v, view (store a) = Some v →
     ∃ q a1,
       stream a = Ok q a1 ∧
       view (store a1) = Some v ∧
       ∃ b2, event_stream_next q (broker a1) = Ok (Wire.event v) b2).
Proof.
  split; [apply subscribe_read|].
  intros a v Hv. destruct (get_ok _ _ Hv) as (d & ext & Hrun & Hd & _).
  destruct (subscribe_read (broker a) (Wire.event v))
    as (q & b1 & Hsub & _ & _ & b2 & Hread).
  exists q, (mkApp (mkStore (objs (store a) ++ ext) (_state (store a))) b1).
  split_and!.
  - unfold stream.
    rewrite (bind_Ok _ _ _ _ _ (in_store_Ok _ _ _ _ Hrun)).
    rewrite (bind_Ok _ _ _ _ _
               (in_store_Ok _ (mkApp _ _) _ _
                  (read_json_ok (mkStore _ _) _ _ Hd))).
    rewrite sse_wrap_state.
    by rewrite (in_broker_Ok _ (mkApp _ _) _ _ Hsub).
  - by apply view3_app.
  - exists b2. unfold event_stream_next, try_except. cbn [broker].
    by rewrite Hread.
Qed.

Lemma api_auv_ok body a v lat lon alt heading ts :
  let data := request_data body in
  view (store a) = Some v →
  Forall (λ q, q < length (queues (broker a))) (_subs (broker a)) →
  float_at data "lat" = inr lat →
  float_at data "lon" = inr lon →
  in_range lat lon = true →
  float_or_none data "alt" = inr alt →
  float_or_none data "heading" = inr heading →
  timestamp_of data = inr ts →
  let v' := mkStateV (Some (auv_dict lat lon alt heading ts))
              (v_target v) (v_path v) in
  ∃ s',
    api_auv body a
    = Ok (Text "" 204)
         (mkApp s' (mkBroker
                      (put_all (Wire.event v') (_subs (broker a))
                         (queues (broker a)))
                      (_subs (broker a)))) ∧
    view s' = Some v'.
Proof.
  intros data Hv Hsubs Hlat Hlon Hrange Halt Hhead Hts v'.
  unfold api_auv. fold data.
  set (h := objs (store a)).
  set (ll := [("lat", VFloat lat); ("lon", VFloat lon)] : pydict).
  set (w2 := mkStore ((h ++ [ODict ll])
                      ++ [ODict (auv_dict lat lon alt heading ts)])
                     (_state (store a))).
  assert (in_store
            (try_except
               (latlon <- validate_latlon data ;;
                ll <- load_dict latlon ;;
                alt <- of_result (float_or_none data "alt") ;;
                heading <- of_result (float_or_none data "heading") ;;
                timestamp <- of_result (timestamp_of data) ;;
                a <- alloc (ODict (dict_set "timestamp" timestamp
                                     (dict_set "heading" heading
                                        (dict_set "alt" alt ll)))) ;;
                ret (inl a))
               is_ValueError
               (λ e, ret (inr (Jsonify
                                 (JDict [("error",
                                          JStr match e with
                                               | ValueError msg => msg
                                               | _ => ""
                                               end)])
                                 400)))) a
          = Ok (inl (S (length h))) (mkApp w2 (broker a))) as Hmake.
  { apply in_store_Ok. unfold try_except, validate_latlon.
    rewrite Hlat, Hlon, Halt, Hhead, Hts.
    unfold bind, of_result, ret. cbn -[in_range]. rewrite Hrange. cbn [negb].
    unfold alloc, load_dict. cbn [objs _state].
    rewrite list_lookup_middle by done.
    cbn [objs _state]. unfold w2, h. rewrite length_app. cbn [length].
    rewrite Nat.add_1_r. reflexivity. }
  rewrite (bind_Ok _ _ _ _ _ Hmake).
  destruct (set_auv_publish (mkApp w2 (broker a)) v (S (length h))
              (auv_dict lat lon alt heading ts))
    as (s' & Hrun & Hview).
  { unfold view, w2. cbn [store objs _state]. by do 2 apply view3_app. }
  { unfold w2. cbn [store objs]. replace (S (length h)) with (length (h ++ [ODict ll]))
      by (rewrite length_app; simpl; lia).
    apply deref_dict_new. }
  { done. }
  cbn [store broker] in Hrun.
  exists s'. split; [|exact Hview].
  unfold bind in Hrun |- *.
  destruct (in_store (StateStore.set_auv (S (length h))) (mkApp w2 (broker a)))
    as [st a3|]; [|done].
  by rewrite Hrun.
Qed.

Lemma facade_set_auv_ok a v lat lon alt heading timestamp :
  view (store a) = Some v →
  Forall (λ q, q < length (queues (broker a))) (_subs (broker a)) →
  let v' := mkStateV
              (Some (auv_dict lat lon (AuvTracker.opt_val alt)
                       (AuvTracker.opt_val heading) (VStr timestamp)))
              (v_target v) (v_path v) in
  ∃ s',
    AuvTracker.set_auv lat lon alt heading timestamp a
    = Ok tt
         (mkApp s' (mkBroker
                      (put_all (Wire.event v') (_subs (broker a))
                         (queues (broker a)))
                      (_subs (broker a)))) ∧
    view s' = Some v'.
Proof.
  intros Hv Hsubs v'. unfold AuvTracker.set_auv.
  set (da := auv_dict lat lon (AuvTracker.opt_val alt)
               (AuvTracker.opt_val heading) (VStr timestamp)).
  rewrite (bind_Ok _ _ _ _ _ (in_store_Ok (alloc (ODict da)) a _ _ eq_refl)).
  destruct (set_auv_publish
              (mkApp (mkStore (objs (store a) ++ [ODict da]) (_state (store a)))
                 (broker a))
              v (length (objs (store a))) da)
    as (s' & Hrun & Hview).
  { unfold view. cbn [store objs _state]. by apply view3_app. }
  { apply deref_dict_new. }
  { done. }
  exists s'. by split.
Qed.

(** The call of the store by [api_auv]: the handler has made the dict
    of the position and hands it to [StateStore.set_auv]. *)
Lemma api_auv_to_store body a v lat lon alt heading ts :
  let data := request_data body in
  view (store a) = Some v →
  float_at data "lat" = inr lat →
  float_at data "lon" = inr lon →
  in_range lat lon = true →
  float_or_none data "alt" = inr alt →
  float_or_none data "heading" = inr heading →
  timestamp_of data = inr ts →
  ∃ l s2,
    api_auv body a
    = (state <- in_store (StateStore.set_auv l) ;;
       publish_state state ;;;
       ret (Text "" 204)) (mkApp s2 (broker a)) ∧
    deref_dict (objs s2) l = Some (auv_dict lat lon alt heading ts) ∧
    view s2 = Some v.
Proof.
  intros data Hv Hlat Hlon Hrange Halt Hhead Hts.
  unfold api_auv. fold data.
  set (h := objs (store a)).
  set (ll := [("lat", VFloat lat); ("lon", VFloat lon)] : pydict).
  set (w2 := mkStore ((h ++ [ODict ll])
                      ++ [ODict (auv_dict lat lon alt heading ts)])
                     (_state (store a))).
  assert (in_store
            (try_except
               (latlon <- validate_latlon data ;;
                ll <- load_dict latlon ;;
                alt <- of_result (float_or_none data "alt") ;;
                heading <- of_result (float_or_none data "heading") ;;
                timestamp <- of_result (timestamp_of data) ;;
                a <- alloc (ODict (dict_set "timestamp" timestamp
                                     (dict_set "heading" heading
                                        (dict_set "alt" alt ll)))) ;;
                ret (inl a))
               is_ValueError
               (λ e, ret (inr (Jsonify
                                 (JDict [("error",
                                          JStr match e with
                                               | ValueError msg => msg
                                               | _ => ""
                                               end)])
                                 400)))) a
          = Ok (inl (S (length h))) (mkApp w2 (broker a))) as Hmake.
  { apply in_store_Ok. unfold try_except, validate_latlon.
    rewrite Hlat, Hlon, Halt, Hhead, Hts.
    unfold bind, of_result, ret. cbn -[in_range]. rewrite Hrange. cbn [negb].
    unfold alloc, load_dict. cbn [objs _state].
    rewrite list_lookup_middle by done.
    cbn [objs _state]. unfold w2, h. rewrite length_app. cbn [length].
    rewrite Nat.add_1_r. reflexivity. }
  rewrite (bind_Ok _ _ _ _ _ Hmake). cbv beta iota.
  exists (S (length h)), w2. split_and!; [done| |].
  - unfold w2. cbn [objs].
    replace (S (length h)) with (length (h ++ [ODict ll]))
      by (rewrite length_app; simpl; lia).
    apply deref_dict_new.
  - unfold view, w2. cbn [objs _state]. by do 2 apply view3_app.
Qed.

(** [StateStore.set_auv] returns the new full snapshot to the one that
    calls it, and [publish_state] sends its frame. *)
Lemma set_auv_returns a v l da :
  view (store a) = Some v →
  deref_dict (objs (store a)) l = Some da →
  Forall (λ q, q < length (queues (broker a))) (_subs (broker a)) →
  let v' := mkStateV (Some da) (v_target v) (v_path v) in
  ∃ d s3,
    in_store (StateStore.set_auv l) a = Ok d (mkApp s3 (broker a)) ∧
    view_dict (objs s3) d = Some v' ∧
    view s3 = Some v' ∧
    publish_state d (mkApp s3 (broker a))
    = Ok tt (mkApp s3 (mkBroker
                         (put_all (Wire.event v') (_subs (broker a))
                            (queues (broker a)))
                         (_subs (broker a)))).
Proof.
  intros Hv Hda Hsubs v'.
  destruct (set_auv_ok _ _ _ _ Hv Hda) as (d & ext & Hrun & Hview & Hd & _).
  cbv zeta in *. rewrite Hview in Hd.
  eexists d, _. split_and!; [by apply in_store_Ok|exact Hd|exact Hview|].
  unfold publish_state.
  rewrite (bind_Ok _ _ _ _ _
             (in_store_Ok _ (mkApp _ _) _ _ (read_json_ok _ _ _ Hd))).
  rewrite sse_wrap_state. cbn [store broker].
  by rewrite (in_broker_Ok _ (mkApp _ _) _ _ (publish_ok _ _ Hsubs)).
Qed.

(** C5, as the code has it: given position fields that pass the checks,
    [api_auv] makes the dict of the position and calls
    [StateStore.set_auv] with it; that call returns the new full snapshot
    to the handler, which sends its frame to every subscriber and replies
    with an empty body and status 204.  The facade [AuvTracker.set_auv]
    does the same and returns nothing. *)
Theorem update_position_reply a v :
  view (store a) = Some v →
  Forall (λ q, q < length (queues (broker a))) (_subs (broker a)) →
  (∀ body lat lon alt heading ts,
     float_at (request_data body) "lat" = inr lat →
     float_at (request_data body) "lon" = inr lon →
     in_range lat lon = true →
     float_or_none (request_data body) "alt" = inr alt →
     float_or_none (request_data body) "heading" = inr heading →
     timestamp_of (request_data body) = inr ts →
     let v' := mkStateV (Some (auv_dict lat lon alt heading ts))
                 (v_target v) (v_path v) in
     ∃ l a2 d a3 a',
       api_auv body a
       = (state <- in_store (StateStore.set_auv l) ;;
          publish_state state ;;;
          ret (Text "" 204)) a2 ∧
       deref_dict (objs (store a2)) l
       = Some (auv_dict lat lon alt heading ts) ∧
       in_store (StateStore.set_auv l) a2 = Ok d a3 ∧
       view_dict (objs (store a3)) d = Some v' ∧
       view (store a3) = Some v' ∧
       api_auv body a = Ok (Text "" 204) a' ∧
       view (store a') = Some v' ∧
       _subs (broker a') = _subs (broker a) ∧
       ∀ q, q ∈ _subs (broker a) → pending (broker a') q = [Wire.event v'])
  ∧
  (∀ lat lon alt heading timestamp,
     let da := auv_dict lat lon (AuvTracker.opt_val alt)
                 (AuvTracker.opt_val heading) (VStr timestamp) in
     let v' := mkStateV (Some da) (v_target v) (v_path v) in
     ∃ l a2 d a3 a',
       AuvTracker.set_auv lat lon alt heading timestamp a
       = (state <- in_store (StateStore.set_auv l) ;;
          publish_state state) a2 ∧
       deref_dict (objs (store a2)) l = Some da ∧
       in_store (StateStore.set_auv l) a2 = Ok d a3 ∧
       view_dict (objs (store a3)) d = Some v' ∧
       view (store a3) = Some v' ∧
       AuvTracker.set_auv lat lon alt heading timestamp a = Ok tt a' ∧
       view (store a') = Some v' ∧
       _subs (broker a') = _subs (broker a) ∧
       ∀ q, q ∈ _subs (broker a) → pending (broker a') q = [Wire.event v']).
Proof.
  intros Hv Hsubs.
  assert (∀ item q, q ∈ _subs (broker a) →
            pending (mkBroker (put_all item (_subs (broker a))
                                 (queues (broker a))) (_subs (broker a))) q
            = [item]) as Hpend.
  { intros item q Hq. unfold pending. cbn [queues].
    rewrite put_all_lookup_in by done.
    rewrite Forall_forall in Hsubs.
    by destruct (lookup_lt_is_Some_2 _ _ (Hsubs _ Hq)) as [qu ->]. }
  split.
  - intros body lat lon alt heading ts Hlat Hlon Hrange Halt Hhead Hts v'.
    destruct (api_auv_to_store body a v lat lon alt heading ts
                Hv Hlat Hlon Hrange Halt Hhead Hts)
      as (l & s2 & Hcall & Hl & Hv2).
    destruct (set_auv_returns (mkApp s2 (broker a)) v l _ Hv2 Hl Hsubs)
      as (d & s3 & Hset & Hd & Hv3 & Hpub).
    cbn [store broker] in Hset, Hpub.
    eexists l, (mkApp s2 (broker a)), d, (mkApp s3 (broker a)), _.
    split_and!; [exact Hcall|exact Hl|exact Hset|exact Hd|exact Hv3| | | |].
    + rewrite Hcall. rewrite (bind_Ok _ _ _ _ _ Hset).
      by rewrite (bind_Ok _ _ _ _ _ Hpub).
    + exact Hv3.
    + done.
    + apply Hpend.
  - intros lat lon alt heading timestamp da v'.
    set (s2 := mkStore (objs (store a) ++ [ODict da]) (_state (store a))).
    assert (view s2 = Some v) as Hv2.
    { unfold view, s2. cbn [objs _state]. by apply view3_app. }
    assert (deref_dict (objs s2) (length (objs (store a))) = Some da) as Hl.
    { apply deref_dict_new. }
    destruct (set_auv_returns (mkApp s2 (broker a)) v _ _ Hv2 Hl Hsubs)
      as (d & s3 & Hset & Hd & Hv3 & Hpub).
    cbn [store broker] in Hset, Hpub.
    assert (AuvTracker.set_auv lat lon alt heading timestamp a
            = (state <- in_store (StateStore.set_auv (length (objs (store a)))) ;;
               publish_state state) (mkApp s2 (broker a))) as Hcall.
    { unfold AuvTracker.set_auv.
      by rewrite (bind_Ok _ _ _ _ _
                    (in_store_Ok (alloc (ODict da)) a _ _ eq_refl)). }
    eexists _, (mkApp s2 (broker a)), d, (mkApp s3 (broker a)), _.
    split_and!; [exact Hcall|exact Hl|exact Hset|exact Hd|exact Hv3| | | |].
    + rewrite Hcall. rewrite (bind_Ok _ _ _ _ _ Hset). exact Hpub.
    + exact Hv3.
    + done.
    + apply Hpend.
Qed.

End boundary.

Lemma subscribe_first_read_witness :
  ∃ q a1,
    @Server.stream plain_builtins demo_app = Ok q a1 ∧
    StateStore.view (Server.store a1) = Some demo_view ∧
    ∃ b2, Server.event_stream_next q (Server.broker a1)
          = Ok (@Wire.event plain_builtins demo_view) b2.
Proof.
  apply (proj2 (@subscribe_first_read plain_builtins) demo_app demo_view).
  reflexivity.
Defined.

Lemma update_position_reply_witness :
  ∃ l a2 d a3 a',
    @Server.api_auv plain_builtins demo_body demo_app
    = (state <- Server.in_store (StateStore.set_auv l) ;;
       @Server.publish_state plain_builtins state ;;;
       ret (Server.Text "" 204)) a2 ∧
    StateStore.deref_dict (StateStore.objs (Server.store a2)) l
    = Some (auv_dict 32.5 34.75 VNone VNone (VStr "")) ∧
    Server.in_store (StateStore.set_auv l) a2 = Ok d a3 ∧
    StateStore.view_dict (StateStore.objs (Server.store a3)) d
    = Some (StateStore.mkStateV
              (Some (auv_dict 32.5 34.75 VNone VNone (VStr "")))
              None (StateStore.v_path demo_view)) ∧
    StateStore.view (Server.store a3)
    = Some (StateStore.mkStateV
              (Some (auv_dict 32.5 34.75 VNone VNone (VStr "")))
              None (StateStore.v_path demo_view)) ∧
    @Server.api_auv plain_builtins demo_body demo_app
    = Ok (Server.Text "" 204) a' ∧
    StateStore.view (Server.store a')
    = Some (StateStore.mkStateV
              (Some (auv_dict 32.5 34.75 VNone VNone (VStr "")))
              None (StateStore.v_path demo_view)) ∧
    Broker._subs (Server.broker a') = [0; 1] ∧
    ∀ q, q ∈ [0; 1] →
      Broker.pending (Server.broker a') q
      = [@Wire.event plain_builtins
           (StateStore.mkStateV
              (Some (auv_dict 32.5 34.75 VNone VNone (VStr "")))
              None (StateStore.v_path demo_view))].
Proof.
  apply (proj1 (@update_position_reply plain_builtins demo_app demo_view
                  eq_refl ltac:(repeat constructor; simpl; lia))
           demo_body 32.5%float 34.75%float VNone VNone (VStr ""));
    reflexivity.
Defined.

(** C5 as it is stated does not hold, for the handler and for the facade:
    the reply of [api_auv] to a position that passes the checks is an
    empty body with status 204, not the state; and
    [AuvTracker.set_auv] hands back [None], not a snapshot. *)
Lemma update_position_returns_no_snapshot :
  (@Server.api_auv plain_builtins demo_body demo_app
   = Ok (Server.Text "" 204)
        (final (@Server.api_auv plain_builtins demo_body demo_app))
   ∧ ¬ returns_snapshot (@Server.api_auv plain_builtins demo_body demo_app))
  ∧
  (@AuvTracker.set_auv plain_builtins 32.5 34.75 None None "" demo_app
   = Ok tt
        (final (@AuvTracker.set_auv plain_builtins 32.5 34.75 None None ""
                  demo_app))
   ∧ ¬ hands_snapshot
         ((u <- @AuvTracker.set_auv plain_builtins 32.5 34.75 None None "" ;;
           ret (handed u)) demo_app)).
Proof.
  split; (split; [reflexivity|]).
  - intros (status & a' & v' & Hr & _). vm_compute in Hr. discriminate Hr.
  - intros (d & a' & v' & Hr & _). vm_compute in Hr. discriminate Hr.
Qed.

(** ** The scenarios of the specification, run on the model *)

(** Empty state, then a position, a target, a path that replaces and a
    path that appends: the state reads as the four arguments say. *)
Example scenario_store :
  StateStore.view
    (StateStore.run_calls
       [StateStore.CSetAuv 1; StateStore.CSetTarget (Some 0);
        StateStore.CSetPath 5 "replace"; StateStore.CSetPath 4 "append"]
       (StateStore.init demo_objs))
  = Some (StateStore.mkStateV
            (Some [("lat", VFloat 32.125); ("lon", VFloat 34.5);
                   ("alt", VNone); ("heading", VFloat 90);
                   ("timestamp", VStr "t0")])
            (Some [("lat", VFloat 32.5); ("lon", VFloat 34.75)])
            ([("lat", VFloat 32.5); ("lon", VFloat 34.75)] :: demo_points)).
Proof. reflexivity. Qed.

(** Two subscribers; publish A, the first reads, publish B: the first
    reads A and then B, the second reads B only, and then nothing. *)
Example scenario_two_subscribers :
  ∃ b,
    (s1 <- Broker.subscribe "S" ;;
     s2 <- Broker.subscribe "S" ;;
     Broker.publish_str "A" ;;;
     x1 <- Broker.get_timeout s1 ;;
     Broker.publish_str "B" ;;;
     x2 <- Broker.get_timeout s1 ;;
     y <- Broker.get_timeout s2 ;;
     z <- Server.event_stream_next s2 ;;
     ret (x1, x2, y, z)) (Broker.init [])
    = Ok ("A", "B", "B", Server.keep_alive) b.
Proof. eexists. reflexivity. Qed.

(** * Further properties: validation, the other handlers, the facade *)

(** ** [validate_latlon] *)

Section validation.

Context `{PyBuiltins}.

Import StateStore Broker Server.

Implicit Types (w : Store) (d : json).

Lemma float_at_exception d k e : float_at d k = inl e → is_exception e = true.
Proof.
  unfold float_at, subscript, py_float.
  destruct d as [| | | | |xs|kvs]; try (by intros [= <-]).
  destruct (assoc k kvs) as [x|]; [|by intros [= <-]].
  destruct x as [|b|z|f|s|xs|kvs']; try (by intros [= <-]).
  - destruct (float_of_int z); by intros [= <-].
  - destruct (float_of_str s); by intros [= <-].
Qed.

Lemma validate_latlon_ok d w lat lon :
  float_at d "lat" = inr lat → float_at d "lon" = inr lon →
  in_range lat lon = true →
  validate_latlon d w
  = Ok (length (objs w))
       (mkStore (objs w ++ [ODict (latlon_dict lat lon)]) (_state w)).
Proof.
  intros Hlat Hlon Hrange. unfold validate_latlon, try_except.
  rewrite Hlat, Hlon. unfold bind, of_result, ret. cbn -[in_range].
  by rewrite Hrange.
Qed.

Lemma validate_latlon_out_of_range d w lat lon :
  float_at d "lat" = inr lat → float_at d "lon" = inr lon →
  in_range lat lon = false →
  validate_latlon d w = Raise (ValueError "lat/lon out of range") w.
Proof.
  intros Hlat Hlon Hrange. unfold validate_latlon, try_except.
  rewrite Hlat, Hlon. unfold bind, of_result, ret. cbn -[in_range].
  by rewrite Hrange.
Qed.

Lemma validate_latlon_not_numeric d w :
  (∃ e, float_at d "lat" = inl e) ∨ (∃ e, float_at d "lon" = inl e) →
  validate_latlon d w = Raise (ValueError "lat/lon required and numeric") w.
Proof.
  intros Hbad. unfold validate_latlon, try_except, bind, of_result, ret, raise.
  destruct (float_at d "lat") as [e1|lat] eqn:Hlat.
  - by rewrite (float_at_exception _ _ _ Hlat).
  - destruct Hbad as [[e He]|[e He]]; [done|]. rewrite He.
    by rewrite (float_at_exception _ _ _ He).
Qed.

(* The three ways out of [validate_latlon]. *)
Lemma validate_latlon_split d w :
  (∃ lat lon,
     float_at d "lat" = inr lat ∧ float_at d "lon" = inr lon ∧
     in_range lat lon = true ∧
     validate_latlon d w
     = Ok (length (objs w))
          (mkStore (objs w ++ [ODict (latlon_dict lat lon)]) (_state w)))
  ∨
  (((∃ e, float_at d "lat" = inl e) ∨ (∃ e, float_at d "lon" = inl e)) ∧
   validate_latlon d w = Raise (ValueError "lat/lon required and numeric") w)
  ∨
  (∃ lat lon,
     float_at d "lat" = inr lat ∧ float_at d "lon" = inr lon ∧
     in_range lat lon = false ∧
     validate_latlon d w = Raise (ValueError "lat/lon out of range") w).
Proof.
  destruct (float_at d "lat") as [e1|lat] eqn:Hlat.
  { right. left. split; [eauto|]. apply validate_latlon_not_numeric.
    left. eauto. }
  destruct (float_at d "lon") as [e2|lon] eqn:Hlon.
  { right. left. split; [eauto|]. apply validate_latlon_not_numeric.
    right. eauto. }
  destruct (in_range lat lon) eqn:Hrange.
  - left. exists lat, lon. split_and!; try done.
    by apply validate_latlon_ok.
  - right. right. exists lat, lon. split_and!; try done.
    by apply (validate_latlon_out_of_range d w lat lon).
Qed.

(** [validate_latlon] returns a new dict that holds the two floats and
    nothing else, when both are there, numeric and in range; otherwise it
    raises [ValueError] with one of its two messages and leaves every
    object as it was.  No other exception leaves it. *)
Theorem validate_latlon_cases d w :
  (∃ lat lon,
     float_at d "lat" = inr lat ∧ float_at d "lon" = inr lon ∧
     in_range lat lon = true ∧
     validate_latlon d w
     = Ok (length (objs w))
          (mkStore (objs w ++ [ODict (latlon_dict lat lon)]) (_state w)))
  ∨
  (((∃ e, float_at d "lat" = inl e) ∨ (∃ e, float_at d "lon" = inl e)) ∧
   validate_latlon d w = Raise (ValueError "lat/lon required and numeric") w)
  ∨
  (∃ lat lon,
     float_at d "lat" = inr lat ∧ float_at d "lon" = inr lon ∧
     in_range lat lon = false ∧
     validate_latlon d w = Raise (ValueError "lat/lon out of range") w).
Proof. exact (validate_latlon_split d w). Qed.

(** What the comparisons of [in_range] say of a float. *)
Lemma SFcompare_refl_finite s m e :
  SFcompare (S754_finite s m e) (S754_finite s m e) = Some Eq.
Proof.
  simpl. rewrite Z.compare_refl, Pos.compare_cont_refl. by destruct s.
Qed.

Lemma between_finite (lo hi f : float) :
  Prim2SF lo ≠ S754_nan → Prim2SF hi ≠ S754_nan →
  Prim2SF lo ≠ S754_infinity false → Prim2SF hi ≠ S754_infinity true →
  Prim2SF lo ≠ S754_infinity true → Prim2SF hi ≠ S754_infinity false →
  PrimFloat.leb lo f = true → PrimFloat.leb f hi = true →
  PrimFloat.is_finite f = true.
Proof.
  intros Hlo Hhi Hlo1 Hhi1 Hlo2 Hhi2. rewrite !FloatAxioms.leb_spec.
  unfold PrimFloat.is_finite, PrimFloat.is_nan, PrimFloat.is_infinity.
  rewrite !FloatAxioms.eqb_spec, FloatAxioms.abs_spec.
  change (Prim2SF infinity) with (S754_infinity false).
  unfold SFleb, SFeqb.
  destruct (Prim2SF f) as [s| [|] | |s m e] eqn:Ef; simpl.
  - done.
  - destruct (Prim2SF lo) as [|[|]| |]; simpl; done.
  - intros _. destruct (Prim2SF hi) as [|[|]| |]; simpl; done.
  - destruct (Prim2SF lo); simpl; done.
  - intros _ _. rewrite Z.compare_refl, Pos.compare_cont_refl.
    by destruct s.
Qed.

Lemma in_range_finite lat lon :
  in_range lat lon = true →
  PrimFloat.is_finite lat = true ∧ PrimFloat.is_finite lon = true.
Proof.
  unfold in_range. intros [[H1 H2]%andb_true_iff [H3 H4]%andb_true_iff]%andb_true_iff.
  split; (eapply between_finite; [..|eassumption|eassumption]);
    by vm_compute.
Qed.

(** A dict that [validate_latlon] returns holds finite floats: NaN and the
    infinities are turned down like any value out of range. *)
Theorem validate_latlon_finite d w l w' :
  validate_latlon d w = Ok l w' →
  ∃ lat lon,
    deref_dict (objs w') l = Some (latlon_dict lat lon) ∧
    in_range lat lon = true ∧
    PrimFloat.is_finite lat = true ∧ PrimFloat.is_finite lon = true.
Proof.
  intros Hrun.
  destruct (validate_latlon_split d w)
    as [(lat & lon & _ & _ & Hrange & E)|[[_ E]|(lat & lon & _ & _ & _ & E)]];
    rewrite E in Hrun; [|done..].
  injection Hrun as <- <-. exists lat, lon.
  destruct (in_range_finite _ _ Hrange) as [Hlat Hlon].
  split_and!; [apply deref_dict_new|done..].
Qed.

End validation.

Lemma validate_latlon_finite_witness :
  ∃ lat lon,
    StateStore.deref_dict (demo_objs ++ [ODict (latlon_dict 32.5 34.75)]) 7
    = Some (latlon_dict lat lon) ∧
    Server.in_range lat lon = true ∧
    PrimFloat.is_finite lat = true ∧ PrimFloat.is_finite lon = true.
Proof.
  apply (@validate_latlon_finite plain_builtins
           (JDict [("lat", JFloat 32.5); ("lon", JFloat 34.75)])
           demo_store 7
           (StateStore.mkStore (demo_objs ++ [ODict (latlon_dict 32.5 34.75)])
              (StateStore._state demo_store))).
  reflexivity.
Defined.

(** ** [api_auv]: what a request that is turned down leaves *)

Section auv_rejects.

Context `{PyBuiltins}.

Import StateStore Broker Server.

Implicit Types (a : App) (v : StateV).

Ltac auv_turned_down :=
  cbn; split_and!;
  [ intros ?; discriminate | done | done
  | try done; by apply view3_app ].

(** With a store that reads and subscribers that exist, [api_auv] either
    replies 204, or leaves the stored state and every mailbox as they
    were: a request that is turned down, with a reply 400 or with an
    exception, has stored and published nothing. *)
Theorem api_auv_atomic body a v :
  view (store a) = Some v → handles_exist (broker a) →
  (∃ a', api_auv body a = Ok (Text "" 204) a') ∨
  ((∀ a', api_auv body a ≠ Ok (Text "" 204) a') ∧
   broker (final (api_auv body a)) = broker a ∧
   _state (store (final (api_auv body a))) = _state (store a) ∧
   view (store (final (api_auv body a))) = Some v).
Proof.
  intros Hv Hsubs. set (data := request_data body).
  destruct (validate_latlon_split data (store a))
    as [(lat & lon & Hlat & Hlon & Hrange & E)
       |[[_ E]|(lat & lon & _ & _ & _ & E)]].
  - destruct (float_or_none data "alt") as [e1|alt] eqn:Halt;
      [|destruct (float_or_none data "heading") as [e2|heading] eqn:Hhead;
        [|destruct (timestamp_of data) as [e3|ts] eqn:Hts]].
    4: { left.
         destruct (api_auv_ok body a v lat lon alt heading ts
                     Hv Hsubs Hlat Hlon Hrange Halt Hhead Hts)
           as (s' & Hrun & _).
         eauto. }
    all: right; unfold api_auv; fold data;
      unfold in_store, try_except, bind; rewrite E;
      unfold load_dict; cbn [objs]; rewrite list_lookup_middle by done;
      rewrite ?Halt, ?Hhead, ?Hts; cbn.
    + destruct (is_ValueError e1); auv_turned_down.
    + destruct (is_ValueError e2); auv_turned_down.
    + destruct (is_ValueError e3); auv_turned_down.
  - right. unfold api_auv. fold data.
    unfold in_store, try_except, bind. rewrite E. auv_turned_down.
  - right. unfold api_auv. fold data.
    unfold in_store, try_except, bind. rewrite E. auv_turned_down.
Qed.

Lemma api_auv_not_numeric body a :
  (∃ e, float_at (request_data body) "lat" = inl e) ∨
  (∃ e, float_at (request_data body) "lon" = inl e) →
  api_auv body a = Ok (error_reply "lat/lon required and numeric") a.
Proof.
  intros Hbad. unfold api_auv.
  unfold in_store, try_except, bind.
  rewrite (validate_latlon_not_numeric (request_data body) (store a) Hbad).
  cbn. by destruct a.
Qed.

(** A body that is no JSON, or empty, or without a numeric lat and lon,
    gets the reply 400 with "lat/lon required and numeric"; a position out
    of range (NaN and the infinities too) gets 400 with "lat/lon out of
    range"; in both cases nothing at all has changed. *)
Theorem api_auv_bad_position body a :
  let data := request_data body in
  (((∃ e, float_at data "lat" = inl e) ∨ (∃ e, float_at data "lon" = inl e)) →
   api_auv body a = Ok (error_reply "lat/lon required and numeric") a)
  ∧
  (∀ lat lon,
     float_at data "lat" = inr lat → float_at data "lon" = inr lon →
     in_range lat lon = false →
     api_auv body a = Ok (error_reply "lat/lon out of range") a).
Proof.
  intros data. split.
  - apply api_auv_not_numeric.
  - intros lat lon Hlat Hlon Hrange. unfold api_auv. fold data.
    unfold in_store, try_except, bind.
    rewrite (validate_latlon_out_of_range data (store a) lat lon Hlat Hlon Hrange).
    cbn. by destruct a.
Qed.

End auv_rejects.

Lemma api_auv_atomic_witness :
  (∃ a', @Server.api_auv plain_builtins demo_body demo_app
         = Ok (Server.Text "" 204) a') ∨
  ((∀ a', @Server.api_auv plain_builtins demo_body demo_app
          ≠ Ok (Server.Text "" 204) a') ∧
   Server.broker (final (@Server.api_auv plain_builtins demo_body demo_app))
   = Server.broker demo_app ∧
   StateStore._state
     (Server.store (final (@Server.api_auv plain_builtins demo_body demo_app)))
   = StateStore._state (Server.store demo_app) ∧
   StateStore.view
     (Server.store (final (@Server.api_auv plain_builtins demo_body demo_app)))
   = Some demo_view).
Proof.
  apply (@api_auv_atomic plain_builtins demo_body demo_app demo_view).
  - reflexivity.
  - repeat constructor; simpl; lia.
Defined.

Lemma api_auv_bad_position_witness :
  @Server.api_auv plain_builtins None demo_app
  = Ok (Server.error_reply "lat/lon required and numeric") demo_app
  ∧
  @Server.api_auv plain_builtins
    (Some (JDict [("lat", JFloat 91); ("lon", JFloat 0)])) demo_app
  = Ok (Server.error_reply "lat/lon out of range") demo_app.
Proof.
  split.
  - apply (proj1 (@api_auv_bad_position plain_builtins None demo_app)).
    left. eexists. reflexivity.
  - apply (proj2 (@api_auv_bad_position plain_builtins
                    (Some (JDict [("lat", JFloat 91); ("lon", JFloat 0)]))
                    demo_app) 91%float 0%float); reflexivity.
Defined.

(** ** Store, then publish: the common end of the write paths *)

Section write_paths.

Context `{PyBuiltins}.

Import StateStore Broker Server.

Implicit Types (a : App) (v : StateV) (b : Broker).

Lemma publish_state_ok a d v :
  view_dict (objs (store a)) d = Some v → handles_exist (broker a) →
  publish_state d a
  = Ok tt (mkApp (store a) (published (Wire.event v) (broker a))).
Proof.
  intros Hd Hsubs. unfold publish_state.
  rewrite (bind_Ok _ _ _ _ _ (in_store_Ok _ a _ _ (read_json_ok _ _ _ Hd))).
  rewrite sse_wrap_state.
  rewrite (in_broker_Ok _ (mkApp _ _) _ _ (publish_ok _ _ Hsubs)).
  by destruct a.
Qed.

Lemma store_then_publish (m : M Store StateDict) a d w' v' :
  m (store a) = Ok d w' → view_dict (objs w') d = Some v' →
  handles_exist (broker a) →
  (state <- in_store m ;; publish_state state) a
  = Ok tt (mkApp w' (published (Wire.event v') (broker a))).
Proof.
  intros Hm Hd Hsubs.
  rewrite (bind_Ok _ _ _ _ _ (in_store_Ok _ _ _ _ Hm)).
  by rewrite (publish_state_ok (mkApp w' (broker a)) d v' Hd Hsubs).
Qed.

Lemma pending_published item b q :
  handles_exist b → q ∈ _subs b → pending (published item b) q = [item].
Proof.
  intros Hsubs Hq. unfold pending, published. cbn [queues].
  rewrite put_all_lookup_in by done.
  unfold handles_exist in Hsubs. rewrite Forall_forall in Hsubs.
  by destruct (lookup_lt_is_Some_2 _ _ (Hsubs _ Hq)) as [qu ->].
Qed.

Lemma py_float_exception x e : py_float x = inl e → is_exception e = true.
Proof.
  unfold py_float. destruct x as [|b|z|f|s|xs|kvs]; try (by intros [= <-]).
  - destruct (float_of_int z); by intros [= <-].
  - destruct (float_of_str s); by intros [= <-].
Qed.

Lemma store_publish_then {A} (m : M Store StateDict) (k : M App A) a d w' v' :
  m (store a) = Ok d w' → view_dict (objs w') d = Some v' →
  handles_exist (broker a) →
  (state <- in_store m ;; publish_state state ;;; k) a
  = k (mkApp w' (published (Wire.event v') (broker a))).
Proof.
  intros Hm Hd Hsubs.
  rewrite (bind_Ok _ _ _ _ _ (in_store_Ok _ _ _ _ Hm)).
  by rewrite (bind_Ok _ _ _ _ _
                (publish_state_ok (mkApp w' (broker a)) d v' Hd Hsubs)).
Qed.

(** *** [api_target] *)

(** An empty, missing or falsy body, or a body that is no JSON, or a truthy
    "clear", clears the target whatever else the body holds: the target
    is [None], the frame of the new state is in every mailbox, the reply
    is 204. *)
Theorem api_target_clear body a v :
  view (store a) = Some v → handles_exist (broker a) →
  is_empty_or_none (request_data body) = true ∨
  (∃ c, dict_get (request_data body) "clear" = inr c ∧ truthy c = true) →
  ∃ s',
    api_target body a
    = Ok (Text "" 204)
         (mkApp s' (published
                      (Wire.event (mkStateV (v_auv v) None (v_path v)))
                      (broker a))) ∧
    view s' = Some (mkStateV (v_auv v) None (v_path v)).
Proof.
  intros Hv Hsubs Hclear.
  destruct (set_target_ok _ _ None None Hv eq_refl)
    as (d & ext & Hrun & Hview & Hd & _). cbv zeta in *.
  rewrite Hview in Hd.
  eexists. split; [|exact Hview].
  unfold api_target.
  assert ((if is_empty_or_none (request_data body) then ret true
           else c <- of_result (dict_get (request_data body) "clear") ;;
                ret (truthy c)) a = Ok true a) as Hc.
  { destruct (is_empty_or_none (request_data body)) eqn:E; [done|].
    destruct Hclear as [?|(c & Hget & Hc)]; [done|].
    unfold bind. rewrite Hget. cbn. by rewrite Hc. }
  rewrite (bind_Ok _ _ _ _ _ Hc).
  by rewrite (store_publish_then _ _ a d _ _ Hrun Hd Hsubs).
Qed.

Lemma insert_last {A} (l : list A) (x y : A) :
  <[length l := y]> (l ++ [x]) = l ++ [y].
Proof.
  induction l as [|z l IH]; [done|]. simpl. by rewrite IH.
Qed.

Lemma radius_of_unfold r a :
  r ≠ JNull →
  radius_of r a
  = try_except
      (f <- of_result (py_float r) ;;
       if PrimFloat.ltb f 0%float
       then ret (inr (error_reply "radius_m must be >= 0"))
       else ret (inl (Some f)))
      is_exception
      (λ _, ret (inr (error_reply "radius_m must be numeric"))) a.
Proof. by destruct r. Qed.

Lemma radius_of_ok r f a :
  r ≠ JNull → py_float r = inr f → PrimFloat.ltb f 0 = false →
  radius_of r a = Ok (inl (Some f)) a.
Proof.
  intros Hr Hf Hlt. rewrite radius_of_unfold by done.
  unfold try_except, bind. rewrite Hf. cbn. by rewrite Hlt.
Qed.

Lemma radius_of_negative r f a :
  r ≠ JNull → py_float r = inr f → PrimFloat.ltb f 0 = true →
  radius_of r a = Ok (inr (error_reply "radius_m must be >= 0")) a.
Proof.
  intros Hr Hf Hlt. rewrite radius_of_unfold by done.
  unfold try_except, bind. rewrite Hf. cbn. by rewrite Hlt.
Qed.

Lemma radius_of_not_numeric r e a :
  r ≠ JNull → py_float r = inl e →
  radius_of r a = Ok (inr (error_reply "radius_m must be numeric")) a.
Proof.
  intros Hr He. rewrite radius_of_unfold by done.
  unfold try_except, bind. rewrite He. cbn.
  by rewrite (py_float_exception _ _ He).
Qed.

(** What [api_target] does after [validate_latlon] has let the position
    through, by what the radius check gives. *)
Lemma api_target_after_radius body a v c lat lon r r2 :
  view (store a) = Some v → handles_exist (broker a) →
  is_empty_or_none (request_data body) = false →
  dict_get (request_data body) "clear" = inr c → truthy c = false →
  float_at (request_data body) "lat" = inr lat →
  float_at (request_data body) "lon" = inr lon →
  in_range lat lon = true →
  dict_get (request_data body) "radius_m" = inr r →
  (∀ a1, radius_of r a1 = Ok r2 a1) →
  match r2 with
  | inr resp =>
      ∃ s', api_target body a = Ok resp (mkApp s' (broker a)) ∧
            _state s' = _state (store a) ∧ view s' = Some v
  | inl ro =>
      ∃ s',
        api_target body a
        = Ok (Text "" 204)
             (mkApp s' (published
                          (Wire.event
                             (mkStateV (v_auv v)
                                (Some (target_dict lat lon ro)) (v_path v)))
                          (broker a))) ∧
        view s' = Some (mkStateV (v_auv v) (Some (target_dict lat lon ro))
                          (v_path v))
  end.
Proof.
  intros Hv Hsubs Hne Hclear Hc Hlat Hlon Hrange Hr Hrad.
  set (data := request_data body) in *.
  set (h := objs (store a)).
  set (ll := latlon_dict lat lon).
  set (w1 := mkStore (h ++ [ODict ll]) (_state (store a))).
  assert (in_store
            (try_except
               (latlon <- validate_latlon data ;; ret (inl latlon))
               is_ValueError
               (λ e, ret (inr (error_reply (exn_str e))))) a
          = Ok (inl (length h)) (mkApp w1 (broker a))) as Hr1.
  { apply in_store_Ok. unfold try_except, bind.
    by rewrite (validate_latlon_ok data (store a) lat lon Hlat Hlon Hrange). }
  assert (view w1 = Some v) as Hv1 by (by apply view3_app).
  destruct r2 as [ro|resp];
    unfold api_target; fold data; rewrite Hne;
    unfold bind at 1 2; rewrite Hclear; cbn [of_result ret]; rewrite Hc;
    rewrite (bind_Ok _ _ _ _ _ Hr1); cbv beta iota;
    rewrite Hr; rewrite (bind_Ok (of_result (inr r)) _ _ r _ eq_refl);
    rewrite (bind_Ok _ _ _ _ _ (Hrad _)).
  2: { exists w1. split_and!; [reflexivity|reflexivity|exact Hv1]. }
  set (t := length (h ++ [ODict ll])).
  assert (in_store (dict_copy (length h)) (mkApp w1 (broker a))
          = Ok t (mkApp (mkStore ((h ++ [ODict ll]) ++ [ODict ll])
                           (_state (store a))) (broker a))) as Hcopy.
  { apply (in_store_Ok _ (mkApp w1 (broker a))).
    apply (dict_copy_ok w1). apply deref_dict_new. }
  rewrite (bind_Ok _ _ _ _ _ Hcopy). cbv beta.
  set (w3 := mkStore ((h ++ [ODict ll]) ++ [ODict (target_dict lat lon ro)])
               (_state (store a))).
  assert (match ro with
          | Some f => in_store (dict_setitem t "radius_m" (VFloat f))
          | None => ret tt
          end (mkApp (mkStore ((h ++ [ODict ll]) ++ [ODict ll])
                        (_state (store a))) (broker a))
          = Ok tt (mkApp w3 (broker a))) as Hset.
  { destruct ro as [f|];
      [|unfold w3, target_dict, ll; by rewrite app_nil_r].
    apply (in_store_Ok _ (mkApp _ (broker a))).
    unfold dict_setitem, bind, load_dict. cbn [store objs].
    unfold t. rewrite list_lookup_middle by done.
    unfold store_obj, modify. cbn [objs _state].
    by rewrite insert_last. }
  rewrite (bind_Ok _ _ _ _ _ Hset).
  destruct (set_target_ok w3 v (Some t) (Some (target_dict lat lon ro)))
    as (d & ext & Hrun & Hview & Hd & _).
  { unfold w3. by do 2 apply view3_app. }
  { cbn [deref_opt objs w3]. unfold t. by rewrite deref_dict_new. }
  cbv zeta in *. rewrite Hview in Hd.
  eexists. split; [|exact Hview].
  by rewrite (store_publish_then _ _ (mkApp w3 (broker a)) d _ _ Hrun Hd Hsubs).
Qed.

(** A position that passes and a radius that is absent, null, or a
    number not below zero: the target is the dict of lat, lon and, when
    given, radius_m; the frame of the new state is in every mailbox; the
    reply is 204. *)
Theorem api_target_set body a v c lat lon r ro :
  view (store a) = Some v → handles_exist (broker a) →
  is_empty_or_none (request_data body) = false →
  dict_get (request_data body) "clear" = inr c → truthy c = false →
  float_at (request_data body) "lat" = inr lat →
  float_at (request_data body) "lon" = inr lon →
  in_range lat lon = true →
  dict_get (request_data body) "radius_m" = inr r →
  (r = JNull ∧ ro = None) ∨
  (r ≠ JNull ∧ ∃ f, ro = Some f ∧ py_float r = inr f ∧
                    PrimFloat.ltb f 0 = false) →
  ∃ s',
    api_target body a
    = Ok (Text "" 204)
         (mkApp s' (published
                      (Wire.event
                         (mkStateV (v_auv v)
                            (Some (target_dict lat lon ro)) (v_path v)))
                      (broker a))) ∧
    view s' = Some (mkStateV (v_auv v) (Some (target_dict lat lon ro))
                      (v_path v)).
Proof.
  intros Hv Hsubs Hne Hclear Hc Hlat Hlon Hrange Hr Hrad.
  apply (api_target_after_radius body a v c lat lon r (inl ro)
           Hv Hsubs Hne Hclear Hc Hlat Hlon Hrange Hr).
  intros a1. destruct Hrad as [[-> ->]|(Hnn & f & -> & Hf & Hlt)].
  - done.
  - by apply radius_of_ok.
Qed.

(** A radius below zero gets the reply 400 with "radius_m must be >= 0",
    one that [float] does not take gets 400 with "radius_m must be
    numeric"; the stored state and every mailbox are as they were. *)
Theorem api_target_bad_radius body a v c lat lon r :
  view (store a) = Some v → handles_exist (broker a) →
  is_empty_or_none (request_data body) = false →
  dict_get (request_data body) "clear" = inr c → truthy c = false →
  float_at (request_data body) "lat" = inr lat →
  float_at (request_data body) "lon" = inr lon →
  in_range lat lon = true →
  dict_get (request_data body) "radius_m" = inr r →
  r ≠ JNull →
  (∀ f, py_float r = inr f → PrimFloat.ltb f 0 = true →
     ∃ s', api_target body a
           = Ok (error_reply "radius_m must be >= 0") (mkApp s' (broker a)) ∧
           _state s' = _state (store a) ∧ view s' = Some v)
  ∧
  (∀ e, py_float r = inl e →
     ∃ s', api_target body a
           = Ok (error_reply "radius_m must be numeric")
                (mkApp s' (broker a)) ∧
           _state s' = _state (store a) ∧ view s' = Some v).
Proof.
  intros Hv Hsubs Hne Hclear Hc Hlat Hlon Hrange Hr Hnn. split.
  - intros f Hf Hlt.
    apply (api_target_after_radius body a v c lat lon r
             (inr (error_reply "radius_m must be >= 0"))
             Hv Hsubs Hne Hclear Hc Hlat Hlon Hrange Hr).
    intros a1. by apply (radius_of_negative r f).
  - intros e He.
    apply (api_target_after_radius body a v c lat lon r
             (inr (error_reply "radius_m must be numeric"))
             Hv Hsubs Hne Hclear Hc Hlat Hlon Hrange Hr).
    intros a1. by apply (radius_of_not_numeric r e).
Qed.

(** A body that is JSON, truthy and no object (a list, a string, a
    number, true): [api_auv] replies 400, [api_target] raises
    [AttributeError] at [data.get]; neither changes anything. *)
Theorem non_object_body j a :
  truthy j = true → (∀ kvs, j ≠ JDict kvs) →
  api_auv (Some j) a = Ok (error_reply "lat/lon required and numeric") a ∧
  api_target (Some j) a = Raise AttributeError a.
Proof.
  intros Ht Hj. split.
  - apply api_auv_not_numeric.
    left. unfold request_data. rewrite Ht. unfold float_at, subscript.
    destruct j; try (eexists; reflexivity). by destruct (Hj kvs).
  - unfold api_target, request_data. rewrite Ht.
    destruct j as [| | | | |xs|kvs]; try done. by destruct (Hj kvs).
Qed.

End write_paths.

Lemma demo_handles_exist : handles_exist demo_broker.
Proof. repeat constructor; simpl; lia. Defined.

Lemma api_target_clear_witness :
  ∃ s',
    @Server.api_target plain_builtins None demo_app
    = Ok (Server.Text "" 204)
         (Server.mkApp s'
            (published
               (@Wire.event plain_builtins
                  (StateStore.mkStateV None None (StateStore.v_path demo_view)))
               demo_broker)) ∧
    StateStore.view s'
    = Some (StateStore.mkStateV None None (StateStore.v_path demo_view)).
Proof.
  apply (@api_target_clear plain_builtins None demo_app demo_view).
  - reflexivity.
  - exact demo_handles_exist.
  - left. reflexivity.
Defined.

Lemma api_target_set_witness :
  ∃ s',
    @Server.api_target plain_builtins (demo_target_body 300) demo_app
    = Ok (Server.Text "" 204)
         (Server.mkApp s'
            (published
               (@Wire.event plain_builtins
                  (StateStore.mkStateV None
                     (Some (target_dict 32.5 34.75 (Some 300%float)))
                     (StateStore.v_path demo_view)))
               demo_broker)) ∧
    StateStore.view s'
    = Some (StateStore.mkStateV None
              (Some (target_dict 32.5 34.75 (Some 300%float)))
              (StateStore.v_path demo_view)).
Proof.
  apply (@api_target_set plain_builtins (demo_target_body 300) demo_app
           demo_view JNull 32.5%float 34.75%float (JFloat 300)
           (Some 300%float)); try reflexivity.
  - exact demo_handles_exist.
  - right. split; [discriminate|]. exists 300%float.
    split_and!; reflexivity.
Defined.

Lemma api_target_bad_radius_witness :
  ∃ s',
    @Server.api_target plain_builtins (demo_target_body (-1)) demo_app
    = Ok (Server.error_reply "radius_m must be >= 0")
         (Server.mkApp s' demo_broker) ∧
    StateStore._state s' = StateStore._state demo_store ∧
    StateStore.view s' = Some demo_view.
Proof.
  apply (proj1 (@api_target_bad_radius plain_builtins (demo_target_body (-1))
                  demo_app demo_view JNull 32.5%float 34.75%float
                  (JFloat (-1)) eq_refl demo_handles_exist eq_refl eq_refl
                  eq_refl eq_refl eq_refl eq_refl eq_refl
                  ltac:(discriminate))
           (-1)%float); reflexivity.
Defined.

Lemma non_object_body_witness :
  @Server.api_auv plain_builtins (Some (JList [JNull])) demo_app
  = Ok (Server.error_reply "lat/lon required and numeric") demo_app ∧
  @Server.api_target plain_builtins (Some (JList [JNull])) demo_app
  = Raise AttributeError demo_app.
Proof.
  apply (@non_object_body plain_builtins (JList [JNull]) demo_app).
  - reflexivity.
  - discriminate.
Defined.

(** ** [api_path] *)

Section path_handler.

Context `{PyBuiltins} `{PyStrMethods}.

Import StateStore Broker Server.

Implicit Types (a : App) (v : StateV) (w : Store) (h : heap).

Lemma deref_dicts_seq (ds : list pydict) : ∀ h,
  deref_dicts (h ++ map ODict ds) (seq (length h) (length ds)) = Some ds.
Proof.
  induction ds as [|d ds IH]; intros h; simpl; [done|].
  unfold deref_dict at 1. rewrite list_lookup_middle by done.
  replace (h ++ ODict d :: map ODict ds) with ((h ++ [ODict d]) ++ map ODict ds)
    by (by rewrite <- app_assoc).
  replace (S (length h)) with (length (h ++ [ODict d]))
    by (rewrite length_app; simpl; lia).
  by rewrite IH.
Qed.

Lemma parse_point_ok item lat lon :
  parse_point item = Some (lat, lon) →
  float_at item "lat" = inr lat ∧ float_at item "lon" = inr lon ∧
  in_range lat lon = true.
Proof.
  unfold parse_point.
  destruct (float_at item "lat") as [|lat']; [done|].
  destruct (float_at item "lon") as [|lon']; [done|].
  destruct (in_range lat' lon') eqn:E; [|done]. by intros [= <- <-].
Qed.

(** The message of an item that does not pass is the same in every
    store. *)
Lemma parse_point_None_msg item :
  parse_point item = None →
  ∃ msg, (∀ w, validate_latlon item w = Raise (ValueError msg) w) ∧
         (msg = "lat/lon required and numeric" ∨ msg = "lat/lon out of range").
Proof.
  unfold parse_point. intros Hnone.
  destruct (float_at item "lat") as [e1|lat] eqn:Hlat.
  { exists "lat/lon required and numeric". split; [|by left].
    intros w. apply validate_latlon_not_numeric. left. eauto. }
  destruct (float_at item "lon") as [e2|lon] eqn:Hlon.
  { exists "lat/lon required and numeric". split; [|by left].
    intros w. apply validate_latlon_not_numeric. right. eauto. }
  destruct (in_range lat lon) eqn:Hrange; [done|].
  exists "lat/lon out of range". split; [|by right].
  intros w. by apply (validate_latlon_out_of_range item w lat lon).
Qed.

Lemma validate_points_run points items : ∀ w xs,
  deref_list (objs w) points = Some xs →
  match parse_points items with
  | Some lls =>
      ∃ us, validate_points points items w
            = Ok us (mkStore (loop_heap (objs w) points xs lls) (_state w))
  | None =>
      ∃ msg lls pre item post,
        validate_points points items w
        = Raise (ValueError msg)
            (mkStore (loop_heap (objs w) points xs lls) (_state w)) ∧
        (msg = "lat/lon required and numeric" ∨
         msg = "lat/lon out of range") ∧
        items = pre ++ item :: post ∧
        parse_points pre = Some lls ∧
        (∀ w', validate_latlon item w' = Raise (ValueError msg) w')
  end.
Proof.
  induction items as [|item items IH]; intros w xs Hxs; simpl.
  - exists []. unfold loop_heap. simpl. rewrite !app_nil_r.
    rewrite list_insert_id by (by apply deref_list_lookup). by destruct w.
  - destruct (parse_point item) as [[lat lon]|] eqn:Ep.
    + apply parse_point_ok in Ep as (Hlat & Hlon & Hrange).
      set (h := objs w).
      set (w1 := mkStore (<[points := OList (xs ++ [length h])]>
                            (h ++ [ODict (latlon_dict lat lon)])) (_state w)).
      assert (points < length h) as Hp by (by eapply deref_list_lt).
      assert ((l <- validate_latlon item ;; list_append points l) w = Ok tt w1)
        as Hstep.
      { rewrite (bind_Ok _ _ _ _ _
                   (validate_latlon_ok item w lat lon Hlat Hlon Hrange)).
        unfold list_append.
        rewrite (bind_Ok _ _ _ _ _
                   (load_list_ok (mkStore _ _) points xs
                      (deref_list_app _ _ _ _ Hxs))).
        done. }
      assert (deref_list (objs w1) points = Some (xs ++ [length h])) as Hxs1.
      { unfold deref_list. cbn [objs w1].
        rewrite list_lookup_insert_eq; [done|]. rewrite length_app. lia. }
      assert (∀ lls,
                loop_heap (objs w1) points (xs ++ [length h]) lls
                = loop_heap h points xs ((lat, lon) :: lls)) as Hheap.
      { intros lls. unfold loop_heap. cbn [objs w1 latlon_dicts map length fst snd].
        rewrite length_insert, length_app. cbn [length].
        rewrite <- insert_app_l by (rewrite length_app; lia).
        rewrite list_insert_insert_eq. rewrite <- !app_assoc. cbn [app seq].
        by rewrite Nat.add_1_r. }
      specialize (IH w1 _ Hxs1). unfold validate_points in *.
      cbn [for_each]. rewrite (bind_Ok _ _ _ _ _ Hstep). cbv beta.
      destruct (parse_points items) as [lls|].
      * destruct IH as [us Hus]. exists (tt :: us).
        rewrite (bind_Ok _ _ _ _ _ Hus). by rewrite Hheap.
      * destruct IH as (msg & lls & pre & bad & post & Hrun & Hmsg & -> & Hpre
                        & Hbad).
        exists msg, ((lat, lon) :: lls), (item :: pre), bad, post.
        split_and!; [|done|done| |done].
        -- unfold bind at 1. rewrite Hrun. by rewrite Hheap.
        -- cbn [parse_points]. unfold parse_point.
           by rewrite Hlat, Hlon, Hrange, Hpre.
    + destruct (parse_point_None_msg item Ep) as (msg & Hrun & Hmsg).
      exists msg, [], [], item, items. split_and!; [|done..].
      unfold validate_points. cbn [for_each].
      unfold bind at 1 2. rewrite (Hrun w).
      unfold loop_heap. simpl. rewrite !app_nil_r.
      rewrite list_insert_id by (by apply deref_list_lookup). by destruct w.
Qed.

Lemma loop_heap_lookup h lls l :
  l < length h →
  loop_heap (h ++ [OList []]) (length h) [] lls !! l = h !! l.
Proof.
  intros Hl. unfold loop_heap.
  rewrite list_lookup_insert_ne by lia.
  by rewrite <- app_assoc, lookup_app_l.
Qed.

Lemma view_loop_heap h lls s v :
  view (mkStore h s) = Some v →
  view (mkStore (loop_heap (h ++ [OList []]) (length h) [] lls) s) = Some v.
Proof.
  intros Hv. rewrite <- Hv. unfold view. cbn [objs _state].
  apply view3_agree. eapply Forall_impl; [by eapply view3_lt|].
  intros l Hl. by apply loop_heap_lookup.
Qed.

Lemma deref_points_loop_heap h lls :
  deref_points (loop_heap (h ++ [OList []]) (length h) [] lls) (length h)
  = Some (latlon_dicts lls).
Proof.
  unfold deref_points, deref_list, loop_heap.
  rewrite list_lookup_insert_eq by (rewrite !length_app; simpl; lia).
  rewrite (deref_dicts_insert_list _ _ _ []).
  - cbn [app].
    replace (length lls) with (length (latlon_dicts lls))
      by (unfold latlon_dicts; by rewrite length_map).
    apply deref_dicts_seq.
  - rewrite <- app_assoc. cbn [app]. by rewrite list_lookup_middle.
Qed.

(** After the checks of [api_path]: the path is set from the list the
    loop has filled. *)
Lemma set_path_from_loop h s v lls mode :
  view (mkStore h s) = Some v → bad_mode mode = false →
  ∃ d w',
    set_path (length h) mode
      (mkStore (loop_heap (h ++ [OList []]) (length h) [] lls) s)
    = Ok d w' ∧
    view w' = Some (mkStateV (v_auv v) (v_target v)
                      (if String.eqb mode "append"
                       then v_path v ++ latlon_dicts lls
                       else latlon_dicts lls)) ∧
    view_dict (objs w') d = view w'.
Proof.
  intros Hv Hmode.
  pose proof (view_loop_heap h lls s v Hv) as Hv1.
  pose proof (deref_points_loop_heap h lls) as Hp.
  destruct (String.eqb mode "append") eqn:Em.
  - apply String.eqb_eq in Em as ->.
    destruct (set_path_append_ok _ _ _ _ Hv1 Hp)
      as (d & ext & P & ptl & _ & _ & Hrun & Hview & Hd & _).
    eauto.
  - apply String.eqb_neq in Em.
    destruct (set_path_other_ok _ _ _ _ mode Em Hv1 Hp)
      as (d & ext & ptl & _ & Hrun & Hview & Hd & _).
    eauto.
Qed.

(** A mode that is "replace" or "append" once stripped and lowered, and a
    list of points that all pass [validate_latlon]: the path is replaced
    by, or extended with, the dicts of lat and lon of the points, in their
    order; the frame of the new state is in every mailbox; the reply is
    204. *)
Theorem api_path_ok body a v m items lls :
  view (store a) = Some v → handles_exist (broker a) →
  dict_get_default (request_data body) "mode" (JStr "replace") = inr m →
  bad_mode (str_lower (str_strip (py_str m))) = false →
  dict_get (request_data body) "points" = inr (JList items) →
  parse_points items = Some lls →
  let v' := mkStateV (v_auv v) (v_target v)
              (if String.eqb (str_lower (str_strip (py_str m))) "append"
               then v_path v ++ latlon_dicts lls
               else latlon_dicts lls) in
  ∃ s',
    api_path body a
    = Ok (Text "" 204) (mkApp s' (published (Wire.event v') (broker a))) ∧
    view s' = Some v'.
Proof.
  intros Hv Hsubs Hm Hmode Hpts Hparse v'.
  set (mode := str_lower (str_strip (py_str m))) in *.
  set (h := objs (store a)).
  unfold api_path. rewrite Hm.
  rewrite (bind_Ok (of_result (inr m)) _ _ m _ eq_refl). fold mode.
  rewrite Hmode, Hpts.
  rewrite (bind_Ok (of_result (inr (JList items))) _ _ (JList items) _ eq_refl).
  rewrite (bind_Ok _ _ _ _ _ (in_store_Ok (alloc (OList [])) a _ _ eq_refl)).
  fold h.
  pose proof (validate_points_run (length h) items
                (mkStore (h ++ [OList []]) (_state (store a))) []) as Hloop.
  rewrite Hparse in Hloop. destruct Hloop as [us Hus].
  { unfold deref_list. cbn [objs]. by rewrite list_lookup_middle. }
  cbn [objs _state] in Hus.
  set (w1 := mkStore (loop_heap (h ++ [OList []]) (length h) [] lls)
               (_state (store a))) in *.
  assert (in_store
            (try_except (validate_points (length h) items ;;; ret None)
               is_ValueError (λ e, ret (Some (error_reply (exn_str e)))))
            (mkApp (mkStore (h ++ [OList []]) (_state (store a))) (broker a))
          = Ok None (mkApp w1 (broker a))) as Hr.
  { apply (in_store_Ok _ (mkApp _ (broker a))).
    unfold try_except, bind. cbn [store]. by rewrite Hus. }
  rewrite (bind_Ok _ _ _ _ _ Hr). cbv beta iota.
  destruct (set_path_from_loop h (_state (store a)) v lls mode)
    as (d & w' & Hrun & Hview & Hd); [by destruct a as [[]]|done|].
  rewrite Hview in Hd. exists w'. split; [|exact Hview].
  by rewrite (store_publish_then _ _ (mkApp w1 (broker a)) d _ _ Hrun Hd Hsubs).
Qed.

(** What [api_path] turns down: a mode that is neither "replace" nor
    "append" once stripped and lowered, points that are no list, a body
    that is no object, and a list with a point that does not pass.  In the
    first three nothing at all has changed.  In the last the reply is 400
    with the message that [validate_latlon] raises on the first item that
    does not pass, and the stored state and every mailbox are as they
    were, whatever points came before that item. *)
Theorem api_path_turned_down body a :
  (∀ m,
     dict_get_default (request_data body) "mode" (JStr "replace") = inr m →
     bad_mode (str_lower (str_strip (py_str m))) = true →
     api_path body a
     = Ok (error_reply "mode must be 'replace' or 'append'") a)
  ∧
  (∀ m p,
     dict_get_default (request_data body) "mode" (JStr "replace") = inr m →
     bad_mode (str_lower (str_strip (py_str m))) = false →
     dict_get (request_data body) "points" = inr p →
     (∀ items, p ≠ JList items) →
     api_path body a
     = Ok (error_reply "points must be a list of {lat,lon}") a)
  ∧
  (∀ j, body = Some j → truthy j = true → (∀ kvs, j ≠ JDict kvs) →
     api_path body a = Raise AttributeError a)
  ∧
  (∀ v m items,
     view (store a) = Some v →
     dict_get_default (request_data body) "mode" (JStr "replace") = inr m →
     bad_mode (str_lower (str_strip (py_str m))) = false →
     dict_get (request_data body) "points" = inr (JList items) →
     parse_points items = None →
     ∃ msg s' pre item post lls,
       items = pre ++ item :: post ∧
       parse_points pre = Some lls ∧
       (∀ w, validate_latlon item w = Raise (ValueError msg) w) ∧
       api_path body a = Ok (error_reply msg) (mkApp s' (broker a)) ∧
       (msg = "lat/lon required and numeric" ∨
        msg = "lat/lon out of range") ∧
       _state s' = _state (store a) ∧
       view s' = Some v).
Proof.
  split_and!.
  - intros m Hm Hmode. unfold api_path. rewrite Hm.
    rewrite (bind_Ok (of_result (inr m)) _ _ m _ eq_refl). by rewrite Hmode.
  - intros m p Hm Hmode Hp Hnl. unfold api_path. rewrite Hm.
    rewrite (bind_Ok (of_result (inr m)) _ _ m _ eq_refl).
    rewrite Hmode, Hp.
    rewrite (bind_Ok (of_result (inr p)) _ _ p _ eq_refl).
    destruct p as [| | | | |items|kvs]; try done. by destruct (Hnl items).
  - intros j -> Ht Hj. unfold api_path, request_data. rewrite Ht.
    destruct j as [| | | | |xs|kvs]; try done. by destruct (Hj kvs).
  - intros v m items Hv Hm Hmode Hpts Hparse.
    set (h := objs (store a)).
    unfold api_path. rewrite Hm.
    rewrite (bind_Ok (of_result (inr m)) _ _ m _ eq_refl).
    rewrite Hmode, Hpts.
    rewrite (bind_Ok (of_result (inr (JList items))) _ _ (JList items) _
               eq_refl).
    rewrite (bind_Ok _ _ _ _ _ (in_store_Ok (alloc (OList [])) a _ _ eq_refl)).
    fold h.
    pose proof (validate_points_run (length h) items
                  (mkStore (h ++ [OList []]) (_state (store a))) []) as Hloop.
    rewrite Hparse in Hloop.
    destruct Hloop as (msg & lls & pre & item & post & Hrun & Hmsg & Hitems
                       & Hpre & Hbad).
    { unfold deref_list. cbn [objs]. by rewrite list_lookup_middle. }
    cbn [objs _state] in Hrun.
    set (w1 := mkStore (loop_heap (h ++ [OList []]) (length h) [] lls)
                 (_state (store a))) in *.
    assert (in_store
              (try_except (validate_points (length h) items ;;; ret None)
                 is_ValueError (λ e, ret (Some (error_reply (exn_str e)))))
              (mkApp (mkStore (h ++ [OList []]) (_state (store a))) (broker a))
            = Ok (Some (error_reply msg)) (mkApp w1 (broker a))) as Hr.
    { apply (in_store_Ok _ (mkApp _ (broker a))).
      unfold try_except, bind. cbn [store]. by rewrite Hrun. }
    rewrite (bind_Ok _ _ _ _ _ Hr). cbv beta iota.
    exists msg, w1, pre, item, post, lls.
    split_and!; [done|done|done|done|done|done|].
    apply view_loop_heap. by destruct a as [[]].
Qed.

End path_handler.

Lemma api_path_ok_witness :
  ∃ s',
    @Server.api_path plain_builtins latin1_str_methods
      (demo_points_body " APPEND " 3) demo_app
    = Ok (Server.Text "" 204)
         (Server.mkApp s'
            (published
               (@Wire.event plain_builtins
                  (StateStore.mkStateV None None
                     (StateStore.v_path demo_view ++ demo_points)))
               demo_broker)) ∧
    StateStore.view s'
    = Some (StateStore.mkStateV None None
              (StateStore.v_path demo_view ++ demo_points)).
Proof.
  apply (@api_path_ok plain_builtins latin1_str_methods
           (demo_points_body " APPEND " 3) demo_app demo_view
           (JStr " APPEND ")
           [JDict [("lat", JFloat 1); ("lon", JFloat 2)];
            JDict [("lat", JFloat 3); ("lon", JFloat 4)]]
           [(1%float, 2%float); (3%float, 4%float)]); try reflexivity.
  exact demo_handles_exist.
Defined.

Lemma api_path_turned_down_witness :
  (@Server.api_path plain_builtins latin1_str_methods
     (demo_points_body "prepend" 3) demo_app
   = Ok (Server.error_reply "mode must be 'replace' or 'append'") demo_app)
  ∧
  (∃ msg s' pre item post lls,
     [JDict [("lat", JFloat 1); ("lon", JFloat 2)];
      JDict [("lat", JFloat 91); ("lon", JFloat 4)]] = pre ++ item :: post ∧
     @parse_points plain_builtins pre = Some lls ∧
     (∀ w, @Server.validate_latlon plain_builtins item w
           = Raise (ValueError msg) w) ∧
     @Server.api_path plain_builtins latin1_str_methods
       (demo_points_body "replace" 91) demo_app
     = Ok (Server.error_reply msg) (Server.mkApp s' demo_broker) ∧
     (msg = "lat/lon required and numeric" ∨ msg = "lat/lon out of range") ∧
     StateStore._state s' = StateStore._state demo_store ∧
     StateStore.view s' = Some demo_view).
Proof.
  split.
  - apply (proj1 (@api_path_turned_down plain_builtins latin1_str_methods
                    (demo_points_body "prepend" 3) demo_app)
             (JStr "prepend")); reflexivity.
  - apply (proj2 (proj2 (proj2
             (@api_path_turned_down plain_builtins latin1_str_methods
                (demo_points_body "replace" 91) demo_app)))
             demo_view (JStr "replace")
             [JDict [("lat", JFloat 1); ("lon", JFloat 2)];
              JDict [("lat", JFloat 91); ("lon", JFloat 4)]]);
      reflexivity.
Defined.

(** ** The facade and the read handler *)

Section facade.

Context `{PyBuiltins}.

Import StateStore Broker Server.

Implicit Types (a : App) (v : StateV) (w : Store) (h : heap).

(** [GET /api/state] replies 200 with the JSON of the stored state, and
    [AuvTracker.get_state] returns a snapshot of it; the stored state and
    every mailbox are as they were. *)
Theorem api_state_snapshot a v :
  view (store a) = Some v →
  ∃ s',
    api_state a = Ok (Jsonify (json_of_state v) 200) (mkApp s' (broker a)) ∧
    _state s' = _state (store a) ∧
    view s' = Some v ∧
    ∃ d, AuvTracker.get_state a = Ok d (mkApp s' (broker a)) ∧
         view_dict (objs s') d = Some v.
Proof.
  intros Hv. destruct (get_ok _ _ Hv) as (d & ext & Hrun & Hd & _).
  exists (mkStore (objs (store a) ++ ext) (_state (store a))).
  split_and!; [|done|by apply view3_app|].
  - unfold api_state.
    rewrite (bind_Ok _ _ _ _ _ (in_store_Ok _ _ _ _ Hrun)).
    by rewrite (bind_Ok _ _ _ _ _
                  (in_store_Ok _ (mkApp _ _) _ _
                     (read_json_ok (mkStore _ _) _ _ Hd))).
  - exists d. split; [|done]. by apply in_store_Ok.
Qed.

(** [AuvTracker.set_target] with no radius, or one that is not below
    zero: whatever the position, in range or not, the target is the dict
    of lat, lon and, when given, radius_m, and the frame of the new state
    is in every mailbox. *)
Theorem facade_set_target_ok a v lat lon radius_m :
  view (store a) = Some v → handles_exist (broker a) →
  (∀ r, radius_m = Some r → PrimFloat.ltb r 0 = false) →
  ∃ s',
    AuvTracker.set_target lat lon radius_m a
    = Ok tt (mkApp s'
               (published
                  (Wire.event
                     (mkStateV (v_auv v)
                        (Some (target_dict lat lon radius_m)) (v_path v)))
                  (broker a))) ∧
    view s' = Some (mkStateV (v_auv v) (Some (target_dict lat lon radius_m))
                      (v_path v)).
Proof.
  intros Hv Hsubs Hrad.
  set (h := objs (store a)).
  set (w2 := mkStore (h ++ [ODict (target_dict lat lon radius_m)])
               (_state (store a))).
  unfold AuvTracker.set_target.
  rewrite (bind_Ok _ _ _ _ _ (in_store_Ok (alloc _) a _ _ eq_refl)).
  fold h.
  assert (match radius_m with
          | Some r =>
              if PrimFloat.ltb r 0
              then raise (ValueError "radius_m must be >= 0")
              else in_store (dict_setitem (length h) "radius_m" (VFloat r))
          | None => ret tt
          end (mkApp (mkStore (h ++ [ODict (latlon_dict lat lon)])
                        (_state (store a))) (broker a))
          = Ok tt (mkApp w2 (broker a))) as Hset.
  { destruct radius_m as [r|];
      [|unfold w2, target_dict; by rewrite app_nil_r].
    rewrite (Hrad r eq_refl).
    apply (in_store_Ok _ (mkApp _ (broker a))).
    unfold dict_setitem, bind, load_dict. cbn [store objs].
    rewrite list_lookup_middle by done.
    unfold store_obj, modify. cbn [objs _state].
    by rewrite insert_last. }
  rewrite (bind_Ok _ _ _ _ _ Hset).
  destruct (set_target_ok w2 v (Some (length h))
              (Some (target_dict lat lon radius_m)))
    as (d & ext & Hrun & Hview & Hd & _).
  { unfold w2. by apply view3_app. }
  { cbn [deref_opt objs w2]. by rewrite deref_dict_new. }
  cbv zeta in *. rewrite Hview in Hd.
  eexists. split; [|exact Hview].
  by rewrite (store_then_publish _ (mkApp w2 (broker a)) d _ _ Hrun Hd Hsubs).
Qed.

(** [AuvTracker.set_target] with a radius below zero raises [ValueError]
    with "radius_m must be >= 0"; the stored state and every mailbox are
    as they were. *)
Theorem facade_set_target_negative a v lat lon r :
  view (store a) = Some v → PrimFloat.ltb r 0 = true →
  ∃ s',
    AuvTracker.set_target lat lon (Some r) a
    = Raise (ValueError "radius_m must be >= 0") (mkApp s' (broker a)) ∧
    _state s' = _state (store a) ∧
    view s' = Some v.
Proof.
  intros Hv Hneg.
  exists (mkStore (objs (store a) ++ [ODict (latlon_dict lat lon)])
            (_state (store a))).
  split_and!; [|done|by apply view3_app].
  unfold AuvTracker.set_target.
  rewrite (bind_Ok _ _ _ _ _ (in_store_Ok (alloc _) a _ _ eq_refl)).
  by rewrite Hneg.
Qed.

(** [AuvTracker.clear_target]: the target is [None], the rest of the
    state is kept, and the frame of the new state is in every mailbox. *)
Theorem facade_clear_target a v :
  view (store a) = Some v → handles_exist (broker a) →
  ∃ s',
    AuvTracker.clear_target a
    = Ok tt (mkApp s'
               (published
                  (Wire.event (mkStateV (v_auv v) None (v_path v)))
                  (broker a))) ∧
    view s' = Some (mkStateV (v_auv v) None (v_path v)).
Proof.
  intros Hv Hsubs.
  destruct (set_target_ok _ _ None None Hv eq_refl)
    as (d & ext & Hrun & Hview & Hd & _). cbv zeta in *.
  rewrite Hview in Hd.
  eexists. split; [|exact Hview].
  unfold AuvTracker.clear_target.
  by rewrite (store_then_publish _ a d _ _ Hrun Hd Hsubs).
Qed.

(** One turn of the loop of [AuvTracker.set_path] on a point that has
    both numbers. *)
Lemma add_point_ok latlons p lat lon w xs :
  point_latlon p = Some (lat, lon) →
  deref_list (objs w) latlons = Some xs →
  AuvTracker.add_point latlons p w
  = Ok tt (mkStore (<[latlons := OList (xs ++ [length (objs w)])]>
                      (objs w ++ [ODict (latlon_dict lat lon)])) (_state w)).
Proof.
  intros Hp Hxs.
  assert ((l <- alloc (ODict (latlon_dict lat lon)) ;;
           list_append latlons l) w
          = Ok tt (mkStore (<[latlons := OList (xs ++ [length (objs w)])]>
                              (objs w ++ [ODict (latlon_dict lat lon)]))
                     (_state w))) as Hstep.
  { rewrite (bind_Ok (alloc _) _ _ _ _ eq_refl). unfold list_append.
    by rewrite (bind_Ok _ _ _ _ _
                  (load_list_ok (mkStore _ _) latlons xs
                     (deref_list_app _ _ _ _ Hxs))). }
  destruct p as [d|lat' lon']; cbn [point_latlon] in Hp.
  - unfold AuvTracker.add_point, AuvTracker.point_item.
    destruct (assoc "lat" d) as [lat'|]; [|done].
    destruct (assoc "lon" d) as [lon'|]; [|done].
    injection Hp as -> ->. exact Hstep.
  - injection Hp as -> ->. exact Hstep.
Qed.

(** A dict without one of the keys raises [KeyError] before anything is
    made. *)
Lemma add_point_KeyError latlons p w :
  point_latlon p = None →
  AuvTracker.add_point latlons p w = Raise KeyError w.
Proof.
  destruct p as [d|lat lon]; [|done]. cbn [point_latlon].
  unfold AuvTracker.add_point, AuvTracker.point_item.
  destruct (assoc "lat" d) as [lat|]; [|done].
  by destruct (assoc "lon" d) as [lon|].
Qed.

Lemma add_points_run latlons ps : ∀ w xs,
  deref_list (objs w) latlons = Some xs →
  match points_latlons ps with
  | Some lls =>
      ∃ us, for_each (AuvTracker.add_point latlons) ps w
            = Ok us (mkStore (loop_heap (objs w) latlons xs lls) (_state w))
  | None =>
      ∃ lls,
        for_each (AuvTracker.add_point latlons) ps w
        = Raise KeyError
            (mkStore (loop_heap (objs w) latlons xs lls) (_state w))
  end.
Proof.
  induction ps as [|p ps IH]; intros w xs Hxs; simpl.
  - exists []. unfold loop_heap. simpl. rewrite !app_nil_r.
    rewrite list_insert_id by (by apply deref_list_lookup). by destruct w.
  - destruct (point_latlon p) as [[lat lon]|] eqn:Ep.
    + set (h := objs w).
      set (w1 := mkStore (<[latlons := OList (xs ++ [length h])]>
                            (h ++ [ODict (latlon_dict lat lon)])) (_state w)).
      assert (latlons < length h) as Hp by (by eapply deref_list_lt).
      pose proof (add_point_ok latlons p lat lon w xs Ep Hxs) as Hstep.
      fold h in Hstep. fold w1 in Hstep.
      assert (deref_list (objs w1) latlons = Some (xs ++ [length h])) as Hxs1.
      { unfold deref_list. cbn [objs w1].
        rewrite list_lookup_insert_eq; [done|]. rewrite length_app. lia. }
      assert (∀ lls,
                loop_heap (objs w1) latlons (xs ++ [length h]) lls
                = loop_heap h latlons xs ((lat, lon) :: lls)) as Hheap.
      { intros lls. unfold loop_heap.
        cbn [objs w1 latlon_dicts map length fst snd].
        rewrite length_insert, length_app. cbn [length].
        rewrite <- insert_app_l by (rewrite length_app; lia).
        rewrite list_insert_insert_eq. rewrite <- !app_assoc. cbn [app seq].
        by rewrite Nat.add_1_r. }
      specialize (IH w1 _ Hxs1).
      rewrite (bind_Ok _ _ _ _ _ Hstep). cbv beta.
      destruct (points_latlons ps) as [lls|].
      * destruct IH as [us Hus]. exists (tt :: us).
        rewrite (bind_Ok _ _ _ _ _ Hus). by rewrite Hheap.
      * destruct IH as (lls & Hrun). exists ((lat, lon) :: lls).
        unfold bind at 1. rewrite Hrun. by rewrite Hheap.
    + exists []. unfold bind at 1.
      rewrite (add_point_KeyError latlons p w Ep).
      unfold loop_heap. simpl. rewrite !app_nil_r.
      rewrite list_insert_id by (by apply deref_list_lookup). by destruct w.
Qed.

(** [AuvTracker.set_path] with the mode "replace" or "append" and points
    that are pairs or dicts with both keys: whatever the positions, in
    range or not, "append" puts their dicts after the stored path and
    "replace" makes them the path; the frame of the new state is in
    every mailbox. *)
Theorem facade_set_path_ok a v points mode lls :
  view (store a) = Some v → handles_exist (broker a) →
  bad_mode mode = false →
  points_latlons points = Some lls →
  ∃ s',
    AuvTracker.set_path points mode a
    = Ok tt (mkApp s'
               (published
                  (Wire.event
                     (mkStateV (v_auv v) (v_target v)
                        (if String.eqb mode "append"
                         then v_path v ++ latlon_dicts lls
                         else latlon_dicts lls)))
                  (broker a))) ∧
    view s' = Some (mkStateV (v_auv v) (v_target v)
                      (if String.eqb mode "append"
                       then v_path v ++ latlon_dicts lls
                       else latlon_dicts lls)).
Proof.
  intros Hv Hsubs Hmode Hparse.
  set (h := objs (store a)).
  unfold AuvTracker.set_path. rewrite Hmode.
  rewrite (bind_Ok _ _ _ _ _ (in_store_Ok (alloc (OList [])) a _ _ eq_refl)).
  fold h.
  pose proof (add_points_run (length h) points
                (mkStore (h ++ [OList []]) (_state (store a))) []) as Hloop.
  rewrite Hparse in Hloop. destruct Hloop as [us Hus].
  { unfold deref_list. cbn [objs]. by rewrite list_lookup_middle. }
  cbn [objs _state] in Hus.
  set (w1 := mkStore (loop_heap (h ++ [OList []]) (length h) [] lls)
               (_state (store a))) in *.
  rewrite (bind_Ok _ _ _ _ _
             (in_store_Ok _ (mkApp (mkStore _ _) (broker a)) _ _ Hus)).
  destruct (set_path_from_loop h (_state (store a)) v lls mode)
    as (d & w' & Hrun & Hview & Hd); [by destruct a as [[]]|done|].
  rewrite Hview in Hd. exists w'. split; [|exact Hview].
  by rewrite (store_then_publish _ (mkApp w1 (broker a)) d _ _ Hrun Hd Hsubs).
Qed.

(** What [AuvTracker.set_path] turns down: a mode other than "replace"
    and "append", as it is written, raises [ValueError] and nothing at
    all has changed; a dict that lacks "lat" or "lon" raises [KeyError],
    and the stored state and every mailbox are as they were, whatever
    points came before it. *)
Theorem facade_set_path_turned_down a points mode :
  (bad_mode mode = true →
   AuvTracker.set_path points mode a
   = Raise (ValueError "mode must be 'replace' or 'append'") a)
  ∧
  (∀ v, view (store a) = Some v → bad_mode mode = false →
     points_latlons points = None →
     ∃ s',
       AuvTracker.set_path points mode a
       = Raise KeyError (mkApp s' (broker a)) ∧
       _state s' = _state (store a) ∧
       view s' = Some v).
Proof.
  split.
  - intros Hmode. unfold AuvTracker.set_path. by rewrite Hmode.
  - intros v Hv Hmode Hparse.
    set (h := objs (store a)).
    unfold AuvTracker.set_path. rewrite Hmode.
    rewrite (bind_Ok _ _ _ _ _ (in_store_Ok (alloc (OList [])) a _ _ eq_refl)).
    fold h.
    pose proof (add_points_run (length h) points
                  (mkStore (h ++ [OList []]) (_state (store a))) []) as Hloop.
    rewrite Hparse in Hloop. destruct Hloop as [lls Hrun].
    { unfold deref_list. cbn [objs]. by rewrite list_lookup_middle. }
    cbn [objs _state] in Hrun.
    exists (mkStore (loop_heap (h ++ [OList []]) (length h) [] lls)
              (_state (store a))).
    split_and!; [|done|apply view_loop_heap; by destruct a as [[]]].
    unfold bind at 1, in_store at 1. cbn [store]. by rewrite Hrun.
Qed.

End facade.

(** ** Fan-out, the life of a stream, and what the store shares *)

Section streams.

Context `{PyBuiltins}.

Import StateStore Broker Server.

Implicit Types (a : App) (v : StateV) (w : Store) (b : Broker).

(** [publish_str] returns, keeps the subscribers, leaves in the mailbox of
    each of them the payload and nothing else, and leaves every other
    queue as it was. *)
Theorem publish_fan_out b payload :
  handles_exist b →
  publish_str payload b = Ok tt (published payload b) ∧
  _subs (published payload b) = _subs b ∧
  (∀ q, q ∈ _subs b → pending (published payload b) q = [payload]) ∧
  (∀ q, q ∉ _subs b → queues (published payload b) !! q = queues b !! q).
Proof.
  intros Hsubs. split_and!.
  - by apply publish_ok.
  - done.
  - intros q Hq. by apply pending_published.
  - intros q Hq. unfold published. cbn [queues].
    by apply put_all_lookup_notin.
Qed.

(** A stream from its opening to its end: [stream] subscribes a new
    mailbox and touches no other; the first turn of the loop yields the
    frame of the state of that moment, the next one, with nothing
    published meanwhile, a keep-alive; the [finally] leaves the
    subscribers as they were before the stream was opened. *)
Theorem stream_lifecycle a v :
  view (store a) = Some v → valid (broker a) →
  ∃ q a1 b2 b3,
    stream a = Ok q a1 ∧
    (q ∉ _subs (broker a)) ∧
    _subs (broker a1) = _subs (broker a) ++ [q] ∧
    (∀ q', q' ≠ q → queues (broker a1) !! q' = queues (broker a) !! q') ∧
    event_stream_next q (broker a1) = Ok (Wire.event v) b2 ∧
    event_stream_next q b2 = Ok keep_alive b2 ∧
    event_stream_close q b2 = Ok tt b3 ∧
    _subs b3 = _subs (broker a).
Proof.
  intros Hv [Hlt Hnd].
  destruct (get_ok _ _ Hv) as (d & ext & Hrun & Hd & _).
  set (b := broker a) in *. set (q := length (queues b)).
  set (b1 := mkBroker (queues b ++ [Queue.mk 1 [Wire.event v]])
               (_subs b ++ [q])).
  set (b2 := mkBroker (<[q := Queue.mk 1 []]> (queues b1)) (_subs b1)).
  assert (q ∉ _subs b) as Hq.
  { intros Hin. rewrite Forall_forall in Hlt. apply Hlt in Hin.
    unfold q in Hin. lia. }
  exists q, (mkApp (mkStore (objs (store a) ++ ext) (_state (store a))) b1),
    b2, (mkBroker (queues b2) (_subs b)).
  split_and!; [|done|done| | | | |done].
  - unfold stream.
    rewrite (bind_Ok _ _ _ _ _ (in_store_Ok _ _ _ _ Hrun)).
    rewrite (bind_Ok _ _ _ _ _
               (in_store_Ok _ (mkApp _ _) _ _
                  (read_json_ok (mkStore _ _) _ _ Hd))).
    rewrite sse_wrap_state.
    by rewrite (in_broker_Ok _ (mkApp _ _) _ _ (subscribe_ok b (Wire.event v))).
  - intros q' Hne. cbn [broker queues b1].
    destruct (decide (q' < q)) as [Hl|Hl].
    + by rewrite lookup_app_l.
    + rewrite !lookup_ge_None_2; [done|fold q; lia|].
      rewrite length_app. cbn [length]. fold q. lia.
  - unfold event_stream_next, try_except, get_timeout, get_nowait.
    cbn [broker queues b1]. by rewrite list_lookup_middle.
  - unfold event_stream_next, try_except, get_timeout, get_nowait.
    cbn [queues b2 b1].
    rewrite list_lookup_insert_eq; [done|].
    rewrite length_app. cbn [length]. fold q. lia.
  - unfold event_stream_close. rewrite unsubscribe_ok.
    + cbn [queues _subs b2 b1]. do 2 f_equal.
      rewrite filter_app, (filter_ne_notin _ _ Hq).
      rewrite filter_cons_False by naive_solver.
      by rewrite filter_nil, app_nil_r.
    + cbn [_subs b2 b1]. apply NoDup_app. split_and!; [done| |].
      * intros x Hx ->%list_elem_of_singleton. by apply Hq.
      * apply NoDup_singleton.
Qed.

(** The store keeps the dict it is handed, not a copy of it: what the
    caller writes into that dict afterwards is what the store holds as
    auv, while the snapshot that [set_auv] returned reads as before. *)
Theorem set_auv_keeps_reference w v l dl k x :
  view w = Some v → deref_dict (objs w) l = Some dl →
  ∃ d w1 w2,
    StateStore.set_auv l w = Ok d w1 ∧
    dict_setitem l k x w1 = Ok tt w2 ∧
    _state w2 = _state w1 ∧
    deref_opt (objs w2) (auv (_state w2)) = Some (Some (dict_set k x dl)) ∧
    view_dict (objs w2) d = Some (mkStateV (Some dl) (v_target v) (v_path v)).
Proof.
  intros Hv Hl.
  destruct (set_auv_ok w v l dl Hv Hl) as (d & ext & Hrun & Hview & Hd & Hf).
  cbv zeta in *. cbn [objs] in Hd, Hf. rewrite Hview in Hd.
  pose proof (deref_dict_lt _ _ _ Hl) as Hlt.
  assert ((objs w ++ ext) !! l = Some (ODict dl)) as Hlook.
  { rewrite lookup_app_l by done. unfold deref_dict in Hl.
    destruct (objs w !! l) as [[]|]; by try injection Hl as ->. }
  eexists d, _, (mkStore (<[l := ODict (dict_set k x dl)]> (objs w ++ ext)) _).
  split_and!; [exact Hrun| |reflexivity| |].
  - unfold dict_setitem, bind, load_dict. cbn [objs]. by rewrite Hlook.
  - cbn [objs _state auv deref_opt]. unfold deref_dict.
    rewrite list_lookup_insert_eq; [done|]. rewrite length_app. lia.
  - cbn [objs]. rewrite <- Hd. apply view3_agree.
    eapply Forall_impl; [exact Hf|]. intros l' Hl'. cbn beta in Hl'.
    apply list_lookup_insert_ne. lia.
Qed.

End streams.

Lemma api_state_snapshot_witness :
  ∃ s',
    Server.api_state demo_app
    = Ok (Server.Jsonify (json_of_state demo_view) 200)
         (Server.mkApp s' demo_broker) ∧
    StateStore._state s' = StateStore._state demo_store ∧
    StateStore.view s' = Some demo_view ∧
    ∃ d, AuvTracker.get_state demo_app = Ok d (Server.mkApp s' demo_broker) ∧
         StateStore.view_dict (StateStore.objs s') d = Some demo_view.
Proof. apply (api_state_snapshot demo_app demo_view). reflexivity. Defined.

(** A latitude out of range and a radius that is no number are stored as
    they come. *)
Lemma facade_set_target_ok_witness :
  ∃ s',
    @AuvTracker.set_target plain_builtins 1000 34.75 (Some PrimFloat.nan)
      demo_app
    = Ok tt
         (Server.mkApp s'
            (published
               (@Wire.event plain_builtins
                  (StateStore.mkStateV None
                     (Some (target_dict 1000 34.75 (Some PrimFloat.nan)))
                     (StateStore.v_path demo_view)))
               demo_broker)) ∧
    StateStore.view s'
    = Some (StateStore.mkStateV None
              (Some (target_dict 1000 34.75 (Some PrimFloat.nan)))
              (StateStore.v_path demo_view)).
Proof.
  apply (@facade_set_target_ok plain_builtins demo_app demo_view
           1000%float 34.75%float (Some PrimFloat.nan)).
  - reflexivity.
  - exact demo_handles_exist.
  - intros r [= <-]. reflexivity.
Defined.

Lemma facade_set_target_negative_witness :
  ∃ s',
    @AuvTracker.set_target plain_builtins 32.5 34.75 (Some (-1)%float)
      demo_app
    = Raise (ValueError "radius_m must be >= 0")
        (Server.mkApp s' demo_broker) ∧
    StateStore._state s' = StateStore._state demo_store ∧
    StateStore.view s' = Some demo_view.
Proof.
  apply (@facade_set_target_negative plain_builtins demo_app demo_view
           32.5%float 34.75%float (-1)%float); reflexivity.
Defined.

Lemma facade_clear_target_witness :
  ∃ s',
    @AuvTracker.clear_target plain_builtins demo_app
    = Ok tt
         (Server.mkApp s'
            (published
               (@Wire.event plain_builtins
                  (StateStore.mkStateV None None (StateStore.v_path demo_view)))
               demo_broker)) ∧
    StateStore.view s'
    = Some (StateStore.mkStateV None None (StateStore.v_path demo_view)).
Proof.
  apply (@facade_clear_target plain_builtins demo_app demo_view).
  - reflexivity.
  - exact demo_handles_exist.
Defined.

Lemma facade_set_path_ok_witness :
  ∃ s',
    @AuvTracker.set_path plain_builtins
      [AuvTracker.PTuple 1 2;
       AuvTracker.PDict [("lon", 4%float); ("lat", 3%float)]]
      "append" demo_app
    = Ok tt
         (Server.mkApp s'
            (published
               (@Wire.event plain_builtins
                  (StateStore.mkStateV None None
                     (StateStore.v_path demo_view ++ demo_points)))
               demo_broker)) ∧
    StateStore.view s'
    = Some (StateStore.mkStateV None None
              (StateStore.v_path demo_view ++ demo_points)).
Proof.
  apply (@facade_set_path_ok plain_builtins demo_app demo_view
           [AuvTracker.PTuple 1 2;
            AuvTracker.PDict [("lon", 4%float); ("lat", 3%float)]]
           "append" [(1%float, 2%float); (3%float, 4%float)]);
    try reflexivity.
  exact demo_handles_exist.
Defined.

(** The facade takes the mode as it is written: "APPEND" is no mode. *)
Lemma facade_set_path_turned_down_witness :
  (@AuvTracker.set_path plain_builtins [AuvTracker.PTuple 1 2] "APPEND"
     demo_app
   = Raise (ValueError "mode must be 'replace' or 'append'") demo_app)
  ∧
  (∃ s',
     @AuvTracker.set_path plain_builtins
       [AuvTracker.PTuple 1 2; AuvTracker.PDict [("lat", 3%float)]]
       "replace" demo_app
     = Raise KeyError (Server.mkApp s' demo_broker) ∧
     StateStore._state s' = StateStore._state demo_store ∧
     StateStore.view s' = Some demo_view).
Proof.
  split.
  - apply (proj1 (@facade_set_path_turned_down plain_builtins demo_app
                    [AuvTracker.PTuple 1 2] "APPEND")).
    reflexivity.
  - apply (proj2 (@facade_set_path_turned_down plain_builtins demo_app
                    [AuvTracker.PTuple 1 2;
                     AuvTracker.PDict [("lat", 3%float)]] "replace")
             demo_view); reflexivity.
Defined.

Lemma publish_fan_out_witness :
  Broker.publish_str "new" demo_broker = Ok tt (published "new" demo_broker) ∧
  Broker._subs (published "new" demo_broker) = Broker._subs demo_broker ∧
  (∀ q, q ∈ Broker._subs demo_broker →
        Broker.pending (published "new" demo_broker) q = ["new"]) ∧
  (∀ q, q ∉ Broker._subs demo_broker →
        Broker.queues (published "new" demo_broker) !! q
        = Broker.queues demo_broker !! q).
Proof. apply (publish_fan_out demo_broker "new"). exact demo_handles_exist. Defined.

Lemma stream_lifecycle_witness :
  ∃ q a1 b2 b3,
    @Server.stream plain_builtins demo_app = Ok q a1 ∧
    (q ∉ Broker._subs demo_broker) ∧
    Broker._subs (Server.broker a1) = Broker._subs demo_broker ++ [q] ∧
    (∀ q', q' ≠ q →
       Broker.queues (Server.broker a1) !! q'
       = Broker.queues demo_broker !! q') ∧
    Server.event_stream_next q (Server.broker a1)
    = Ok (@Wire.event plain_builtins demo_view) b2 ∧
    Server.event_stream_next q b2 = Ok Server.keep_alive b2 ∧
    Server.event_stream_close q b2 = Ok tt b3 ∧
    Broker._subs b3 = Broker._subs demo_broker.
Proof.
  apply (@stream_lifecycle plain_builtins demo_app demo_view).
  - reflexivity.
  - exact demo_broker_valid.
Defined.

Lemma set_auv_keeps_reference_witness :
  ∃ d w1 w2,
    StateStore.set_auv 0 demo_store = Ok d w1 ∧
    Server.dict_setitem 0 "lat" (VFloat 33) w1 = Ok tt w2 ∧
    StateStore._state w2 = StateStore._state w1 ∧
    StateStore.deref_opt (StateStore.objs w2)
      (StateStore.auv (StateStore._state w2))
    = Some (Some [("lat", VFloat 33); ("lon", VFloat 34.75)]) ∧
    StateStore.view_dict (StateStore.objs w2) d
    = Some (StateStore.mkStateV
              (Some [("lat", VFloat 32.5); ("lon", VFloat 34.75)])
              None (StateStore.v_path demo_view)).
Proof.
  apply (set_auv_keeps_reference demo_store demo_view 0
           [("lat", VFloat 32.5); ("lon", VFloat 34.75)] "lat" (VFloat 33));
    reflexivity.
Defined.
